(** * Verification of the exercises repository

    A shallow embedding of the exercise code (React components, Express
    router, fetch wrappers and services) and the properties stated about it.

    Conventions of the embedding:
    - The amounts and totals that UserStatistics adds, divides and compares
      are exact rationals ([Qc]); IEEE rounding is outside the model there.
      A number of a JSON payload is an integer literal, held as the double
      nearest to it where the code prints it or counts with it.
    - JavaScript plain objects used as maps are association lists in property
      creation order, with the inherited properties of [Object.prototype]
      written out where the code can reach them.
    - [async] functions are functions of an explicit world (network, console,
      alerts, localStorage) that return how their promise settles. *)

From stdpp Require Import base decidable option list numbers strings sorting
  gmap pretty.
From Stdlib Require Import Ascii QArith.Qcanon.

Close Scope Qc_scope.
Close Scope Q_scope.

(* ===================================================================== *)
(** ** Part 1: the UserStatistics component (KISS exercise)              *)
(* ===================================================================== *)

Module UserStatistics.

(** Payload shapes of [/api/users/:id] and [/api/transactions]. *)
Record Transaction := { amount : Qc; category : string }.
Record User := { totalSpent : Qc }.

(** *** The plain object [frequencyMap]

    [const frequencyMap = {}] is an ordinary object: its prototype is
    [Object.prototype]. Reading a key that is not an own property falls
    through to the prototype. *)

(** Where a non-numeric property value came from. *)
Inductive Origin :=
  | FromBuiltin (name : string)   (* a function of Object.prototype *)
  | FromProto.                    (* Object.prototype itself, via __proto__ *)

(** The text JavaScript gives these objects when [+] converts them. *)
Definition origin_text (o : Origin) : string :=
  match o with
  | FromBuiltin f => "function " +:+ f +:+ "() { [native code] }"
  | FromProto => "[object Object]"
  end.

(** Own property values of [frequencyMap]: a number, or the string
    [origin_text o] followed by [ones] characters "1". *)
Inductive PropVal :=
  | Count (n : nat)
  | Text (o : Origin) (ones : nat).

(** What a property read can yield. *)
Inductive JsVal :=
  | JsUndefined
  | JsOwn (v : PropVal)
  | JsBuiltin (name : string)
  | JsObjectPrototype.

(** The data properties of [Object.prototype] (all of them functions). *)
Definition object_prototype_methods : list string :=
  [ "constructor"; "__defineGetter__"; "__defineSetter__"; "hasOwnProperty";
    "__lookupGetter__"; "__lookupSetter__"; "isPrototypeOf";
    "propertyIsEnumerable"; "toString"; "valueOf"; "toLocaleString" ].

(** Every name [Object.prototype] answers to, with the accessor
    [__proto__]. *)
Definition inherited_names : list string :=
  "__proto__" :: object_prototype_methods.

(** Own properties, in creation order. *)
Definition JsObject := list (string * PropVal).

Fixpoint own_lookup (o : JsObject) (k : string) : option PropVal :=
  match o with
  | [] => None
  | (k', v) :: o' => if decide (k' = k) then Some v else own_lookup o' k
  end.

(** [o[k]]: own property first, then the prototype. *)
Definition js_get (o : JsObject) (k : string) : JsVal :=
  match own_lookup o k with
  | Some v => JsOwn v
  | None =>
      if decide (k = "__proto__") then JsObjectPrototype
      else if decide (k ∈ object_prototype_methods) then JsBuiltin k
      else JsUndefined
  end.

Fixpoint own_replace (o : JsObject) (k : string) (v : PropVal) : JsObject :=
  match o with
  | [] => []
  | (k', v') :: o' =>
      if decide (k' = k) then (k', v) :: o' else (k', v') :: own_replace o' k v
  end.

(** [o[k] = v] for a primitive [v]. The [__proto__] setter ignores
    primitives; an existing own property keeps its place; otherwise a new own
    property is created last (the inherited functions are writable data
    properties, so they are shadowed, not assigned). *)
Definition js_set (o : JsObject) (k : string) (v : PropVal) : JsObject :=
  if decide (k = "__proto__") then o
  else match own_lookup o k with
       | Some _ => own_replace o k v
       | None => o ++ [(k, v)]
       end.

(** [(x || 0) + 1]. Numbers add; a function, an object or a string
    concatenates with "1". *)
Definition or_zero_plus_one (x : JsVal) : PropVal :=
  match x with
  | JsUndefined => Count 1
  | JsOwn (Count 0) => Count 1
  | JsOwn (Count n) => Count (n + 1)
  | JsOwn (Text o ones) => Text o (ones + 1)
  | JsBuiltin f => Text (FromBuiltin f) 1
  | JsObjectPrototype => Text FromProto 1
  end.

(** ToNumber on what a property read yields; [None] is NaN. A [Text] starts
    with "function" or "[object", which is no numeric literal. *)
Definition to_number (x : JsVal) : option nat :=
  match x with
  | JsOwn (Count n) => Some n
  | _ => None
  end.

(** *** Enumeration order of [for (const category in frequencyMap)]

    Own string keys that are array indices come first, in ascending numeric
    order; the others follow in creation order. [Object.prototype] adds
    nothing: its properties are not enumerable. *)

Definition digit_of (a : ascii) : option N :=
  let n := N_of_ascii a in
  if bool_decide (48 ≤ n ∧ n ≤ 57)%N then Some (n - 48)%N else None.

Fixpoint parse_digits (s : string) (acc : N) : option N :=
  match s with
  | EmptyString => Some acc
  | String a s' =>
      match digit_of a with
      | Some d => parse_digits s' (acc * 10 + d)%N
      | None => None
      end
  end.

(** A canonical numeric string below 2^32 - 1. *)
Definition array_index (s : string) : option N :=
  match s with
  | EmptyString => None
  | String a s' =>
      if bool_decide (a = "0"%char ∧ s' ≠ EmptyString) then None
      else match parse_digits s 0 with
           | Some n => if bool_decide (n < 4294967295)%N then Some n else None
           | None => None
           end
  end.

Definition index_le (a b : N * string) : Prop := (a.1 ≤ b.1)%N.

#[global] Instance index_le_dec a b : Decision (index_le a b).
Proof. unfold index_le. apply _. Defined.

Definition index_keys (ks : list string) : list (N * string) :=
  omap (λ k, (λ n, (n, k)) <$> array_index k) ks.

Definition named_keys (ks : list string) : list string :=
  filter (λ k, array_index k = None) ks.

Definition for_in_keys (o : JsObject) : list string :=
  (merge_sort index_le (index_keys o.*1)).*2 ++ named_keys o.*1.

(** *** The render-time computation, lines 47-74 of the component *)

Definition sum_step (sum : Qc) (t : Transaction) : Qc := (sum + amount t)%Qc.

Definition count_step (frequencyMap : JsObject) (t : Transaction) : JsObject :=
  js_set frequencyMap (category t)
         (or_zero_plus_one (js_get frequencyMap (category t))).

Definition frequencyMap_of (transactions : list Transaction) : JsObject :=
  fold_left count_step transactions [].

(** One iteration of the [for ... in] body on [(maxCount, topCategory)]:
    [if (frequencyMap[category] > maxCount) { maxCount = ...; topCategory =
    category }]. A comparison with NaN is false. *)
Definition top_step (frequencyMap : JsObject) (st : nat * string)
    (category : string) : nat * string :=
  match to_number (js_get frequencyMap category) with
  | Some n => if bool_decide (st.1 < n) then (n, category) else st
  | None => st
  end.

Inductive Tier := Silver | Gold | Platinum.

Definition tier_label (t : Tier) : string :=
  match t with Silver => "Silver" | Gold => "Gold" | Platinum => "Platinum" end.

Record Stats := {
  averageSpend : Qc;
  topCategory : string;
  userTier : Tier
}.

(** [user?.totalSpent > bound]: false when [user] is null. *)
Definition spent_above (user : option User) (bound : Qc) : bool :=
  match user with
  | Some u => bool_decide (bound < totalSpent u)%Qc
  | None => false
  end.

Definition stats (user : option User) (transactions : list Transaction) : Stats :=
  match transactions with
  | [] => {| averageSpend := 0%Qc; topCategory := "None"; userTier := Silver |}
  | _ =>
      let avg :=
        (fold_left sum_step transactions 0
         / Qc_of_Z (Z.of_nat (List.length transactions)))%Qc in
      let frequencyMap := frequencyMap_of transactions in
      let top :=
        (fold_left (top_step frequencyMap) (for_in_keys frequencyMap)
                   (0, "None")).2 in
      let tier :=
        if spent_above user (Qc_of_Z 10000) then Platinum
        else if spent_above user (Qc_of_Z 5000) then Gold
        else Silver in
      {| averageSpend := avg; topCategory := top; userTier := tier |}
  end.

(** *** The notions the specification uses *)

(** Arithmetic mean: the sum of the amounts over their number. *)
Definition total (transactions : list Transaction) : Qc :=
  foldr (λ t acc, (amount t + acc)%Qc) 0%Qc transactions.

Definition occurrences (c : string) (cs : list string) : nat :=
  List.length (filter (λ c', c' = c) cs).

(** A mode of [cs]: a member that no other value out-numbers. *)
Definition is_mode (c : string) (cs : list string) : Prop :=
  c ∈ cs ∧ ∀ c', occurrences c' cs ≤ occurrences c cs.

(** [user.totalSpent > bound] as a proposition; it fails for a null user. *)
Definition totalSpent_above (user : option User) (bound : Z) : Prop :=
  ∃ u, user = Some u ∧ (Qc_of_Z bound < totalSpent u)%Qc.

(** *** Invariants of the frequency map, used in the proofs *)

(** A category is safe when [Object.prototype] has no property of that
    name: reading it from an object that lacks it gives [undefined]. *)
Definition safe (c : string) : Prop := c ∉ inherited_names.

(** [o] holds exactly the counts of the categories [cs] seen so far. *)
Definition tally_val (n : nat) : option PropVal :=
  match n with 0 => None | S _ => Some (Count n) end.

Definition tally_of (o : JsObject) (cs : list string) : Prop :=
  NoDup o.*1 ∧ ∀ k, own_lookup o k = tally_val (occurrences k cs).

(** Every own value is text, none a number. *)
Definition all_text (o : JsObject) : Prop :=
  ∀ k v, own_lookup o k = Some v → ∃ og ones, v = Text og ones.

End UserStatistics.

(* ===================================================================== *)
(** ** Part 2: JavaScript values, promises and the browser               *)
(* ===================================================================== *)

Module Js.

#[local] Set Warnings "-register-all".

(** Parsed JSON. Numbers in payloads are taken to be integers; an object
    is its own properties in order. *)
Inductive Json :=
  | JNull
  | JBool (b : bool)
  | JNum (z : Z)
  | JStr (s : string)
  | JArr (items : list Json)
  | JObj (fields : list (string * Json)).

Inductive ErrorKind := PlainError | TypeError | SyntaxError.

Record JsError := { kind : ErrorKind; message : string }.

(** The body of a reply: JSON text, given by its parse, or text on which
    [response.json()] rejects with the parser's message. *)
Inductive Body :=
  | JsonBody (j : Json)
  | NotJson (parse_error : string).

(** An HTTP reply as [fetch] delivers it. *)
Record HttpReply := { status : nat; body : Body }.

(** The values the exercise code passes around. *)
Inductive Value :=
  | VUndefined
  | VJson (j : Json)
  | VError (e : JsError)
  | VResponse (r : HttpReply).

(** How an expression or an awaited promise ends. Anything can be thrown. *)
Inductive Completion (A : Type) :=
  | Return (a : A)
  | Throw (v : Value).
Arguments Return {A} a.
Arguments Throw {A} v.

Definition new_Error (msg : string) : Value :=
  VError {| kind := PlainError; message := msg |}.
Definition new_TypeError (msg : string) : Value :=
  VError {| kind := TypeError; message := msg |}.
Definition new_SyntaxError (msg : string) : Value :=
  VError {| kind := SyntaxError; message := msg |}.

(** *** Conversions *)

(** ToBoolean. *)
Definition truthy (v : Value) : bool :=
  match v with
  | VUndefined => false
  | VJson JNull => false
  | VJson (JBool b) => b
  | VJson (JNum z) => bool_decide (z ≠ 0%Z)
  | VJson (JStr s) => bool_decide (s ≠ "")
  | _ => true
  end.

(** *** Numbers

    A number of a payload is an integer literal; JavaScript holds the
    double nearest to it. *)

(** The double nearest to [a ≥ 0], ties to even; none past the largest. *)
Definition nearest_double (a : Z) : option Z :=
  if (a <? 2 ^ 53)%Z then Some a
  else
    let e := (Z.log2 a - 52)%Z in
    let q := (a / 2 ^ e)%Z in
    let r := (a mod 2 ^ e)%Z in
    let half := (2 ^ (e - 1))%Z in
    let q' := if (half <? r)%Z || ((r =? half)%Z && Z.odd q)
              then (q + 1)%Z else q in
    let d := (q' * 2 ^ e)%Z in
    if (d <? 2 ^ 1024)%Z then Some d else None.

(** The integer a sum or a difference of integers comes to as a double
    (within the range of doubles). *)
Definition rounded (z : Z) : Z :=
  (Z.sgn z * from_option id (Z.abs z) (nearest_double (Z.abs z)))%Z.

Definition decimal_length (a : Z) : nat := String.length (pretty a).

(** The decimal with [n] significant digits that reads back as [d], if
    there is one; of two, the one closer to [d], and the even one when they
    are as close. *)
Definition reads_back (d : Z) (n : nat) : option Z :=
  let k := (Z.of_nat (decimal_length d) - Z.of_nat n)%Z in
  if (k <? 0)%Z then Some d
  else
    let lo := (d / 10 ^ k * 10 ^ k)%Z in
    let hi := (lo + 10 ^ k)%Z in
    let ok c := bool_decide (nearest_double c = Some d) in
    let lo_first :=
      (d - lo <? hi - d)%Z
      || ((d - lo =? hi - d)%Z && Z.even (d / 10 ^ k)) in
    match ok lo, ok hi with
    | true, true => Some (if lo_first then lo else hi)
    | true, false => Some lo
    | false, true => Some hi
    | false, false => None
    end.

(** The decimal with the fewest significant digits that reads back as the
    double [d > 0]. *)
Definition shortest_decimal (d : Z) : Z :=
  from_option id d
    (list_find is_Some (reads_back d <$> seq 1 17) ≫= λ p, p.2).

Fixpoint drop_zeros (digits : list ascii) : list ascii :=
  match digits with
  | [] => []
  | c :: rest =>
      match drop_zeros rest with
      | [] => if decide (c = "0"%char) then [] else [c]
      | rest' => c :: rest'
      end
  end.

(** Number::toString on a double that is a positive integer. *)
Definition digits_text (v : Z) : string :=
  if (v <? 10 ^ 21)%Z then pretty v
  else
    let exponent := pretty (decimal_length v - 1) in
    match drop_zeros (String.list_ascii_of_string (pretty v)) with
    | [] => "0"
    | [c] => String c ("e+" +:+ exponent)
    | c :: rest =>
        String c ("." +:+ String.string_of_list_ascii rest
                  +:+ "e+" +:+ exponent)
    end.

(** ToString of the number JavaScript holds for the integer [z]. *)
Definition Number_toString (z : Z) : string :=
  let sign := if (z <? 0)%Z then "-" else "" in
  match nearest_double (Z.abs z) with
  | None => sign +:+ "Infinity"
  | Some 0%Z => "0"
  | Some d => sign +:+ digits_text (shortest_decimal d)
  end.

(** ToString on JSON values that convert; an array joins its elements
    with commas, null elements giving the empty string. *)
Fixpoint json_to_string (j : Json) : string :=
  match j with
  | JNull => "null"
  | JBool true => "true"
  | JBool false => "false"
  | JNum z => Number_toString z
  | JStr s => s
  | JObj _ => "[object Object]"
  | JArr items =>
      (fix join (l : list Json) : string :=
         match l with
         | [] => ""
         | x :: l' =>
             let e := match x with JNull => "" | _ => json_to_string x end in
             match l' with [] => e | _ => e +:+ "," +:+ join l' end
         end) items
  end.

(** Whether a JSON value converts to a string. An object with a property
    of its own called toString does not: that property is no function, and
    valueOf gives no primitive. An array converts when its elements do. *)
Fixpoint converts (j : Json) : bool :=
  match j with
  | JObj fields => bool_decide ("toString" ∉ fields.*1)
  | JArr items => forallb converts items
  | _ => true
  end.

Definition cannot_convert : Value :=
  VError {| kind := TypeError;
            message := "Cannot convert object to primitive value" |}.

(** ToString. *)
Definition ToString (j : Json) : Completion string :=
  if converts j then Return (json_to_string j) else Throw cannot_convert.

Definition kind_name (k : ErrorKind) : string :=
  match k with
  | PlainError => "Error" | TypeError => "TypeError"
  | SyntaxError => "SyntaxError"
  end.

Definition to_string (v : Value) : string :=
  match v with
  | VUndefined => "undefined"
  | VJson j => json_to_string j
  | VError e =>
      if bool_decide (message e = "") then kind_name (kind e)
      else kind_name (kind e) +:+ ": " +:+ message e
  | VResponse _ => "[object Response]"
  end.

(** [a || b]. *)
Definition js_or (a b : Value) : Value := if truthy a then a else b.

(** ToString on any value. *)
Definition to_String (v : Value) : Completion string :=
  match v with
  | VJson j => ToString j
  | _ => Return (to_string v)
  end.

(** [new Error(x)]: the message is [x] converted to a string, and the
    conversion can throw. *)
Definition new_Error_of (x : Value) : Completion Value :=
  match to_String x with
  | Return text => Return (new_Error text)
  | Throw t => Throw t
  end.

(** *** Property reads

    [v.name] for the names the exercises read (message, token, user, ok,
    ...), none of which a built-in prototype defines. Reading a property
    of null or undefined throws. *)

Fixpoint field_lookup (fields : list (string * Json)) (name : string)
    : option Json :=
  match fields with
  | [] => None
  | (k, v) :: rest => if decide (k = name) then Some v else field_lookup rest name
  end.

Definition cannot_read (what name : string) : Value :=
  new_TypeError ("Cannot read properties of " +:+ what +:+ " (reading '"
                 +:+ name +:+ "')").

Definition ok (r : HttpReply) : bool :=
  bool_decide (200 ≤ status r ∧ status r ≤ 299).

Definition get_prop (v : Value) (name : string) : Completion Value :=
  match v with
  | VUndefined => Throw (cannot_read "undefined" name)
  | VJson JNull => Throw (cannot_read "null" name)
  | VJson (JObj fields) =>
      Return (from_option VJson VUndefined (field_lookup fields name))
  | VJson _ => Return VUndefined
  | VError e =>
      Return (if decide (name = "message") then VJson (JStr (message e))
              else VUndefined)
  | VResponse r =>
      Return (if decide (name = "ok") then VJson (JBool (ok r))
              else if decide (name = "status")
                   then VJson (JNum (Z.of_nat (status r)))
                   else VUndefined)
  end.

(** [await response.json()] on a Response. *)
Definition reply_json (r : HttpReply) : Completion Value :=
  match body r with
  | JsonBody j => Return (VJson j)
  | NotJson parse_error => Throw (new_SyntaxError parse_error)
  end.

(** [await v.json()] on an arbitrary value: only a Response has a [json]
    method; on anything else the call itself throws a TypeError. *)
Definition call_json (v : Value) : Completion Value :=
  match v with
  | VResponse r => reply_json r
  | VUndefined => Throw (cannot_read "undefined" "json")
  | VJson JNull => Throw (cannot_read "null" "json")
  | _ => Throw (new_TypeError "response.json is not a function")
  end.

(** *** The browser: network, console, alerts, localStorage *)

Record Request := {
  url : string;
  method : string;
  authorization : option string;
  payload : Value            (* what is passed as [body], before encoding *)
}.

Inductive FetchOutcome :=
  | NetFail (e : JsError)     (* the fetch promise rejects *)
  | Reply (r : HttpReply).

(** A stored string: given as such, or the text [JSON.stringify] makes of
    a JSON value. *)
Inductive Stored :=
  | Raw (s : string)
  | Stringified (j : Json).

Record World := {
  net : list FetchOutcome;          (* what the network answers next *)
  sent : list Request;              (* requests issued so far *)
  console : list (string * Value);  (* console.error(label, value) *)
  alerts : list string;             (* alert(text) *)
  localStorage : gmap string Stored;
  api_token : string                (* [token] of the API singleton *)
}.

Definition set_net f (w : World) : World :=
  {| net := f (net w); sent := sent w; console := console w;
     alerts := alerts w; localStorage := localStorage w;
     api_token := api_token w |}.
Definition set_sent f (w : World) : World :=
  {| net := net w; sent := f (sent w); console := console w;
     alerts := alerts w; localStorage := localStorage w;
     api_token := api_token w |}.
Definition set_console f (w : World) : World :=
  {| net := net w; sent := sent w; console := f (console w);
     alerts := alerts w; localStorage := localStorage w;
     api_token := api_token w |}.
Definition set_alerts f (w : World) : World :=
  {| net := net w; sent := sent w; console := console w;
     alerts := f (alerts w); localStorage := localStorage w;
     api_token := api_token w |}.
Definition set_localStorage f (w : World) : World :=
  {| net := net w; sent := sent w; console := console w;
     alerts := alerts w; localStorage := f (localStorage w);
     api_token := api_token w |}.
Definition set_api_token f (w : World) : World :=
  {| net := net w; sent := sent w; console := console w;
     alerts := alerts w; localStorage := localStorage w;
     api_token := f (api_token w) |}.

(** *** Asynchronous code as state passing with exceptions *)

Definition M (S A : Type) : Type := S → Completion A * S.

Definition ret {S A} (a : A) : M S A := λ s, (Return a, s).
Definition throw {S A} (v : Value) : M S A := λ s, (Throw v, s).
Definition bind {S A B} (m : M S A) (f : A → M S B) : M S B :=
  λ s, match m s with
       | (Return a, s') => f a s'
       | (Throw v, s') => (Throw v, s')
       end.
Definition lift_completion {S A} (c : Completion A) : M S A := λ s, (c, s).
Definition modify {S} (f : S → S) : M S unit := λ s, (Return tt, f s).

(** [try { m } catch (e) { h e }] *)
Definition try_catch {S A} (m : M S A) (h : Value → M S A) : M S A :=
  λ s, match m s with
       | (Throw v, s') => h v s'
       | r => r
       end.

(** [try { m } finally { f }] for a [finally] block that cannot throw. *)
Definition try_finally {S A} (m : M S A) (f : S → S) : M S A :=
  λ s, let '(c, s') := m s in (c, f s').

Declare Scope js_scope.
Delimit Scope js_scope with js.
Notation "'let*' x ':=' m 'in' k" := (bind m (λ x, k))
  (at level 10, x name, m at level 100, k at level 200) : js_scope.
Notation "'run' m 'in' k" := (bind m (λ _, k))
  (at level 10, m at level 100, k at level 200) : js_scope.

(** [await fetch(req)]: the request is issued and the next scripted outcome
    consumed; with nothing scripted the network is down. *)
Definition fetch (req : Request) : M World HttpReply :=
  λ w,
    let w' := set_sent (λ l, l ++ [req]) w in
    match net w with
    | [] => (Throw (new_TypeError "Failed to fetch"), w')
    | NetFail e :: rest => (Throw (VError e), set_net (λ _, rest) w')
    | Reply r :: rest => (Return r, set_net (λ _, rest) w')
    end.

(** The world after one request was issued and the next outcome consumed. *)
Definition after_fetch (req : Request) (w : World) : World :=
  set_net (λ l, tail l) (set_sent (λ l, l ++ [req]) w).

(** A fresh browser in which the network will answer with [outcomes]. *)
Definition world_with (outcomes : list FetchOutcome) : World :=
  {| net := outcomes; sent := []; console := []; alerts := [];
     localStorage := ∅; api_token := "" |}.

Definition console_error (label : string) (v : Value) : M World unit :=
  modify (set_console (λ l, l ++ [(label, v)])).

Definition alert (text : string) : M World unit :=
  modify (set_alerts (λ l, l ++ [text])).

Definition localStorage_setItem (key : string) (v : Stored) : M World unit :=
  modify (set_localStorage (λ m, <[key := v]> m)).

Definition localStorage_removeItem (key : string) : M World unit :=
  modify (set_localStorage (λ m, delete key m)).

(** [JSON.stringify(v)] as the argument of [setItem]; [undefined] is stored
    as the text "undefined". *)
Definition stringify_for_storage (v : Value) : Stored :=
  match v with
  | VJson j => Stringified j
  | VUndefined => Raw "undefined"
  | VError _ => Raw "{}"
  | VResponse _ => Raw "{}"
  end.

(** The state that outlives a component: browser storage and the token of
    the module-level API object. *)
Definition shared (w : World) : gmap string Stored * string :=
  (localStorage w, api_token w).

End Js.

(* ===================================================================== *)
(** ** Part 3: the service file (apiClient, authService)                 *)
(* ===================================================================== *)

Module Services.
Import Js.
#[local] Open Scope js_scope.

Definition baseUrl : string := "/api".

Definition request (verb endpoint : string) (body : Value) : Request :=
  {| url := baseUrl +:+ endpoint; method := verb; authorization := None;
     payload := body |}.

(** [throw new Error(data.message || "API request failed")] *)
Definition throw_api_error {A} (data : Value) : M World A :=
  let* message := lift_completion (get_prop data "message") in
  let* error :=
    lift_completion
      (new_Error_of (js_or message (VJson (JStr "API request failed")))) in
  throw error.

(** The [catch] block of each method: log, then rethrow. *)
Definition log_and_rethrow {A} (label : string) (error : Value) : M World A :=
  run console_error label error in throw error.

Module apiClient.

Definition get (endpoint : string) : M World Value :=
  try_catch
    (let* response := fetch (request "GET" endpoint VUndefined) in
     if negb (ok response) then
       let* data := lift_completion (reply_json response) in
       throw_api_error data
     else lift_completion (reply_json response))
    (log_and_rethrow "API GET error:").

Definition post (endpoint : string) (body : Value) : M World Value :=
  try_catch
    (let* response := fetch (request "POST" endpoint body) in
     let* data := lift_completion (reply_json response) in
     if negb (ok response) then throw_api_error data else ret data)
    (log_and_rethrow "API POST error:").

Definition put (endpoint : string) (body : Value) : M World Value :=
  try_catch
    (let* response := fetch (request "PUT" endpoint body) in
     let* data := lift_completion (reply_json response) in
     if negb (ok response) then throw_api_error data else ret data)
    (log_and_rethrow "API PUT error:").

End apiClient.

(** *** The behaviour the specification states for the three methods

    "Returns the parsed JSON body exactly when response.ok is true, and
    otherwise throws an Error whose message is the body's message field if
    present and "API request failed" otherwise." *)

Definition message_field (j : Json) : option Json :=
  match j with
  | JObj fields => field_lookup fields "message"
  | _ => None
  end.

Definition stated_result (r : HttpReply) (j : Json) : Completion Value :=
  if ok r then Return (VJson j)
  else Throw (new_Error (match message_field j with
                         | Some m => json_to_string m
                         | None => "API request failed"
                         end)).

(** *** What the three methods do, case by case *)

(** The world after a request that failed with [v], logged under [label]. *)
Definition after_failure (label : string) (req : Request) (v : Value)
    (w : World) : World :=
  set_console (λ l, l ++ [(label, v)]) (after_fetch req w).

(** What is thrown for a JSON body other than null of a reply that is
    not ok: an Error with the body's [message] converted to a string when
    that is truthy, the TypeError of the conversion when it fails, and an
    Error with the default message otherwise. *)
Definition api_error (j : Json) : Value :=
  match message_field j with
  | Some m =>
      if truthy (VJson m) then
        match ToString m with
        | Return text => new_Error text
        | Throw t => t
        end
      else new_Error "API request failed"
  | None => new_Error "API request failed"
  end.

(** How a call settles, by the first outcome the network has in store. *)
Definition settles (first : option FetchOutcome) : Completion Value :=
  match first with
  | None => Throw (new_TypeError "Failed to fetch")
  | Some (NetFail e) => Throw (VError e)
  | Some (Reply r) =>
      match body r with
      | NotJson parse_error => Throw (new_SyntaxError parse_error)
      | JsonBody j =>
          if ok r then Return (VJson j)
          else match j with
               | JNull => Throw (cannot_read "null" "message")
               | _ => Throw (api_error j)
               end
      end
  end.

(** The world a call leaves: one request sent, one outcome consumed, and
    the thrown value logged once when the call fails. *)
Definition leaves (label : string) (req : Request) (w : World) : World :=
  match settles (head (net w)) with
  | Return _ => after_fetch req w
  | Throw v => after_failure label req v w
  end.

(** What it means for a method to follow the contract: it settles as
    [settles] says on the first outcome, sends exactly one request, consumes
    exactly one outcome, and logs the thrown value exactly when it throws. *)
Definition meets_contract (call : M World Value) (label : string)
    (req : Request) : Prop :=
  ∀ w,
    (call w).1 = settles (head (net w)) ∧
    sent (call w).2 = sent w ++ [req] ∧
    net (call w).2 = tail (net w) ∧
    console (call w).2
      = console w ++ match (call w).1 with
                     | Throw v => [(label, v)]
                     | Return _ => []
                     end ∧
    localStorage (call w).2 = localStorage w ∧
    api_token (call w).2 = api_token w.

(** What a service method returns: [{ success: true, ...fields }] or
    [{ success: false, error }]. *)
Inductive ServiceResult :=
  | Succeeded (fields : list (string * Value))
  | Failed (error : Value).

(** [catch (error) { return { success: false, error: error.message } }] *)
Definition report_failure (error : Value) : M World ServiceResult :=
  let* message := lift_completion (get_prop error "message") in
  ret (Failed message).

Section authService.

(** [setToken] and [removeToken] come from [../utils/auth], which is not
    part of the exercise file; they are parameters here. *)
Variable setToken : Value → M World unit.
Variable removeToken : M World unit.

Definition login (email password : string) : M World ServiceResult :=
  try_catch
    (let* data := apiClient.post "/auth/login"
                    (VJson (JObj [("email", JStr email);
                                  ("password", JStr password)])) in
     let* token := lift_completion (get_prop data "token") in
     run setToken token in
     let* user := lift_completion (get_prop data "user") in
     run localStorage_setItem "user" (stringify_for_storage user) in
     let* isAdmin := lift_completion (get_prop user "isAdmin") in
     ret (Succeeded [("user", user); ("isAdmin", isAdmin)]))
    report_failure.

Definition register (userData : Value) : M World ServiceResult :=
  try_catch
    (let* result := apiClient.post "/auth/register" userData in
     ret (Succeeded [("user", result)]))
    report_failure.

Definition logout : M World ServiceResult :=
  run removeToken in
  run localStorage_removeItem "user" in
  ret (Succeeded []).

End authService.

(** *** Requests and replies used in the statements *)

Definition login_request (email password : string) : Request :=
  Services.request "POST" "/auth/login"
    (VJson (JObj [("email", JStr email); ("password", JStr password)])).

(** A login that succeeds, with a [setToken] that keeps the token in
    localStorage. *)
Definition store_token (token : Value) : M World unit :=
  localStorage_setItem "token" (Raw (to_string token)).

Definition login_reply : HttpReply :=
  {| status := 200;
     body := JsonBody (JObj [("token", JStr "abc");
                         ("user", JObj [("isAdmin", JBool true)])]) |}.

End Services.

(* ===================================================================== *)
(** ** Part 4: the product search hook and the orders dashboard          *)
(* ===================================================================== *)

Module ProductSearch.
Import Js.
#[local] Open Scope js_scope.

(** The effect of [useSearchStateStorage], run after a render in which
    [query], [filters] or [saveSearchState] changed. *)
Definition storage_effect (query : string) (filters : Json)
    (saveSearchState : bool) : M World unit :=
  if saveSearchState then
    run localStorage_setItem "lastSearchQuery" (Raw query) in
    localStorage_setItem "lastSearchFilters" (Stringified filters)
  else ret tt.

(** The cleanup the effect returns. *)
Definition storage_cleanup (saveSearchState : bool) : M World unit :=
  if saveSearchState then
    run localStorage_removeItem "lastSearchQuery" in
    localStorage_removeItem "lastSearchFilters"
  else ret tt.

(** The filters ProductSearch starts with. *)
Definition search_filters : Json :=
  JObj [("category", JStr ""); ("minPrice", JStr ""); ("maxPrice", JStr "");
        ("inStock", JBool false)].

End ProductSearch.

Module Orders.
Import Js.
#[local] Open Scope js_scope.

(** *** services/api.js *)

Section api.

(** [apiURL] is imported from [../config], outside the exercise file. *)
Variable apiURL : string.

Definition getToken : M World string := λ w, (Return (api_token w), w).
Definition setToken (token : string) : M World unit :=
  modify (set_api_token (λ _, token)).
Definition removeToken : M World unit := modify (set_api_token (λ _, "")).

Definition api_request (verb path : string) (body : Value) : M World Request :=
  let* token := getToken in
  ret {| url := apiURL +:+ path; method := verb;
         authorization := Some ("JWT " +:+ token); payload := body |}.

(** Each method returns a promise that resolves with the parsed body
    [res]; [post] rejects with [res] when the status is not 200. The
    [catch (e) { reject(e) }] passes a failure on as it is. *)
Definition get (path : string) : M World Value :=
  try_catch
    (let* req := api_request "GET" path VUndefined in
     let* response := fetch req in
     lift_completion (reply_json response))
    throw.

Definition put (path : string) (body : Value) : M World Value :=
  try_catch
    (let* req := api_request "PUT" path body in
     let* response := fetch req in
     lift_completion (reply_json response))
    throw.

Definition post (path : string) (body : Value) : M World Value :=
  try_catch
    (let* req := api_request "POST" path body in
     let* response := fetch req in
     let* res := lift_completion (reply_json response) in
     if bool_decide (status response ≠ 200) then throw res else ret res)
    throw.

(** *** services/mail.js *)

(** Order ids are primitives: numbers or strings. *)
Inductive OrderId := IdNum (z : Z) | IdStr (s : string).

#[global] Instance OrderId_eq_dec : EqDecision OrderId.
Proof. solve_decision. Defined.

Definition id_text (i : OrderId) : string :=
  match i with IdNum z => Number_toString z | IdStr s => s end.

(** [!response.ok] then [throw new Error(data.message || fallback)]. *)
Definition check_ok {S} (response data : Value) (fallback : string)
    : M S unit :=
  let* ok := lift_completion (get_prop response "ok") in
  if negb (truthy ok) then
    let* message := lift_completion (get_prop data "message") in
    let* error :=
      lift_completion (new_Error_of (js_or message (VJson (JStr fallback)))) in
    throw error
  else ret tt.

(** [`Error: ${err.message}`] *)
Definition error_text {S} (err : Value) : M S string :=
  let* message := lift_completion (get_prop err "message") in
  let* text := lift_completion (to_String message) in
  ret ("Error: " +:+ text).

Definition sendReminderEmail (orderId : OrderId) : M World unit :=
  try_catch
    (let* response :=
       post ("/orders/" +:+ id_text orderId +:+ "/send-reminder") VUndefined in
     let* data := lift_completion (call_json response) in
     run check_ok response data "Failed to send reminder" in
     alert "Reminder email sent successfully")
    (λ err, let* text := error_text err in alert text).

(** *** components/OrdersDashboard.jsx *)

Record Dashboard := {
  orders : Value;
  loading : bool;
  error : Value;
  filters : Json
}.

Definition initial_dashboard : Dashboard :=
  {| orders := VJson (JArr []); loading := true; error := VJson JNull;
     filters := JObj [("status", JStr "all"); ("sort", JStr "date")] |}.

Definition setOrders (v : Value) (d : Dashboard) : Dashboard :=
  {| orders := v; loading := loading d; error := error d;
     filters := filters d |}.
Definition setLoading (b : bool) (d : Dashboard) : Dashboard :=
  {| orders := orders d; loading := b; error := error d;
     filters := filters d |}.
Definition setError (v : Value) (d : Dashboard) : Dashboard :=
  {| orders := orders d; loading := loading d; error := v;
     filters := filters d |}.

(** The component's code runs on its own state and the browser. *)
Definition Page : Type := Dashboard * World.

Definition in_world {A} (m : M World A) : M Page A :=
  λ p, let '(c, w) := m p.2 in (c, (p.1, w)).
Definition set_state (f : Dashboard → Dashboard) : M Page unit :=
  modify (λ p, (f p.1, p.2)).
Definition read {A} (f : Dashboard → A) : M Page A :=
  λ p, (Return (f p.1), p).

Definition fetchOrders : M Page unit :=
  try_finally
    (try_catch
       (run set_state (setLoading true) in
        let* filters := read filters in
        let* response := in_world (post "/orders/search" (VJson filters)) in
        let* data := lift_completion (call_json response) in
        run check_ok response data "Failed to fetch orders" in
        set_state (setOrders data))
       (λ err,
          let* message := lift_completion (get_prop err "message") in
          set_state (setError message)))
    (λ p, (setLoading false p.1, p.2)).

(** [order.id === orderId] for a primitive [orderId]. *)
Definition id_is (order : Json) (orderId : OrderId) : Completion bool :=
  match get_prop (VJson order) "id" with
  | Throw v => Throw v
  | Return (VJson (JNum z)) => Return (bool_decide (orderId = IdNum z))
  | Return (VJson (JStr s)) => Return (bool_decide (orderId = IdStr s))
  | Return _ => Return false
  end.

(** [{ ...order, status: "shipped" }]: the own properties of [order] with
    [status] overwritten in place, or added last. *)
Fixpoint with_status (fields : list (string * Json)) (v : Json)
    : list (string * Json) :=
  match fields with
  | [] => [("status", v)]
  | (k, x) :: rest =>
      if decide (k = "status") then (k, v) :: rest
      else (k, x) :: with_status rest v
  end.

Definition ship (orderId : OrderId) (order : Json) : Completion Json :=
  match id_is order orderId with
  | Throw v => Throw v
  | Return true =>
      match order with
      | JObj fields => Return (JObj (with_status fields (JStr "shipped")))
      | _ => Return order
      end
  | Return false => Return order
  end.

Fixpoint map_orders (f : Json → Completion Json) (items : list Json)
    : Completion (list Json) :=
  match items with
  | [] => Return []
  | x :: rest =>
      match f x with
      | Throw v => Throw v
      | Return y =>
          match map_orders f rest with
          | Throw v => Throw v
          | Return ys => Return (y :: ys)
          end
      end
  end.

(** [orders.map(...)]: only an array has a [map] method. *)
Definition orders_map (orders : Value) (f : Json → Completion Json)
    : Completion Value :=
  match orders with
  | VJson (JArr items) =>
      match map_orders f items with
      | Throw v => Throw v
      | Return ys => Return (VJson (JArr ys))
      end
  | VUndefined => Throw (cannot_read "undefined" "map")
  | VJson JNull => Throw (cannot_read "null" "map")
  | _ => Throw (new_TypeError "orders.map is not a function")
  end.

Definition markAsShipped (orderId : OrderId) : M Page unit :=
  try_catch
    (let* response :=
       in_world (put ("/orders/" +:+ id_text orderId)
                     (VJson (JObj [("status", JStr "shipped")]))) in
     let* data := lift_completion (call_json response) in
     run check_ok response data "Failed to update order" in
     let* orders := read orders in
     let* shipped := lift_completion (orders_map orders (ship orderId)) in
     run set_state (setOrders shipped) in
     in_world (alert "Order marked as shipped"))
    (λ err, let* text := error_text err in in_world (alert text)).

(** *** How the wrapper settles, and what its callers catch *)

Definition api_req (verb path : string) (payload : Value) (w : World)
    : Request :=
  {| url := apiURL +:+ path; method := verb;
     authorization := Some ("JWT " +:+ api_token w); payload := payload |}.

(** How a call of the wrapper settles on the first outcome in store;
    [strict] is set for [post], which rejects a status other than 200. *)
Definition api_settles (strict : bool) (first : option FetchOutcome)
    : Completion Value :=
  match first with
  | None => Throw (new_TypeError "Failed to fetch")
  | Some (NetFail e) => Throw (VError e)
  | Some (Reply r) =>
      match body r with
      | NotJson parse_error => Throw (new_SyntaxError parse_error)
      | JsonBody j =>
          if strict && bool_decide (Js.status r ≠ 200) then Throw (VJson j)
          else Return (VJson j)
      end
  end.

(** The value that reaches the [catch] block of a caller that awaits the
    wrapper and then calls [.json()] on what it resolved with. *)
Definition caught (strict : bool) (first : option FetchOutcome) : Value :=
  match api_settles strict first with
  | Throw v => v
  | Return res =>
      match call_json res with
      | Throw v => v
      | Return _ => VUndefined
      end
  end.

Definition reminder_path (orderId : OrderId) : string :=
  "/orders/" +:+ id_text orderId +:+ "/send-reminder".

Definition order_path (orderId : OrderId) : string :=
  "/orders/" +:+ id_text orderId.

Definition shipped_payload : Value := VJson (JObj [("status", JStr "shipped")]).

End api.

(** *** utils/index.js *)

Record Order := {
  id : Z;
  customerName : string;
  customerEmail : string;
  date : string;
  status : string;
  total : Qc
}.

(** A JavaScript [Set] of strings: its elements in insertion order;
    [add] leaves the set alone when the value is already in it. *)
Definition Set_add (s : list string) (x : string) : list string :=
  if decide (x ∈ s) then s else s ++ [x].

Definition new_Set (values : list string) : list string :=
  fold_left Set_add values [].

(** [[...new Set(orders.map((order) => order.customerEmail))]] *)
Definition getCustomerEmails (orders : list Order) : list string :=
  new_Set (customerEmail <$> orders).

(** The "Unique Customers" figure of the summary. *)
Definition uniqueCustomers (orders : list Order) : nat :=
  List.length (getCustomerEmails orders).

End Orders.

(* ===================================================================== *)
(** ** Part 5: the task model and its router (data modeling exercise)    *)
(* ===================================================================== *)

Module Tasks.
Import Js.
#[local] Open Scope js_scope.

(** *** models/task.js: the schema declarations as data *)

Inductive FieldType :=
  | TString
  | TDate
  | TNested (subfields : list string)     (* an inline object of Strings *)
  | TArrayOf (element_schema : string).   (* an array of sub-documents *)

Inductive DefaultValue :=
  | DefaultString (s : string)
  | DefaultEmptyArray
  | DefaultDateNow.

(** One path of a schema with the options the declaration gives it; an
    option that is not written is absent ([required] is then false). *)
Record Field := {
  field_name : string;
  field_type : FieldType;
  enum : option (list string);
  default : option DefaultValue;
  required : bool
}.

Definition plain (name : string) (t : FieldType) : Field :=
  {| field_name := name; field_type := t; enum := None; default := None;
     required := false |}.

Record Schema := { fields : list Field; timestamps : bool }.

Definition commentSchema : Schema :=
  {| fields :=
       [ plain "text" TString;
         {| field_name := "createdAt"; field_type := TDate; enum := None;
            default := Some DefaultDateNow; required := false |};
         plain "user_id" TString;
         plain "user_name" TString;
         plain "user_avatar" TString ];
     timestamps := false |}.

Definition person : FieldType :=
  TNested ["user_id"; "name"; "email"; "avatar"].

Definition taskSchema : Schema :=
  {| fields :=
       [ plain "title" TString;
         plain "description" TString;
         {| field_name := "status"; field_type := TString;
            enum := Some ["todo"; "in_progress"; "review"; "done"];
            default := Some (DefaultString "todo"); required := false |};
         plain "createdBy" person;
         plain "assignedTo" person;
         {| field_name := "comments"; field_type := TArrayOf "commentSchema";
            enum := None; default := Some DefaultEmptyArray;
            required := false |};
         {| field_name := "priority"; field_type := TString;
            enum := Some ["low"; "medium"; "high"];
            default := Some (DefaultString "medium"); required := false |};
         plain "dueDate" TDate ];
     timestamps := true |}.

(** *** The Mongoose models

    [Task] and [User] query a database the exercise does not contain, and
    what Mongoose makes of a schema (casting, validation, generated paths)
    is not in the exercise either: the models are an interface. Each query
    either rejects or resolves; [findById] and its variants resolve with a
    document or with null. *)

(** A property of the object literal given to [new Task]: a value, or an
    inline object of values. A value may be [undefined]. *)
Inductive Init :=
  | Leaf (v : Value)
  | Sub (props : list (string * Value)).

Class Models (Db : Type) := {
  Task_findById : string → M Db (option Json);
  Task_find : Value → M Db (list Json);
  Task_findByIdAndUpdate : string → list (string * Value) → M Db (option Json);
  Task_findByIdAndDelete : string → M Db (option Json);
  (** [new Task(literal)] followed by [task.save()]; resolves with the
      document. *)
  Task_save : list (string * Init) → M Db Json;
  User_findById : Value → M Db (option Json)
}.

(** *** controllers/taskController.js *)

Record Req := { params_id : string; req_body : Value }.

Record Res := { code : nat; json : Json }.

Definition ok_true (data : Json) : Json :=
  JObj [("ok", JBool true); ("data", data)].

Definition ok_false (error : string) : Json :=
  JObj [("ok", JBool false); ("error", JStr error)].

(** A document, or [null]. *)
Definition or_null (doc : option Json) : Json := from_option id JNull doc.

(** [res.status(code).json(body)] *)
Definition send {Db} (code : nat) (body : Json) : M Db Res :=
  ret {| code := code; json := body |}.

(** The object literal POST / gives to [new Task]. *)
Definition task_literal (title description status priority dueDate : Value)
    (_id name email avatar : Value) : list (string * Init) :=
  [ ("title", Leaf title); ("description", Leaf description);
    ("status", Leaf status); ("priority", Leaf priority);
    ("dueDate", Leaf dueDate);
    ("createdBy", Sub [ ("user_id", _id); ("name", name); ("email", email);
                        ("avatar", avatar) ]) ].

Section router.
Context {Db : Type} `{Models Db}.

(** [const { a, b, ... } = req.body]: throws on a missing body. *)
Definition body_prop (req : Req) (name : string) : M Db Value :=
  lift_completion (get_prop (req_body req) name).

Definition get_by_id (req : Req) : M Db Res :=
  try_catch
    (let* task := Task_findById (params_id req) in
     send 200 (ok_true (or_null task)))
    (λ _, send 500 (ok_false "Failed to get task")).

Definition create (req : Req) : M Db Res :=
  try_catch
    (let* title := body_prop req "title" in
     let* description := body_prop req "description" in
     let* status := body_prop req "status" in
     let* user_id := body_prop req "user_id" in
     let* priority := body_prop req "priority" in
     let* dueDate := body_prop req "dueDate" in
     let* found := User_findById user_id in
     let user := VJson (or_null found) in
     if negb (truthy user) then send 404 (ok_false "User not found")
     else
       let* _id := lift_completion (get_prop user "_id") in
       let* name := lift_completion (get_prop user "name") in
       let* email := lift_completion (get_prop user "email") in
       let* avatar := lift_completion (get_prop user "avatar") in
       let* task :=
         Task_save (task_literal title description status priority dueDate
                                 _id name email avatar) in
       send 201 (ok_true task))
    (λ _, send 500 (ok_false "Failed to create task")).

Definition search (req : Req) : M Db Res :=
  try_catch
    (let* tasks := Task_find (req_body req) in
     send 200 (ok_true (JArr tasks)))
    (λ _, send 500 (ok_false "Failed to search tasks")).

Definition update (req : Req) : M Db Res :=
  try_catch
    (let* title := body_prop req "title" in
     let* description := body_prop req "description" in
     let* status := body_prop req "status" in
     let* priority := body_prop req "priority" in
     let* dueDate := body_prop req "dueDate" in
     let* task :=
       Task_findByIdAndUpdate (params_id req)
         [ ("title", title); ("description", description);
           ("status", status); ("priority", priority);
           ("dueDate", dueDate) ] in
     match task with
     | None => send 404 (ok_false "Task not found")
     | Some task => send 200 (ok_true task)
     end)
    (λ _, send 500 (ok_false "Failed to update task")).

Definition delete_by_id (req : Req) : M Db Res :=
  try_catch
    (let* task := Task_findByIdAndDelete (params_id req) in
     match task with
     | None => send 404 (ok_false "Task not found")
     | Some task => send 200 (ok_true task)
     end)
    (λ _, send 500 (ok_false "Failed to delete task")).

(** The routes the router registers. *)
Inductive Route :=
  | GET_id          (* router.get("/:id") *)
  | POST_root       (* router.post("/") *)
  | POST_search     (* router.post("/search") *)
  | PUT_id          (* router.put("/:id") *)
  | DELETE_id.      (* router.delete("/:id") *)

Definition router (route : Route) : Req → M Db Res :=
  match route with
  | GET_id => get_by_id
  | POST_root => create
  | POST_search => search
  | PUT_id => update
  | DELETE_id => delete_by_id
  end.

End router.

(** *** The notions the statements about the router use *)

(** The value a destructured property of [req.body] takes. *)
Definition body_value (req : Req) (name : string) : Value :=
  match get_prop (req_body req) name with
  | Return v => v
  | Throw _ => VUndefined
  end.

Definition user_value (user : Json) (name : string) : Value :=
  match get_prop (VJson user) name with
  | Return v => v
  | Throw _ => VUndefined
  end.

(** The literal POST / gives to [new Task] for the user it found. *)
Definition new_task (req : Req) (user : Json) : list (string * Init) :=
  task_literal (body_value req "title") (body_value req "description")
               (body_value req "status") (body_value req "priority")
               (body_value req "dueDate")
               (user_value user "_id") (user_value user "name")
               (user_value user "email") (user_value user "avatar").

Definition update_props (title description status priority dueDate : Value)
    : list (string * Value) :=
  [ ("title", title); ("description", description); ("status", status);
    ("priority", priority); ("dueDate", dueDate) ].

(** The changes PUT /:id hands to [findByIdAndUpdate]. *)
Definition requested_update (req : Req) : list (string * Value) :=
  update_props (body_value req "title") (body_value req "description")
               (body_value req "status") (body_value req "priority")
               (body_value req "dueDate").

Definition has_body (req : Req) : Prop :=
  req_body req ≠ VUndefined ∧ req_body req ≠ VJson JNull.

Definition body_missing (req : Req) : bool :=
  match req_body req with
  | VUndefined | VJson JNull => true
  | _ => false
  end.

(** The paths through a handler. A request fails when its body cannot be
    destructured or an awaited query rejects (the [catch] block); it finds
    nothing when the lookup resolves with nothing (the [if (!...)] branch);
    it succeeds otherwise, with the data the handler got. *)
Inductive Path :=
  | Success (data : Json)
  | NotFound
  | Failure.

Definition found_or_missing (doc : option Json) : Path :=
  match doc with
  | Some d => Success d
  | None => NotFound
  end.

Section paths.
Context {Db : Type} `{Models Db}.

(** The path after awaiting [query]: a failure when it rejects. *)
Definition awaited {A} (query : M Db A) (db : Db) (next : A → Db → Path)
    : Path :=
  match query db with
  | (Return a, db') => next a db'
  | (Throw _, _) => Failure
  end.

(** The path a request takes, by what the queries do. *)
Definition path (route : Route) (req : Req) (db : Db) : Path :=
  match route with
  | GET_id =>
      awaited (Task_findById (params_id req)) db
        (λ task _, Success (or_null task))
  | POST_root =>
      if body_missing req then Failure
      else
        awaited (User_findById (body_value req "user_id")) db (λ found db1,
          if truthy (VJson (or_null found))
          then awaited (Task_save (new_task req (or_null found))) db1
                 (λ task _, Success task)
          else NotFound)
  | POST_search =>
      awaited (Task_find (req_body req)) db (λ tasks _, Success (JArr tasks))
  | PUT_id =>
      if body_missing req then Failure
      else
        awaited (Task_findByIdAndUpdate (params_id req) (requested_update req))
          db (λ task _, found_or_missing task)
  | DELETE_id =>
      awaited (Task_findByIdAndDelete (params_id req)) db
        (λ task _, found_or_missing task)
  end.

(** The id matches no task: no query by this id resolves with a task. *)
Definition matches_no_task (id : string) (db : Db) : Prop :=
  (∀ task db', Task_findById id db ≠ (Return (Some task), db')) ∧
  (∀ changes task db',
     Task_findByIdAndUpdate id changes db ≠ (Return (Some task), db')) ∧
  (∀ task db', Task_findByIdAndDelete id db ≠ (Return (Some task), db')).

(** Every query of the models rejects in the state [db]. *)
Definition queries_reject (db : Db) : Prop :=
  (∀ id, ∃ e db', Task_findById id db = (Throw e, db')) ∧
  (∀ q, ∃ e db', Task_find q db = (Throw e, db')) ∧
  (∀ id u, ∃ e db', Task_findByIdAndUpdate id u db = (Throw e, db')) ∧
  (∀ id, ∃ e db', Task_findByIdAndDelete id db = (Throw e, db')) ∧
  (∀ id, ∃ e db', User_findById id db = (Throw e, db')).

End paths.

(** The envelope of a success and of a failure. *)
Definition is_success (res : Res) (data : Json) : Prop :=
  json res = JObj [("ok", JBool true); ("data", data)].

Definition is_failure (res : Res) : Prop :=
  ∃ msg, json res = JObj [("ok", JBool false); ("error", JStr msg)].

(** The answers "not found" and "failed" of PUT /:id and DELETE /:id. *)
Definition task_not_found : Res :=
  {| code := 404;
     json := JObj [("ok", JBool false); ("error", JStr "Task not found")] |}.

Definition null_task : Res :=
  {| code := 200; json := JObj [("ok", JBool true); ("data", JNull)] |}.

Definition failed (text : string) : Res :=
  {| code := 500; json := ok_false text |}.

(** What the claim of a read/write inconsistency says of a request. *)
Definition read_vs_write {Db} `{Models Db} (req : Req) (db : Db) : Prop :=
  (get_by_id req db).1 = Return null_task ∧
  (update req db).1 = Return task_not_found ∧
  (delete_by_id req db).1 = Return task_not_found.

(** *** Answers given as data, to run the handlers on examples

    What each query settles with, as a function of its arguments; a query
    leaves the answers as they are. *)
Record Answers := {
  findById_answer : string → Completion (option Json);
  find_answer : Value → Completion (list Json);
  findByIdAndUpdate_answer :
    string → list (string * Value) → Completion (option Json);
  findByIdAndDelete_answer : string → Completion (option Json);
  save_answer : list (string * Init) → Completion Json;
  user_answer : Value → Completion (option Json)
}.

#[global] Instance Answers_models : Models Answers := {
  Task_findById id := λ a, (findById_answer a id, a);
  Task_find query := λ a, (find_answer a query, a);
  Task_findByIdAndUpdate id changes :=
    λ a, (findByIdAndUpdate_answer a id changes, a);
  Task_findByIdAndDelete id := λ a, (findByIdAndDelete_answer a id, a);
  Task_save literal := λ a, (save_answer a literal, a);
  User_findById id := λ a, (user_answer a id, a)
}.

(** Every query settles the same way, whatever it asks. *)
Definition answering (task : Completion (option Json))
    (user : Completion (option Json)) (saved : Completion Json) : Answers :=
  {| findById_answer _ := task;
     find_answer _ :=
       match task with
       | Return found => Return (from_option (λ t, [t]) [] found)
       | Throw e => Throw e
       end;
     findByIdAndUpdate_answer _ _ := task;
     findByIdAndDelete_answer _ := task;
     save_answer _ := saved;
     user_answer _ := user |}.

(** The database cannot be reached: every query rejects. *)
Definition unreachable : Answers :=
  answering (Throw (new_Error "connection refused"))
            (Throw (new_Error "connection refused"))
            (Throw (new_Error "connection refused")).

(** The ids asked for are well formed and nothing has them: the queries
    by id resolve with null, a search finds nothing. *)
Definition nothing_found : Answers :=
  answering (Return None) (Return None) (Return (JObj [])).

(** The id asked for does not cast to an ObjectId (it is not 24
    hexadecimal digits): Mongoose rejects the queries by id. *)
Definition cast_failure : Answers :=
  answering (Throw (new_Error "Cast to ObjectId failed"))
            (Throw (new_Error "Cast to ObjectId failed"))
            (Throw (new_Error "Cast to ObjectId failed")).

Definition a_task : Json :=
  JObj [("_id", JStr "64b7f0c2a1d3e4f5a6b7c8d9"); ("title", JStr "Write report");
        ("status", JStr "todo")].

Definition a_user : Json :=
  JObj [("_id", JStr "64b7f0c2a1d3e4f5a6b7c8e0"); ("name", JStr "Ada")].

(** The task and the user asked for are there, and a save goes through. *)
Definition found_both : Answers :=
  answering (Return (Some a_task)) (Return (Some a_user)) (Return a_task).

(** Requests used in the examples. *)
Definition req_for (id : string) : Req :=
  {| params_id := id; req_body := VJson (JObj [("title", JStr "x")]) |}.

Definition req_without_body : Req :=
  {| params_id := "64b7f0c2a1d3e4f5a6b7c8d9"; req_body := VUndefined |}.

Definition req_from (user_id : string) : Req :=
  {| params_id := "";
     req_body := VJson (JObj [("title", JStr "Plan"); ("user_id", JStr user_id);
                              ("assignedTo", JObj [("name", JStr "Bob")])]) |}.

Definition status_values : list string :=
  ["todo"; "in_progress"; "review"; "done"].
Definition priority_values : list string := ["low"; "medium"; "high"].

End Tasks.

(* ===================================================================== *)
(** ** Part 6: the rest of the exercise code                             *)
(* ===================================================================== *)

(** Component code runs on the component's own state and the browser. *)
Module Ui.
Import Js.

Definition in_world {C A} (m : M World A) : M (C * World) A :=
  λ p, let '(c, w) := m p.2 in (c, (p.1, w)).

Definition set_state {C} (f : C → C) : M (C * World) unit :=
  modify (λ p, (f p.1, p.2)).

(** [fetch(url)] with no options: a GET without credentials. *)
Definition get_request (address : string) : Request :=
  {| url := address; method := "GET"; authorization := None;
     payload := VUndefined |}.

(** What [await fetch(...)] followed by [await response.json()] throws on
    an outcome that yields no JSON: the rejection of the fetch, or the
    parse error. *)
Definition no_json_error (o : option FetchOutcome) : Value :=
  match o with
  | None => new_TypeError "Failed to fetch"
  | Some (NetFail e) => VError e
  | Some (Reply r) =>
      match body r with
      | NotJson parse_error => new_SyntaxError parse_error
      | JsonBody _ => VUndefined
      end
  end.

End Ui.

(** *** UserStatistics: the data-fetching effect (lines 21-45) *)

Module UserData.
Import Js Ui.
#[local] Open Scope js_scope.

Record Component := {
  user : Value;
  transactions : Value;
  isLoading : bool
}.

Definition initial : Component :=
  {| user := VJson JNull; transactions := VJson (JArr []); isLoading := true |}.

Definition setUser (v : Value) (c : Component) : Component :=
  {| user := v; transactions := transactions c; isLoading := isLoading c |}.
Definition setTransactions (v : Value) (c : Component) : Component :=
  {| user := user c; transactions := v; isLoading := isLoading c |}.
Definition setIsLoading (b : bool) (c : Component) : Component :=
  {| user := user c; transactions := transactions c; isLoading := b |}.

Definition user_request (userId : string) : Request :=
  get_request ("/api/users/" +:+ userId).
Definition transactions_request (userId : string) : Request :=
  get_request ("/api/transactions?userId=" +:+ userId).

(** [userData.ok && transactionData.ok]: the right operand is read only
    when the left one is truthy. *)
Definition both_ok {S} (userData transactionData : Value) : M S bool :=
  let* user_ok := lift_completion (get_prop userData "ok") in
  if truthy user_ok then
    let* transactions_ok := lift_completion (get_prop transactionData "ok") in
    ret (truthy transactions_ok)
  else ret false.

Definition fetchUserData (userId : string) : M (Component * World) unit :=
  try_finally
    (try_catch
       (run set_state (setIsLoading true) in
        let* userResponse := in_world (fetch (user_request userId)) in
        let* userData := lift_completion (reply_json userResponse) in
        let* transactionResponse :=
          in_world (fetch (transactions_request userId)) in
        let* transactionData :=
          lift_completion (reply_json transactionResponse) in
        let* ok := both_ok userData transactionData in
        if ok then
          let* user_data := lift_completion (get_prop userData "data") in
          run set_state (setUser user_data) in
          let* transaction_data :=
            lift_completion (get_prop transactionData "data") in
          set_state (setTransactions transaction_data)
        else ret tt)
       (λ error,
          in_world (console_error "Failed to fetch user data" error)))
    (λ p, (setIsLoading false p.1, p.2)).

(** The JSON body of an outcome, when it has one. *)
Definition json_body (o : option FetchOutcome) : option Json :=
  match o with
  | Some (Reply r) =>
      match body r with JsonBody j => Some j | NotJson _ => None end
  | _ => None
  end.

(** The [ok] flag of an envelope is truthy. *)
Definition flagged_ok (j : Json) : bool :=
  match get_prop (VJson j) "ok" with
  | Return v => truthy v
  | Throw _ => false
  end.

Definition data_of (j : Json) : Value :=
  match get_prop (VJson j) "data" with
  | Return v => v
  | Throw _ => VUndefined
  end.

(** What the effect loads from the next two outcomes: the two [data]
    fields, when both bodies are JSON and both say [ok]. *)
Definition loaded (outcomes : list FetchOutcome) : option (Value * Value) :=
  match json_body (head outcomes), json_body (head (tail outcomes)) with
  | Some j1, Some j2 =>
      if flagged_ok j1 && flagged_ok j2 then Some (data_of j1, data_of j2)
      else None
  | _, _ => None
  end.

(** The world after the fetches of the effect: the second request is
    issued only when the first reply was read as JSON. *)
Definition fetched (userId : string) (w : World) : World :=
  match json_body (head (net w)) with
  | Some _ => after_fetch (transactions_request userId)
                          (after_fetch (user_request userId) w)
  | None => after_fetch (user_request userId) w
  end.

Definition log_failure (e : Value) (w : World) : World :=
  set_console (λ l, l ++ [("Failed to fetch user data", e)]) w.

(** What the [catch] block receives, if anything is thrown. *)
Definition caught_error (outcomes : list FetchOutcome) : option Value :=
  match json_body (head outcomes) with
  | None => Some (no_json_error (head outcomes))
  | Some j1 =>
      match json_body (head (tail outcomes)) with
      | None => Some (no_json_error (head (tail outcomes)))
      | Some j2 =>
          match get_prop (VJson j1) "ok" with
          | Throw t => Some t
          | Return flag =>
              if truthy flag then
                match get_prop (VJson j2) "ok" with
                | Throw t => Some t
                | Return _ => None
                end
              else None
          end
      end
  end.

End UserData.

(** *** The product search exercise (data-model.js, lines 171-508) *)

Module ProductSearchUI.
Import Js Ui.
#[local] Open Scope js_scope.

(** **** Plain objects with values of any kind *)

Section objects.
Context {A : Type}.

(** Own properties in creation order. *)
Fixpoint assoc_lookup (o : list (string * A)) (k : string) : option A :=
  match o with
  | [] => None
  | (k', v) :: o' => if decide (k' = k) then Some v else assoc_lookup o' k
  end.

(** [o[k] = v]: an existing property keeps its place, a new one is
    created last. *)
Fixpoint assoc_set (o : list (string * A)) (k : string) (v : A)
    : list (string * A) :=
  match o with
  | [] => [(k, v)]
  | (k', x) :: o' =>
      if decide (k' = k) then (k', v) :: o' else (k', x) :: assoc_set o' k v
  end.

Definition entry_le (a b : N * (string * A)) : Prop := (a.1 ≤ b.1)%N.

#[global] Instance entry_le_dec a b : Decision (entry_le a b).
Proof. unfold entry_le. apply _. Defined.

Definition indexed_entries (o : list (string * A))
    : list (N * (string * A)) :=
  omap (λ kv, (λ n, (n, kv)) <$> UserStatistics.array_index kv.1) o.

Definition named_entries (o : list (string * A)) : list (string * A) :=
  filter (λ kv, UserStatistics.array_index kv.1 = None) o.

(** [Object.entries(o)]: array-index keys first, in ascending numeric
    order, then the other keys in creation order. *)
Definition Object_entries (o : list (string * A)) : list (string * A) :=
  (merge_sort entry_le (indexed_entries o)).*2 ++ named_entries o.

End objects.

(** **** useProductSearch *)

Record Search := {
  products : Value;
  loading : bool;
  error : Value
}.

Definition initial_search : Search :=
  {| products := VJson (JArr []); loading := false; error := VJson JNull |}.

Definition setProducts (v : Value) (s : Search) : Search :=
  {| products := v; loading := loading s; error := error s |}.
Definition setLoading (b : bool) (s : Search) : Search :=
  {| products := products s; loading := b; error := error s |}.
Definition setError (v : Value) (s : Search) : Search :=
  {| products := products s; loading := loading s; error := v |}.

(** [value !== "" && value !== false] *)
Definition filter_is_set (value : Json) : bool :=
  match value with
  | JStr s => bool_decide (s ≠ "")
  | JBool b => b
  | _ => true
  end.

(** What [params] holds after the appends, each value as a string. *)
Definition search_params (query : string) (filters : list (string * Json))
    (page : Z) (sortBy : string) : list (string * string) :=
  [("q", query); ("page", pretty page); ("sort", sortBy)]
  ++ omap (λ kv, if filter_is_set kv.2
                 then Some (kv.1, json_to_string kv.2) else None)
          (Object_entries filters).

Definition search_failure_text : string :=
  "Failed to fetch products. Please try again.".

Section fetchProducts.

(** [params.toString()] is the URLSearchParams serializer and
    [response.statusText] the reason phrase of the reply; both are taken as
    given. *)
Variable params_toString : list (string * string) → string.
Variable statusText : HttpReply → string.

Definition search_request (query : string) (filters : list (string * Json))
    (page : Z) (sortBy : string) : Request :=
  get_request ("/api/products/search?"
               +:+ params_toString (search_params query filters page sortBy)).

Definition responded_with (response : HttpReply) : string :=
  "Server responded with " +:+ pretty (status response) +:+ ": "
  +:+ statusText response.

Definition fetchProducts (query : string) (filters : list (string * Json))
    (page : Z) (sortBy : string) : M (Search * World) unit :=
  if bool_decide (query = "") then ret tt
  else
    run set_state (setLoading true) in
    run set_state (setError (VJson JNull)) in
    try_finally
      (try_catch
         (let* response :=
            in_world (fetch (search_request query filters page sortBy)) in
          if negb (ok response) then
            throw (new_Error (responded_with response))
          else
            let* data := lift_completion (reply_json response) in
            let* found := lift_completion (get_prop data "products") in
            set_state (setProducts (js_or found (VJson (JArr [])))))
         (λ err,
            run in_world (console_error "Search error:" err) in
            let* message := lift_completion (get_prop err "message") in
            set_state
              (setError (js_or message (VJson (JStr search_failure_text))))))
      (λ p, (setLoading false p.1, p.2)).

(** What the [catch] block receives, by the first outcome in store; [None]
    when the try block completes. *)
Definition search_error (first : option FetchOutcome) : option JsError :=
  match first with
  | None => Some {| kind := TypeError; message := "Failed to fetch" |}
  | Some (NetFail e) => Some e
  | Some (Reply r) =>
      if ok r then
        match body r with
        | NotJson parse_error =>
            Some {| kind := SyntaxError; message := parse_error |}
        | JsonBody JNull =>
            Some {| kind := TypeError;
                    message := "Cannot read properties of null (reading 'products')" |}
        | JsonBody _ => None
        end
      else Some {| kind := PlainError; message := responded_with r |}
  end.

(** The products a reply delivers: [data.products || []]. *)
Definition delivered (first : option FetchOutcome) : Value :=
  match first with
  | Some (Reply r) =>
      match body r with
      | JsonBody j =>
          match get_prop (VJson j) "products" with
          | Return found => js_or found (VJson (JArr []))
          | Throw _ => VUndefined
          end
      | NotJson _ => VUndefined
      end
  | _ => VUndefined
  end.

(** The error text shown for what was caught: [err.message || ...]. *)
Definition shown_error (e : JsError) : Value :=
  js_or (VJson (JStr (message e))) (VJson (JStr search_failure_text)).

Definition log_search_error (e : JsError) (w : World) : World :=
  set_console (λ l, l ++ [("Search error:", VError e)]) w.

End fetchProducts.

(** Stand-ins for the two givens, used to run a search on an example. *)
Definition plain_params (params : list (string * string)) : string :=
  String.concat "&" ((λ kv, kv.1 +:+ "=" +:+ kv.2) <$> params).

Definition no_statusText (r : HttpReply) : string := "".

(** **** ProductList: grouping by category *)

Record Product := {
  id : Z;
  name : string;
  price : Qc;
  image : string;
  category : string;
  rating : Qc
}.

Definition push_error : Value :=
  new_TypeError "acc[product.category].push is not a function".

(** One step of the [reduce]. [acc] starts as [{}], so a category that is
    not an own property but a name [Object.prototype] answers to reads as
    a function or an object: truthy, and without a [push] method. *)
Definition group_step (acc : Completion (list (string * list Product)))
    (product : Product) : Completion (list (string * list Product)) :=
  match acc with
  | Throw v => Throw v
  | Return acc =>
      match assoc_lookup acc (category product) with
      | Some group =>
          Return (assoc_set acc (category product) (group ++ [product]))
      | None =>
          if decide (category product ∈ UserStatistics.inherited_names)
          then Throw push_error
          else Return (acc ++ [(category product, [product])])
      end
  end.

Definition categorizedProducts (products : list Product)
    : Completion (list (string * list Product)) :=
  fold_left group_step products (Return []).

(** The sections ProductList renders: a heading and its products. *)
Definition ProductList (products : list Product)
    : Completion (list (string * list Product)) :=
  match categorizedProducts products with
  | Return acc => Return (Object_entries acc)
  | Throw v => Throw v
  end.

Definition in_category (c : string) (products : list Product)
    : list Product :=
  filter (λ p, category p = c) products.

(** [acc] holds the products [seen] so far, grouped by category. *)
Definition grouped (acc : list (string * list Product))
    (seen : list Product) : Prop :=
  NoDup acc.*1 ∧
  ∀ c, assoc_lookup acc c
       = match in_category c seen with
         | [] => None
         | group => Some group
         end.

(** A product used in examples. *)
Definition shirt (c : string) : Product :=
  {| id := 1; name := "Shirt"; price := 1%Qc; image := "shirt.png";
     category := c; rating := 1%Qc |}.

(** **** Pagination, filters and what is on screen *)

Inductive Click := Previous | Next.

(** [setPage((p) => Math.max(1, p - 1))] and [setPage((p) => p + 1)]; the
    page is a double that holds an integer. *)
Definition click (page : Z) (c : Click) : Z :=
  match c with
  | Previous => Z.max 1 (rounded (page - 1))
  | Next => rounded (page + 1)
  end.

(** The change event of a filter control. *)
Record Change := {
  target_name : string;
  target_value : string;
  target_type : string;
  target_checked : bool
}.

(** [handleFilterChange]: the new filters and the new page. *)
Definition handleFilterChange (e : Change) (filters : list (string * Json))
    (page : Z) : list (string * Json) * Z :=
  (assoc_set filters (target_name e)
     (if bool_decide (target_type e = "checkbox")
      then JBool (target_checked e) else JStr (target_value e)),
   1%Z).

Inductive Screen := Spinner | ErrorMessage | NoProducts | Products.

(** [v.length]: an array and a string have their length, an object has
    the [length] it was given, if any; reading it from null or undefined
    throws. *)
Definition length_of (v : Value) : Completion Value :=
  match v with
  | VJson (JArr items) => Return (VJson (JNum (Z.of_nat (List.length items))))
  | VJson (JStr s) => Return (VJson (JNum (Z.of_nat (String.length s))))
  | VJson (JObj fields) =>
      Return (from_option VJson VUndefined (field_lookup fields "length"))
  | VUndefined => Throw (cannot_read "undefined" "length")
  | VJson JNull => Throw (cannot_read "null" "length")
  | _ => Return VUndefined
  end.

(** [v === 0] *)
Definition is_zero (v : Value) : bool :=
  match v with
  | VJson (JNum z) => bool_decide (z = 0%Z)
  | _ => false
  end.

Section render.

(** Whether the number a string converts to (StringToNumber) is greater
    than 0: the platform's conversion. *)
Variable string_exceeds_zero : string → bool.

(** [v > 0]: [v] is converted to a number; an object or an array first to
    a string, which can throw. *)
Definition exceeds_zero (v : Value) : Completion bool :=
  match v with
  | VUndefined => Return false
  | VJson JNull => Return false
  | VJson (JBool b) => Return b
  | VJson (JNum z) => Return (bool_decide (0 < z)%Z)
  | VJson (JStr s) => Return (string_exceeds_zero s)
  | VJson j =>
      match ToString j with
      | Return text => Return (string_exceeds_zero text)
      | Throw t => Throw t
      end
  | _ => Return (string_exceeds_zero (to_string v))
  end.

(** The branch of the conditional in ProductSearch's JSX. *)
Definition screen (s : Search) : Completion Screen :=
  if loading s then Return Spinner
  else if truthy (error s) then Return ErrorMessage
  else match length_of (products s) with
       | Return n => Return (if is_zero n then NoProducts else Products)
       | Throw t => Throw t
       end.

(** [!loading && !error && products.length > 0] *)
Definition pagination_shown (s : Search) : Completion bool :=
  if loading s then Return false
  else if truthy (error s) then Return false
  else match length_of (products s) with
       | Return n => exceeds_zero n
       | Throw t => Throw t
       end.

End render.

End ProductSearchUI.

(** *** service.js: userService (lines 123-154) *)

Module UserService.
Import Js Services ProductSearchUI.
#[local] Open Scope js_scope.

Definition getUserProfile : M World ServiceResult :=
  try_catch
    (let* data := apiClient.get "/user/profile" in
     ret (Succeeded [("profile", data)]))
    report_failure.

(** What [register] and [getUserProfile] return for the first outcome in
    store: the body under [key], or the message of the error. *)
Definition reported (key : string) (first : option FetchOutcome)
    : ServiceResult :=
  match settles first with
  | Return data => Succeeded [(key, data)]
  | Throw (VError e) => Failed (VJson (JStr (message e)))
  | Throw _ => Failed VUndefined
  end.

(** [localStorage.getItem(key)]: the stored string, or null. *)
Definition localStorage_getItem (key : string) : M World (option Stored) :=
  λ w, (Return (localStorage w !! key), w).

(** The properties a spread copies from a value: the own properties of an
    object, the elements of an array under their indices, the characters of
    a string under theirs (a string being its code units); nothing from any
    other value. *)
Definition spread_entries (v : Value) : list (string * Json) :=
  match v with
  | VJson (JObj fields) => fields
  | VJson (JArr items) => imap (λ i x, (pretty i, x)) items
  | VJson (JStr s) =>
      imap (λ i c, (pretty i, JStr (String c EmptyString)))
           (String.list_ascii_of_string s)
  | _ => []
  end.

(** [{ ...a, ...b }]: the properties of [a], then those of [b], a later
    value replacing an earlier one; the object lists them as every object
    does, array-index keys first. *)
Definition object_spread (a b : Value) : Json :=
  JObj (Object_entries
          (fold_left (λ o kv, assoc_set o kv.1 kv.2)
                     (spread_entries a ++ spread_entries b) [])).

Section updateUserProfile.

(** [JSON.parse] on text that was not written by [JSON.stringify] in this
    model is the platform's parser. *)
Variable JSON_parse : string → Completion Json.

(** [JSON.parse(localStorage.getItem(key))]: null parses to null. *)
Definition parse_stored (item : option Stored) : Completion Json :=
  match item with
  | None => Return JNull
  | Some (Stringified j) => Return j
  | Some (Raw text) => JSON_parse text
  end.

Definition updateUserProfile (profileData : Value) : M World ServiceResult :=
  try_catch
    (let* data := apiClient.put "/user/profile" profileData in
     let* item := localStorage_getItem "user" in
     let* currentUser := lift_completion (parse_stored item) in
     run (if truthy (VJson currentUser)
          then localStorage_setItem "user"
                 (Stringified (object_spread (VJson currentUser) profileData))
          else ret tt) in
     ret (Succeeded [("user", data)]))
    report_failure.

(** What [updateUserProfile] leaves in localStorage: the stored user with
    the profile data laid over it, when the request went through and there
    is a stored user; what was there, otherwise. *)
Definition updated_storage (profileData : Value) (w : World)
    : gmap string Stored :=
  match settles (head (net w)), parse_stored (localStorage w !! "user") with
  | Return _, Return currentUser =>
      if truthy (VJson currentUser)
      then <["user" := Stringified (object_spread (VJson currentUser)
                                                  profileData)]>
             (localStorage w)
      else localStorage w
  | _, _ => localStorage w
  end.

End updateUserProfile.

(** A parser that takes no text, for examples. *)
Definition rejects_all (text : string) : Completion Json :=
  Throw (new_SyntaxError "Unexpected token").

(** The world in which a user is stored and a profile update goes through. *)
Definition stored_user : World :=
  set_localStorage
    (λ m, <["user" := Stringified (JObj [("name", JStr "Ada");
                                         ("isAdmin", JBool true)])]> m)
    (world_with [Reply {| status := 200; body := JsonBody (JObj []) |}]).

End UserService.

(** *** UserStatistics: notions for further statements *)

Module UserStatisticsMore.

(** The distinct values of a list, in the order of their first
    appearance. *)
Definition note_first (seen : list string) (c : string) : list string :=
  if decide (c ∈ seen) then seen else seen ++ [c].

Definition first_seen (cs : list string) : list string :=
  fold_left note_first cs [].

End UserStatisticsMore.

(* ===================================================================== *)
(** * Properties                                                          *)
(* ===================================================================== *)

(** ** UserStatistics: mean, top category and tier *)

Module UserStatisticsFacts.
Import UserStatistics.

(** *** The running sum *)

Lemma fold_sum_step ts (a : Qc) :
  fold_left sum_step ts a = (a + total ts)%Qc.
Proof.
  revert a. induction ts as [|t ts IH]; intros a; simpl.
  - by rewrite Qcplus_0_r.
  - rewrite IH. unfold sum_step. by rewrite Qcplus_assoc.
Qed.

Lemma length_Qc_nonzero {A} (l : list A) :
  l ≠ [] → Qc_of_Z (Z.of_nat (List.length l)) ≠ 0%Qc.
Proof.
  intros Hl. rewrite <- Z2Qc_inj_0. intros H%Z2Qc_inj.
  destruct l; [done | simpl in H; lia].
Qed.

(** The average shown is the arithmetic mean of the amounts, for every
    list; the empty list shows 0. *)
Lemma averageSpend_is_mean user ts :
  averageSpend (stats user ts)
  = match ts with
    | [] => 0%Qc
    | _ => (total ts / Qc_of_Z (Z.of_nat (List.length ts)))%Qc
    end.
Proof.
  destruct ts as [|t ts]; [done|].
  cbn [stats averageSpend]. by rewrite fold_sum_step, Qcplus_0_l.
Qed.

Lemma averageSpend_times_length user ts :
  ts ≠ [] →
  (averageSpend (stats user ts) * Qc_of_Z (Z.of_nat (List.length ts)))%Qc
  = total ts.
Proof.
  intros Hts. rewrite averageSpend_is_mean.
  pose proof (length_Qc_nonzero ts Hts) as Hn.
  destruct ts as [|t ts]; [done|].
  unfold Qcdiv. rewrite <- Qcmult_assoc, (Qcmult_comm (/ _)%Qc).
  by rewrite Qcmult_inv_r, Qcmult_1_r.
Qed.

(** *** Own properties of the frequency map *)

Lemma own_lookup_app o k v k' :
  own_lookup (o ++ [(k, v)]) k'
  = match own_lookup o k' with
    | Some w => Some w
    | None => if decide (k = k') then Some v else None
    end.
Proof.
  induction o as [|[k0 v0] o IH]; simpl; [done|].
  by destruct (decide (k0 = k')).
Qed.

Lemma own_lookup_replace o k v k' :
  own_lookup (own_replace o k v) k'
  = if decide (k = k') then (λ _, v) <$> own_lookup o k else own_lookup o k'.
Proof.
  induction o as [|[k0 v0] o IH]; simpl.
  - by destruct (decide (k = k')).
  - destruct (decide (k0 = k)) as [->|Hne]; simpl.
    + by destruct (decide (k = k')).
    + rewrite IH. destruct (decide (k = k')) as [<-|]; [|done].
      by rewrite decide_False.
Qed.

Lemma own_replace_keys o k v : (own_replace o k v).*1 = o.*1.
Proof.
  induction o as [|[k0 v0] o IH]; simpl; [done|].
  destruct (decide (k0 = k)); csimpl; [done | by f_equal].
Qed.

Lemma own_lookup_None o k : own_lookup o k = None ↔ k ∉ o.*1.
Proof.
  induction o as [|[k0 v0] o IH]; simpl.
  - split; [intros _ ?%elem_of_nil; done | done].
  - rewrite not_elem_of_cons. destruct (decide (k0 = k)) as [->|Hne].
    + split; [done | intros [? _]; done].
    + rewrite IH. intuition congruence.
Qed.

Lemma own_lookup_is_Some o k : is_Some (own_lookup o k) ↔ k ∈ o.*1.
Proof.
  rewrite <- not_eq_None_Some, own_lookup_None.
  split; [apply dec_stable | auto].
Qed.

(** *** Counting occurrences *)

Lemma occurrences_snoc c cs c' :
  occurrences c (cs ++ [c'])
  = occurrences c cs + (if decide (c' = c) then 1 else 0).
Proof.
  unfold occurrences. rewrite filter_app, length_app. f_equal.
  rewrite filter_cons, filter_nil. by destruct (decide (c' = c)).
Qed.

Lemma occurrences_pos c cs : c ∈ cs ↔ 0 < occurrences c cs.
Proof.
  unfold occurrences. induction cs as [|c0 cs IH].
  - rewrite filter_nil. simpl. split; [by intros ?%elem_of_nil | lia].
  - rewrite elem_of_cons, filter_cons.
    destruct (decide (c0 = c)) as [->|Hne]; simpl.
    + split; [lia | auto].
    + rewrite IH. intuition congruence.
Qed.

(** *** The tally built by [forEach]

    A category is safe when [Object.prototype] has no property of that
    name; for such keys a read of a missing property is [undefined]. *)

Lemma js_get_safe o k :
  safe k →
  js_get o k = from_option JsOwn JsUndefined (own_lookup o k).
Proof.
  intros Hk. unfold js_get. destruct (own_lookup o k); [done|].
  unfold safe, inherited_names in Hk. apply not_elem_of_cons in Hk as [? ?].
  by rewrite !decide_False.
Qed.

Lemma tally_of_nil : tally_of [] [].
Proof. split; [constructor | done]. Qed.

Lemma tally_of_step o cs t :
  safe (category t) → tally_of o cs →
  tally_of (count_step o t) (cs ++ [category t]).
Proof.
  intros Hsafe [Hnd Hlk]. set (c := category t) in *.
  assert (Hc : c ≠ "__proto__").
  { intros E. apply Hsafe. rewrite E. unfold inherited_names.
    apply elem_of_cons; auto. }
  unfold count_step, js_set. fold c. rewrite (js_get_safe _ _ Hsafe).
  rewrite decide_False by done.
  pose proof (Hlk c) as Hcur. destruct (occurrences c cs) as [|n] eqn:Hn.
  - (* a new key: created last with count 1 *)
    simpl in Hcur. rewrite Hcur. simpl. split.
    + rewrite fmap_app. apply NoDup_app. split; [done|].
      split; [|apply NoDup_singleton].
      intros k Hk Hk'. apply list_elem_of_singleton in Hk'. simpl in Hk'.
      subst k. by apply own_lookup_None in Hcur.
    + intros k. rewrite own_lookup_app, Hlk, occurrences_snoc.
      destruct (decide (c = k)) as [E|Hne].
      * subst k. by rewrite Hn.
      * rewrite Nat.add_0_r. by destruct (tally_val (occurrences k cs)).
  - (* the key exists: its count is replaced in place *)
    simpl in Hcur. rewrite Hcur. simpl. split; [by rewrite own_replace_keys|].
    intros k. rewrite own_lookup_replace, occurrences_snoc.
    destruct (decide (c = k)) as [E|Hne].
    + subst k. rewrite Hcur, Hn. simpl. by rewrite Nat.add_1_r.
    + by rewrite Nat.add_0_r, Hlk.
Qed.

Lemma tally_of_fold ts o cs :
  Forall (λ t, safe (category t)) ts → tally_of o cs →
  tally_of (fold_left count_step ts o) (cs ++ (category <$> ts)).
Proof.
  revert o cs. induction ts as [|t ts IH]; intros o cs Hsafe Ht.
  - simpl. by rewrite app_nil_r.
  - apply Forall_cons in Hsafe as [Ht0 Hts].
    change (cs ++ (category <$> t :: ts))
      with (cs ++ [category t] ++ (category <$> ts)).
    rewrite (assoc_L (++)). simpl. apply IH; [done|].
    by apply tally_of_step.
Qed.

Lemma frequencyMap_tally ts :
  Forall (λ t, safe (category t)) ts →
  tally_of (frequencyMap_of ts) (category <$> ts).
Proof. intros H. apply (tally_of_fold ts [] [] H tally_of_nil). Qed.

(** *** Enumeration visits every own key once *)

Lemma index_named_split ks : (index_keys ks).*2 ++ named_keys ks ≡ₚ ks.
Proof.
  unfold index_keys, named_keys. induction ks as [|k ks IH]; [done|].
  rewrite filter_cons. simpl. destruct (array_index k) as [n|] eqn:E; simpl.
  - apply perm_skip, IH.
  - rewrite <- Permutation_middle. apply perm_skip, IH.
Qed.

Lemma for_in_keys_perm o : for_in_keys o ≡ₚ o.*1.
Proof.
  unfold for_in_keys. rewrite merge_sort_Permutation. apply index_named_split.
Qed.

(** *** The scan for the largest count *)

Lemma top_step_own o st k :
  top_step o st k
  = match own_lookup o k with
    | Some (Count n) => if bool_decide (st.1 < n) then (n, k) else st
    | _ => st
    end.
Proof.
  unfold top_step, js_get. destruct (own_lookup o k) as [[n|og ones]|]; try done.
  by repeat case_decide.
Qed.

Lemma top_scan o ks m0 t0 :
  let r := fold_left (top_step o) ks (m0, t0) in
  m0 ≤ r.1 ∧
  (∀ k n, k ∈ ks → own_lookup o k = Some (Count n) → n ≤ r.1) ∧
  (r = (m0, t0) ∨
   (r.2 ∈ ks ∧ own_lookup o r.2 = Some (Count r.1) ∧ m0 < r.1)).
Proof.
  revert m0 t0. induction ks as [|k ks IH]; intros m0 t0; simpl.
  - split; [done|]. split; [by intros ?? ?%elem_of_nil | by left].
  - rewrite top_step_own. simpl.
    assert (Hkeep :
      (∀ n, own_lookup o k = Some (Count n) → n ≤ m0) →
      let r := fold_left (top_step o) ks (m0, t0) in
      m0 ≤ r.1 ∧
      (∀ k' n, k' ∈ k :: ks → own_lookup o k' = Some (Count n) → n ≤ r.1) ∧
      (r = (m0, t0) ∨
       (r.2 ∈ k :: ks ∧ own_lookup o r.2 = Some (Count r.1) ∧ m0 < r.1))).
    { intros Hsmall. destruct (IH m0 t0) as (Hle & Hmax & Hsel).
      split; [done|]. split.
      - intros k' n' [->|Hin]%elem_of_cons Hlk; [|by eapply Hmax].
        apply Hsmall in Hlk. lia.
      - destruct Hsel as [?|(Hin & Hlk & Hgt)]; [by left | right].
        split; [apply elem_of_cons; auto | done]. }
    destruct (own_lookup o k) as [[n|og ones]|] eqn:Hk;
      [|by apply Hkeep..].
    case_bool_decide as Hlt.
    + destruct (IH n k) as (Hle & Hmax & Hsel). split; [lia|]. split.
      * intros k' n' [->|Hin]%elem_of_cons Hlk; [|by eapply Hmax].
        rewrite Hk in Hlk. injection Hlk as <-. done.
      * right. destruct Hsel as [->|(Hin & Hlk & Hgt)]; simpl.
        -- split; [apply elem_of_cons; auto | done].
        -- split; [apply elem_of_cons; auto|]. split; [done | lia].
    + apply Hkeep. intros n' [= <-]. lia.
Qed.

(** On a non-empty list whose categories avoid the names of
    [Object.prototype], the category shown is a mode. *)
Lemma topCategory_mode_of_safe user ts :
  ts ≠ [] → Forall (λ t, safe (category t)) ts →
  is_mode (topCategory (stats user ts)) (category <$> ts).
Proof.
  intros Hne Hsafe.
  destruct (frequencyMap_tally ts Hsafe) as [Hnd Hlk].
  assert (Htop : topCategory (stats user ts)
    = (fold_left (top_step (frequencyMap_of ts))
                 (for_in_keys (frequencyMap_of ts)) (0, "None")).2)
    by (destruct ts; done).
  rewrite Htop. set (o := frequencyMap_of ts) in *.
  set (cs := category <$> ts) in *.
  pose proof (top_scan o (for_in_keys o) 0 "None") as (_ & Hmax & Hsel).
  set (r := fold_left (top_step o) (for_in_keys o) (0, "None")) in *.
  assert (Hkey : ∀ c, c ∈ cs → c ∈ for_in_keys o).
  { intros c Hc. rewrite for_in_keys_perm. apply own_lookup_is_Some.
    rewrite Hlk. apply occurrences_pos in Hc.
    destruct (occurrences c cs); [lia | by eexists]. }
  assert (Hbound : ∀ c, occurrences c cs ≤ r.1).
  { intros c. destruct (occurrences c cs) as [|n] eqn:Hn; [lia|].
    rewrite <- Hn. apply (Hmax c); [|by rewrite Hlk, Hn].
    apply Hkey, occurrences_pos. lia. }
  destruct Hsel as [Hr|(Hin & Hr & Hgt)].
  - (* nothing selected: impossible, the first category occurs *)
    exfalso. destruct ts as [|t ts]; [done|].
    pose proof (Hbound (category t)) as Hb. rewrite Hr in Hb. simpl in Hb.
    assert (0 < occurrences (category t) cs); [|lia].
    apply occurrences_pos. subst cs. rewrite fmap_cons. apply elem_of_cons; auto.
  - rewrite Hlk in Hr. destruct (occurrences r.2 cs) as [|n] eqn:Hn; [done|].
    simpl in Hr. injection Hr as Hr. split.
    + apply occurrences_pos. lia.
    + intros c. rewrite Hn, Hr. apply Hbound.
Qed.

Lemma topCategory_mode_of_safe_witness :
  is_mode "food"
    (category <$> [ {| amount := 1%Qc; category := "rent" |};
                    {| amount := 1%Qc; category := "food" |};
                    {| amount := 1%Qc; category := "food" |} ]).
Proof.
  apply (topCategory_mode_of_safe None
    [ {| amount := 1%Qc; category := "rent" |};
      {| amount := 1%Qc; category := "food" |};
      {| amount := 1%Qc; category := "food" |} ]); [done|].
  unfold safe. apply (bool_decide_unpack _). vm_compute. reflexivity.
Defined.

(** *** Categories named like a property of [Object.prototype] *)

Lemma all_text_step o t :
  category t ∈ inherited_names → all_text o → all_text (count_step o t).
Proof.
  intros Hin Hall. set (c := category t) in *.
  unfold count_step, js_set, js_get. fold c.
  destruct (decide (c = "__proto__")) as [E|Hc]; [done|].
  apply elem_of_cons in Hin as [?|Hm]; [done|].
  destruct (own_lookup o c) as [v|] eqn:Hv.
  - destruct (Hall _ _ Hv) as (og & ones & ->). simpl.
    intros k w. rewrite own_lookup_replace.
    destruct (decide (c = k)) as [<-|]; [|by apply Hall].
    rewrite Hv. simpl. intros [= <-]. eauto.
  - rewrite decide_True by done. simpl.
    intros k w. rewrite own_lookup_app.
    destruct (own_lookup o k) as [w'|] eqn:Hk.
    + intros [= <-]. by eapply Hall.
    + destruct (decide (c = k)); [|done]. intros [= <-]. eauto.
Qed.

Lemma all_text_fold ts o :
  Forall (λ t, category t ∈ inherited_names) ts → all_text o →
  all_text (fold_left count_step ts o).
Proof.
  revert o. induction ts as [|t ts IH]; intros o Hts Ho; [done|].
  apply Forall_cons in Hts as [Ht Hts]. simpl.
  apply IH; [done|]. by apply all_text_step.
Qed.

Lemma top_scan_all_text o ks st :
  all_text o → fold_left (top_step o) ks st = st.
Proof.
  intros Ho. induction ks as [|k ks IH]; [done|]. simpl.
  rewrite top_step_own. destruct (own_lookup o k) as [v|] eqn:Hk; [|done].
  by destruct (Ho _ _ Hk) as (og & ones & ->).
Qed.

(** When every category is a name that [Object.prototype] answers to, no
    count is ever a number and the top category stays "None". *)
Lemma topCategory_of_inherited_names user ts :
  Forall (λ t, category t ∈ inherited_names) ts →
  topCategory (stats user ts) = "None".
Proof.
  intros Hts. destruct ts as [|t ts]; [done|].
  cbn [stats topCategory]. rewrite top_scan_all_text; [done|].
  apply all_text_fold; [done|]. by intros k v.
Qed.

Lemma topCategory_of_inherited_names_witness :
  topCategory (stats None [ {| amount := 1%Qc; category := "toString" |};
                            {| amount := 1%Qc; category := "toString" |} ])
  = "None".
Proof.
  apply topCategory_of_inherited_names.
  apply (bool_decide_unpack _). vm_compute. reflexivity.
Defined.

(** C1 (the code departs from the claim). The average is the arithmetic
    mean, but the top category is not always a mode: for the single
    transaction of category "constructor" the component shows "None", while
    the mode of the categories is "constructor". *)
Theorem topCategory_not_mode_for_constructor :
  let ts := [ {| amount := 1%Qc; category := "constructor" |} ] in
  averageSpend (stats None ts) = 1%Qc ∧
  topCategory (stats None ts) = "None" ∧
  is_mode "constructor" (category <$> ts) ∧
  ¬ is_mode (topCategory (stats None ts)) (category <$> ts).
Proof.
  simpl. split; [by apply Qc_is_canon|]. split; [reflexivity|]. split.
  - split; [apply list_elem_of_singleton; done|].
    intros c. unfold occurrences. rewrite !filter_cons, !filter_nil.
    rewrite (decide_True (P := "constructor" = "constructor")) by done.
    case_decide; simpl; lia.
  - intros [Hin _]. apply list_elem_of_singleton in Hin. discriminate Hin.
Qed.

(** *** The tier *)

Lemma spent_above_spec user bound :
  spent_above user (Qc_of_Z bound) = true ↔ totalSpent_above user bound.
Proof.
  unfold spent_above, totalSpent_above. destruct user as [u|].
  - rewrite bool_decide_eq_true. split; [eauto|]. by intros (? & [= <-] & ?).
  - split; [done | by intros (? & ? & ?)].
Qed.

(** C7. With no transactions the tier shown is "Silver" whatever the user
    spent; with transactions it is "Platinum" exactly when totalSpent is
    above 10000, otherwise "Gold" exactly when it is above 5000, otherwise
    "Silver". *)
Theorem userTier_by_totalSpent user ts :
  (ts = [] → tier_label (userTier (stats user ts)) = "Silver") ∧
  (ts ≠ [] →
     (tier_label (userTier (stats user ts)) = "Platinum"
        ↔ totalSpent_above user 10000) ∧
     (tier_label (userTier (stats user ts)) = "Gold"
        ↔ ¬ totalSpent_above user 10000 ∧ totalSpent_above user 5000) ∧
     (tier_label (userTier (stats user ts)) = "Silver"
        ↔ ¬ totalSpent_above user 10000 ∧ ¬ totalSpent_above user 5000)).
Proof.
  split; [by intros ->|]. intros Hne.
  assert (Htier : userTier (stats user ts)
    = if spent_above user (Qc_of_Z 10000) then Platinum
      else if spent_above user (Qc_of_Z 5000) then Gold else Silver)
    by (destruct ts; done).
  rewrite Htier. rewrite <- !spent_above_spec.
  destruct (spent_above user (Qc_of_Z 10000)),
           (spent_above user (Qc_of_Z 5000)); simpl;
    repeat split; try done; try (by intros []); intuition congruence.
Qed.

Lemma userTier_by_totalSpent_witness :
  tier_label (userTier (stats (Some {| totalSpent := Qc_of_Z 7500 |})
                              [ {| amount := 1%Qc; category := "food" |} ]))
  = "Gold"
  ∧ tier_label (userTier (stats (Some {| totalSpent := Qc_of_Z 7500 |}) []))
    = "Silver".
Proof.
  split.
  - apply (userTier_by_totalSpent (Some {| totalSpent := Qc_of_Z 7500 |})
             [ {| amount := 1%Qc; category := "food" |} ]); [done|].
    split.
    + intros (u & [= <-] & Hlt). cbn [totalSpent] in Hlt.
      apply (proj2 (Z2Qc_inj_lt 10000 7500)) in Hlt. lia.
    + exists {| totalSpent := Qc_of_Z 7500 |}. split; [done|].
      cbn [totalSpent]. apply (proj1 (Z2Qc_inj_lt 5000 7500)). lia.
  - apply (proj1 (userTier_by_totalSpent
                    (Some {| totalSpent := Qc_of_Z 7500 |}) [])).
    reflexivity.
Defined.

End UserStatisticsFacts.

(** ** The service file: apiClient *)

Module JsFacts.
Import Js.

(** [fetch] hands over the first outcome in store and moves on. *)
Lemma fetch_head req w :
  fetch req w
  = (match head (net w) with
     | None => Throw (new_TypeError "Failed to fetch")
     | Some (NetFail e) => Throw (VError e)
     | Some (Reply r) => Return r
     end, after_fetch req w).
Proof.
  unfold fetch, after_fetch. destruct w as [n s c a l t]. simpl.
  by destruct n as [|[e|r] rest].
Qed.

End JsFacts.

Module ServicesFacts.
Import Js Services JsFacts.

Lemma throw_api_error_run {A} (j : Json) (w : World) :
  @throw_api_error A (VJson j) w
  = (match j with
     | JNull => Throw (cannot_read "null" "message")
     | _ => Throw (api_error j)
     end, w).
Proof.
  unfold throw_api_error, bind, lift_completion, throw, api_error,
    message_field, new_Error_of, js_or.
  destruct j as [| | | | |fs]; try done. cbn [get_prop].
  destruct (field_lookup fs "message") as [m|]; cbn [from_option]; [|done].
  destruct (truthy (VJson m)); [|done]. cbn [to_String].
  by destruct (ToString m).
Qed.

Ltac run_method w :=
  unfold apiClient.get, apiClient.post, apiClient.put, leaves, try_catch, bind;
  rewrite fetch_head;
  destruct (head (net w)) as [[e|[st [j|why]]]|]; simpl; try done;
  unfold lift_completion, reply_json; simpl;
  try (by destruct (negb (ok {| status := st; body := NotJson why |})));
  try (destruct (ok {| status := st; body := JsonBody j |}) eqn:Hok; simpl;
       rewrite ?throw_api_error_run; try done; by destruct j).

Lemma apiClient_get_run endpoint w :
  apiClient.get endpoint w
  = (settles (head (net w)),
     leaves "API GET error:" (request "GET" endpoint VUndefined) w).
Proof. run_method w. Qed.

Lemma apiClient_post_run endpoint payload w :
  apiClient.post endpoint payload w
  = (settles (head (net w)),
     leaves "API POST error:" (request "POST" endpoint payload) w).
Proof. run_method w. Qed.

Lemma apiClient_put_run endpoint payload w :
  apiClient.put endpoint payload w
  = (settles (head (net w)),
     leaves "API PUT error:" (request "PUT" endpoint payload) w).
Proof. run_method w. Qed.

Lemma leaves_contract call label req :
  (∀ w, call w = (settles (head (net w)), leaves label req w)) →
  meets_contract call label req.
Proof.
  intros Hrun w. rewrite Hrun. unfold leaves. cbn [fst snd].
  destruct (settles (head (net w))) as [v|v];
    destruct w as [n s c a l t]; simpl; by rewrite ?app_nil_r.
Qed.

Lemma settles_Return first v :
  settles first = Return v
  ↔ ∃ r j, first = Some (Reply r) ∧ body r = JsonBody j ∧ ok r = true
           ∧ v = VJson j.
Proof.
  split.
  - destruct first as [[e|r]|]; simpl; try done.
    destruct (body r) as [j|] eqn:Hb; [|done].
    destruct (ok r) eqn:Hok; [|by destruct j].
    intros [= <-]. by exists r, j.
  - intros (r & j & -> & Hb & Hok & ->). simpl. by rewrite Hb, Hok.
Qed.

Lemma settles_Throw_not_ok r j :
  ok r = false → body r = JsonBody j →
  settles (Some (Reply r))
  = Throw (match j with
           | JNull => cannot_read "null" "message"
           | _ => api_error j
           end).
Proof. intros Hok Hb. simpl. rewrite Hb, Hok. by destruct j. Qed.

(** C4 (amended). Each of get, post and put sends one request and never
    retries. It returns the parsed body exactly when the fetch resolves,
    the body is JSON and response.ok is true. With response.ok false and a
    JSON body other than null it throws an Error whose message is "API
    request failed" when the body's message is absent or falsy, the message
    itself when that is a string that is not empty, and in general the
    truthy message converted to a string; when that conversion fails (an
    object with a toString entry of its own) its TypeError is thrown
    instead. A null body throws a TypeError, a body that is not JSON the
    parse error, a failed fetch its own error. Whatever is thrown is logged
    once and rethrown unchanged. *)
Theorem apiClient_contract endpoint payload :
  meets_contract (apiClient.get endpoint) "API GET error:"
                 (request "GET" endpoint VUndefined) ∧
  meets_contract (apiClient.post endpoint payload) "API POST error:"
                 (request "POST" endpoint payload) ∧
  meets_contract (apiClient.put endpoint payload) "API PUT error:"
                 (request "PUT" endpoint payload) ∧
  (∀ first v,
     settles first = Return v
     ↔ ∃ r j, first = Some (Reply r) ∧ body r = JsonBody j ∧ ok r = true
              ∧ v = VJson j) ∧
  (∀ r j,
     ok r = false → body r = JsonBody j → j ≠ JNull →
     settles (Some (Reply r)) = Throw (api_error j)) ∧
  (∀ j, (∀ m, message_field j = Some m → truthy (VJson m) = false) →
        api_error j = new_Error "API request failed") ∧
  (∀ j text, message_field j = Some (JStr text) → text ≠ "" →
             api_error j = new_Error text) ∧
  (∀ j m, message_field j = Some m → truthy (VJson m) = true →
          api_error j = if converts m then new_Error (json_to_string m)
                        else new_TypeError
                               "Cannot convert object to primitive value") ∧
  (∀ r, ok r = false → body r = JsonBody JNull →
        settles (Some (Reply r)) = Throw (cannot_read "null" "message")) ∧
  (∀ r why, body r = NotJson why →
            settles (Some (Reply r)) = Throw (new_SyntaxError why)) ∧
  (∀ e, settles (Some (NetFail e)) = Throw (VError e)) ∧
  settles None = Throw (new_TypeError "Failed to fetch").
Proof.
  split; [apply leaves_contract, apiClient_get_run|].
  split; [apply leaves_contract, apiClient_post_run|].
  split; [apply leaves_contract, apiClient_put_run|].
  split; [apply settles_Return|].
  split.
  { intros r j Hok Hb Hj. rewrite (settles_Throw_not_ok r j Hok Hb).
    by destruct j. }
  split.
  { intros j Hfalsy. unfold api_error.
    destruct (message_field j) as [m|]; [|done]. by rewrite (Hfalsy m). }
  split.
  { intros j text Hm Hne. unfold api_error. rewrite Hm. cbn [truthy].
    by rewrite bool_decide_eq_true_2. }
  split.
  { intros j m Hm Htruthy. unfold api_error, ToString.
    rewrite Hm, Htruthy. by destruct (converts m). }
  split.
  { intros r Hok Hb. by rewrite (settles_Throw_not_ok r JNull Hok Hb). }
  split; [|done].
  intros r why Hb. simpl. by rewrite Hb.
Qed.

Lemma apiClient_contract_witness :
  (apiClient.get "/user/profile"
     (world_with [Reply {| status := 404;
                           body := JsonBody (JObj [("message", JStr "No profile")]) |}])).1
  = Throw (new_Error "No profile")
  ∧ api_error (JObj [("message", JObj [("toString", JNum 1)])])
    = new_TypeError "Cannot convert object to primitive value".
Proof.
  destruct (apiClient_contract "/user/profile" VUndefined)
    as (Hget & _ & _ & _ & Hthrow & _ & Htext & Hconv & _).
  destruct (Hget (world_with [Reply {| status := 404;
      body := JsonBody (JObj [("message", JStr "No profile")]) |}])) as (-> & _).
  split.
  - transitivity
      (Throw (A:=Value) (api_error (JObj [("message", JStr "No profile")]))).
    + apply (Hthrow {| status := 404;
          body := JsonBody (JObj [("message", JStr "No profile")]) |}
          (JObj [("message", JStr "No profile")])); done.
    + by rewrite (Htext _ "No profile").
  - by rewrite (Hconv _ (JObj [("toString", JNum 1)])).
Defined.

(** C4 (as stated, refuted). Three replies on which the methods do not do
    what the statement says. A reply that is ok but whose body is not JSON
    (an empty 204 body) makes put throw the parse error instead of
    returning. A reply with status 500 and the JSON body [null] makes get
    throw a TypeError about reading 'message', not the Error "API request
    failed". A reply with status 500 whose message field is present but
    empty makes post throw "API request failed", not the empty message. *)
Lemma apiClient_departs_from_statement :
  let no_content :=
    {| status := 204; body := NotJson "Unexpected end of JSON input" |} in
  let null_body := {| status := 500; body := JsonBody JNull |} in
  let empty_message := JObj [("message", JStr "")] in
  let failed := {| status := 500; body := JsonBody empty_message |} in
  (ok no_content = true
   ∧ (apiClient.put "/user/profile" VUndefined
        (world_with [Reply no_content])).1
     = Throw (new_SyntaxError "Unexpected end of JSON input"))
  ∧ ((apiClient.get "/user/profile" (world_with [Reply null_body])).1
     = Throw (new_TypeError
                "Cannot read properties of null (reading 'message')")
     ∧ stated_result null_body JNull = Throw (new_Error "API request failed"))
  ∧ ((apiClient.post "/auth/login" VUndefined (world_with [Reply failed])).1
     = Throw (new_Error "API request failed")
     ∧ message_field empty_message = Some (JStr "")
     ∧ stated_result failed empty_message = Throw (new_Error "")).
Proof. by vm_compute. Qed.

End ServicesFacts.

(** ** The orders dashboard *)

Module OrdersFacts.
Import Js Orders JsFacts.

(** *** getCustomerEmails *)

Lemma Set_add_fold_NoDup values s :
  NoDup s → NoDup (fold_left Set_add values s).
Proof.
  revert s. induction values as [|x values IH]; intros s Hs; [done|].
  simpl. apply IH. unfold Set_add. case_decide; [done|].
  apply NoDup_app. split; [done|]. split; [|apply NoDup_singleton].
  intros y Hy Hy'. apply list_elem_of_singleton in Hy'. by subst.
Qed.

Lemma Set_add_fold_elem values s x :
  x ∈ fold_left Set_add values s ↔ x ∈ s ∨ x ∈ values.
Proof.
  revert s. induction values as [|y values IH]; intros s; simpl.
  - rewrite elem_of_nil. tauto.
  - rewrite IH, elem_of_cons. unfold Set_add. case_decide as Hy.
    + split; [tauto|]. intros [?|[->|?]]; auto.
    + rewrite elem_of_app, list_elem_of_singleton. tauto.
Qed.

Lemma new_Set_NoDup values : NoDup (new_Set values).
Proof. apply Set_add_fold_NoDup. constructor. Qed.

Lemma new_Set_elem values x : x ∈ new_Set values ↔ x ∈ values.
Proof.
  unfold new_Set. rewrite Set_add_fold_elem, elem_of_nil. tauto.
Qed.

(** C9. The list returned by getCustomerEmails has no duplicates, its
    members are exactly the customerEmail values of the orders, and the
    "Unique Customers" figure is the number of distinct emails. *)
Theorem getCustomerEmails_distinct (orders : list Order) :
  NoDup (getCustomerEmails orders) ∧
  (∀ e, e ∈ getCustomerEmails orders
        ↔ ∃ o, o ∈ orders ∧ customerEmail o = e) ∧
  uniqueCustomers orders
  = size (list_to_set (customerEmail <$> orders) : gset string).
Proof.
  unfold uniqueCustomers, getCustomerEmails. split; [apply new_Set_NoDup|].
  split.
  - intros e. rewrite new_Set_elem. rewrite list_elem_of_fmap.
    split; intros (o & ? & ?); exists o; done.
  - rewrite <- (size_list_to_set (C := gset string)) by apply new_Set_NoDup.
    f_equal. apply set_eq. intros e.
    by rewrite !elem_of_list_to_set, new_Set_elem.
Qed.

(** *** The API wrapper *)

Section api_facts.
Variable apiURL : string.

Ltac run_api w :=
  unfold post, put, get, api_request, getToken, try_catch, bind, ret;
  rewrite fetch_head; unfold api_settles, lift_completion, reply_json;
  destruct (head (net w)) as [[e|[st [j|why]]]|]; simpl; try done.

Lemma api_post_run path payload w :
  post apiURL path payload w
  = (api_settles true (head (net w)),
     after_fetch (api_req apiURL "POST" path payload w) w).
Proof. run_api w. by case_bool_decide. Qed.

Lemma api_put_run path payload w :
  put apiURL path payload w
  = (api_settles false (head (net w)),
     after_fetch (api_req apiURL "PUT" path payload w) w).
Proof. run_api w. Qed.

Lemma api_get_run path w :
  get apiURL path w
  = (api_settles false (head (net w)),
     after_fetch (api_req apiURL "GET" path VUndefined w) w).
Proof. run_api w. Qed.

(** The wrapper resolves with parsed JSON, never with a Response. *)
Lemma api_settles_json strict first v :
  api_settles strict first = Return v → ∃ j, v = VJson j.
Proof.
  destruct first as [[e|r]|]; simpl; try done.
  destruct (body r) as [j|]; [|done].
  destruct (strict && _); [done|]. intros [= <-]. by exists j.
Qed.

(** Calling [.json()] on parsed JSON throws a TypeError. *)
Lemma call_json_of_json j :
  ∃ e, call_json (VJson j) = Throw (VError e) ∧ kind e = TypeError.
Proof. destruct j; simpl; eauto. Qed.

Lemma try_block_throws {S A} strict first (m : M S Value)
    (rest : Value → Value → M S A) (s s' : S) :
  m s = (api_settles strict first, s') →
  bind m (λ response,
            bind (lift_completion (call_json response)) (rest response)) s
  = (Throw (caught strict first), s').
Proof.
  intros Hm. unfold bind, lift_completion, caught. rewrite Hm.
  destruct (api_settles strict first) as [res|v] eqn:Hres; [|done].
  destruct (api_settles_json _ _ _ Hres) as (j & ->).
  by destruct (call_json_of_json j) as (e & -> & _).
Qed.

(** Without the rejection of [post], what is caught is an Error object. *)
Lemma caught_lenient_is_error first : ∃ e, caught false first = VError e.
Proof.
  unfold caught. destruct (api_settles false first) as [res|v] eqn:Hres.
  - destruct (api_settles_json _ _ _ Hres) as (j & ->).
    destruct (call_json_of_json j) as (e & -> & _). eauto.
  - destruct first as [[e|r]|]; simpl in Hres.
    + injection Hres as <-. eauto.
    + destruct (body r); [done|]. injection Hres as <-.
      unfold new_SyntaxError. eauto.
    + injection Hres as <-. unfold new_TypeError. eauto.
Qed.

(** *** The three callers, step by step *)

Lemma sendReminderEmail_run orderId w :
  sendReminderEmail apiURL orderId w
  = let w1 := after_fetch (api_req apiURL "POST" (reminder_path orderId) VUndefined w) w in
    match get_prop (caught true (head (net w))) "message" with
    | Return m =>
        match to_String m with
        | Return text =>
            (Return tt, set_alerts (λ l, l ++ ["Error: " +:+ text]) w1)
        | Throw t => (Throw t, w1)
        end
    | Throw t => (Throw t, w1)
    end.
Proof.
  unfold sendReminderEmail, try_catch.
  rewrite (try_block_throws true (head (net w)) _ _ w
             (after_fetch (api_req apiURL "POST" (reminder_path orderId) VUndefined w) w))
    by apply api_post_run.
  unfold error_text, bind, lift_completion, ret, alert, modify.
  destruct (get_prop (caught true (head (net w))) "message") as [m|t]; [|done].
  by destruct (to_String m).
Qed.

Lemma fetchOrders_run d w :
  fetchOrders apiURL (d, w)
  = let w1 := after_fetch
                (api_req apiURL "POST" "/orders/search" (VJson (filters d)) w) w in
    match get_prop (caught true (head (net w))) "message" with
    | Return m =>
        (Return tt, (setLoading false (setError m (setLoading true d)), w1))
    | Throw t => (Throw t, (setLoading false (setLoading true d), w1))
    end.
Proof.
  unfold fetchOrders, try_finally, try_catch.
  unfold bind at 1. unfold set_state at 1, modify at 1.
  unfold bind at 1. unfold read at 1. cbn [fst snd].
  rewrite (try_block_throws true (head (net w)) _ _ _
    (setLoading true d,
     after_fetch (api_req apiURL "POST" "/orders/search" (VJson (filters d)) w) w)).
  - unfold bind, lift_completion, set_state, modify.
    by destruct (get_prop (caught true (head (net w))) "message").
  - unfold in_world. cbn [fst snd]. by rewrite api_post_run.
Qed.

Lemma markAsShipped_run orderId d w :
  markAsShipped apiURL orderId (d, w)
  = let w1 := after_fetch
                (api_req apiURL "PUT" (order_path orderId) shipped_payload w) w in
    match get_prop (caught false (head (net w))) "message" with
    | Return m =>
        match to_String m with
        | Return text =>
            (Return tt, (d, set_alerts (λ l, l ++ ["Error: " +:+ text]) w1))
        | Throw t => (Throw t, (d, w1))
        end
    | Throw t => (Throw t, (d, w1))
    end.
Proof.
  unfold markAsShipped, try_catch.
  rewrite (try_block_throws false (head (net w)) _ _ _
    (d, after_fetch (api_req apiURL "PUT" (order_path orderId) shipped_payload w) w)).
  - unfold error_text, bind, lift_completion, ret, in_world, alert, modify.
    destruct (get_prop (caught false (head (net w))) "message") as [m|t];
      [|done].
    by destruct (to_String m).
  - unfold in_world. cbn [fst snd]. by rewrite api_put_run.
Qed.

(** What is caught is an Error object, or the JSON body [post] rejected. *)
Lemma caught_cases strict first :
  (∃ e, caught strict first = VError e) ∨
  (∃ r j, caught strict first = VJson j ∧ strict = true ∧
          first = Some (Reply r) ∧ body r = JsonBody j ∧ Js.status r ≠ 200).
Proof.
  unfold caught. destruct (api_settles strict first) as [res|v] eqn:Hres.
  - left. destruct (api_settles_json _ _ _ Hres) as (j & ->).
    destruct (call_json_of_json j) as (e & -> & _). eauto.
  - destruct first as [[e|r]|]; simpl in Hres.
    + left. injection Hres as <-. eauto.
    + destruct (body r) as [j|] eqn:Hb.
      * destruct strict; simpl in Hres; [|done].
        case_bool_decide; [|done]. injection Hres as <-.
        right. by exists r, j.
      * left. injection Hres as <-. unfold new_SyntaxError. eauto.
    + left. injection Hres as <-. unfold new_TypeError. eauto.
Qed.

(** Reading [err.message] fails only for a rejected [null]. *)
Lemma caught_message strict first :
  caught strict first ≠ VJson JNull →
  ∃ m, get_prop (caught strict first) "message" = Return m.
Proof.
  intros Hnull.
  destruct (caught_cases strict first) as [(e & ->)|(r & j & Hc & _)].
  - simpl. eauto.
  - rewrite Hc in *. destruct j; simpl; eauto. done.
Qed.

Lemma error_alert_differs (text : string) (l : list string) :
  (l = [] ∨ ∃ m, l = ["Error: " +:+ m]) →
  (∀ rest, text ≠ String "E" rest) → text ∉ l.
Proof.
  intros [->|(m & ->)] Htext; [apply not_elem_of_nil|].
  intros Hin%list_elem_of_singleton. by eapply Htext.
Qed.

(** C3 (amended). API.post and API.put resolve with parsed JSON, never a
    Response, and [.json()] on parsed JSON throws; so every run of the
    three callers ends in its catch block. sendReminderEmail never shows
    its success alert, fetchOrders never sets orders, markAsShipped never
    changes orders. fetchOrders sets the error state to the caught value's
    message, except when what is caught is [null] (a reply with a status
    other than 200 whose JSON body is null): then reading the message throws
    inside the catch block and the error state stays as it was. *)
Theorem dashboard_calls_end_in_catch (orderId : OrderId) (d : Dashboard)
    (w : World) :
  (∀ path payload v,
     (post apiURL path payload w).1 = Return v
     ∨ (put apiURL path payload w).1 = Return v →
     ∃ j e, v = VJson j ∧ call_json v = Throw (VError e)
            ∧ kind e = TypeError) ∧
  (∃ l, alerts (sendReminderEmail apiURL orderId w).2 = alerts w ++ l
        ∧ "Reminder email sent successfully" ∉ l) ∧
  (let r := fetchOrders apiURL (d, w) in
   orders r.2.1 = orders d ∧ loading r.2.1 = false ∧
   match get_prop (caught true (head (net w))) "message" with
   | Return m => r.1 = Return tt ∧ error r.2.1 = m
   | Throw t => r.1 = Throw t ∧ error r.2.1 = error d
   end) ∧
  (caught true (head (net w)) ≠ VJson JNull →
   ∃ m, get_prop (caught true (head (net w))) "message" = Return m) ∧
  (caught true (head (net w)) = VJson JNull
   ↔ ∃ r, head (net w) = Some (Reply r) ∧ body r = JsonBody JNull
          ∧ Js.status r ≠ 200) ∧
  (let r := markAsShipped apiURL orderId (d, w) in
   orders r.2.1 = orders d ∧
   ∃ l, alerts r.2.2 = alerts w ++ l ∧ "Order marked as shipped" ∉ l).
Proof.
  split; [|split; [|split; [|split; [|split]]]].
  - intros path payload v Hv. rewrite api_post_run, api_put_run in Hv. simpl in Hv.
    destruct Hv as [Hv|Hv]; apply api_settles_json in Hv as (j & ->);
      destruct (call_json_of_json j) as (e & He & Hk); eauto.
  - rewrite sendReminderEmail_run. cbn zeta.
    destruct (get_prop _ "message") as [m|t]; [destruct (to_String m) as [text|t]|];
      destruct w as [n s c a l t']; simpl.
    + exists ["Error: " +:+ text]. split; [done|].
      apply error_alert_differs; [eauto | done].
    + exists []. rewrite app_nil_r. split; [done | apply not_elem_of_nil].
    + exists []. rewrite app_nil_r. split; [done | apply not_elem_of_nil].
  - rewrite fetchOrders_run. cbn zeta.
    by destruct (get_prop _ "message").
  - apply caught_message.
  - split.
    + intros Hc. destruct (caught_cases true (head (net w)))
        as [(e & He)|(r & j & Hj & _ & Hf & Hb & Hs)]; [congruence|].
      exists r. rewrite Hj in Hc. injection Hc as ->. done.
    + intros (r & -> & Hb & Hs). unfold caught. simpl. rewrite Hb.
      by rewrite bool_decide_eq_true_2.
  - rewrite markAsShipped_run. cbn zeta.
    destruct (caught_lenient_is_error (head (net w))) as (e & ->). simpl.
    split; [done|]. destruct w as [n s c a l t']. simpl.
    exists ["Error: " +:+ message e]. split; [done|].
    apply error_alert_differs; [eauto | done].
Qed.

End api_facts.

Lemma dashboard_calls_end_in_catch_witness :
  let w := world_with [Reply {| Js.status := 200; body := JsonBody (JArr []) |}] in
  ∃ m, get_prop (caught true (head (net w))) "message" = Return m.
Proof.
  apply (dashboard_calls_end_in_catch "" (IdNum 1) initial_dashboard
           (world_with [Reply {| Js.status := 200; body := JsonBody (JArr []) |}])).
  done.
Defined.

(** C3 (as stated, refuted). When the server replies 500 with the JSON
    body [null], API.post rejects with [null]; fetchOrders enters its catch
    block, where reading [err.message] throws, so setError is never called:
    the error state is still [null] and the promise of fetchOrders rejects. *)
Lemma fetchOrders_null_rejection_sets_no_error :
  let w := world_with [Reply {| Js.status := 500; body := JsonBody JNull |}] in
  let r := fetchOrders "" (initial_dashboard, w) in
  error r.2.1 = error initial_dashboard
  ∧ error r.2.1 = VJson JNull
  ∧ r.1 = Throw (new_TypeError
                   "Cannot read properties of null (reading 'message')")
  ∧ orders r.2.1 = orders initial_dashboard.
Proof. by vm_compute. Qed.

End OrdersFacts.

(** ** The task schema and router *)

Module TasksFacts.
Import Js Tasks.

(** *** How each handler runs *)

Section handlers.
Context {Db : Type} `{Models Db}.

Lemma body_prop_run req name (db : Db) :
  body_prop req name db = (get_prop (req_body req) name, db).
Proof. done. Qed.

Lemma body_missing_false req : body_missing req = false ↔ has_body req.
Proof.
  unfold body_missing, has_body.
  destruct (req_body req) as [|j|e|r]; [|destruct j|..];
    intuition congruence.
Qed.

Lemma body_prop_value req name (db : Db) :
  has_body req →
  body_prop req name db = (Return (body_value req name), db).
Proof.
  intros [Hu Hn]. rewrite body_prop_run. unfold body_value.
  destruct (req_body req) as [|j|e|r]; [done|destruct j|..]; done.
Qed.

Lemma no_body_throws req name :
  ¬ has_body req → ∃ t, get_prop (req_body req) name = Throw t.
Proof.
  rewrite <- body_missing_false. unfold body_missing.
  destruct (req_body req) as [|j|e|r]; [|destruct j|..]; simpl; eauto;
    by intros [].
Qed.

Lemma user_prop_value user name :
  truthy (VJson user) = true →
  get_prop (VJson user) name = Return (user_value user name).
Proof. unfold user_value. by destruct user. Qed.

Lemma get_by_id_run req db :
  get_by_id req db
  = match Task_findById (params_id req) db with
    | (Return task, db') =>
        (Return {| code := 200; json := ok_true (or_null task) |}, db')
    | (Throw _, db') => (Return (failed "Failed to get task"), db')
    end.
Proof.
  unfold get_by_id, try_catch, bind.
  by destruct (Task_findById (params_id req) db) as [[task|e] db'].
Qed.

Lemma search_run req db :
  search req db
  = match Task_find (req_body req) db with
    | (Return tasks, db') =>
        (Return {| code := 200; json := ok_true (JArr tasks) |}, db')
    | (Throw _, db') => (Return (failed "Failed to search tasks"), db')
    end.
Proof.
  unfold search, try_catch, bind.
  by destruct (Task_find (req_body req) db) as [[tasks|e] db'].
Qed.

Lemma delete_by_id_run req db :
  delete_by_id req db
  = match Task_findByIdAndDelete (params_id req) db with
    | (Return (Some task), db') =>
        (Return {| code := 200; json := ok_true task |}, db')
    | (Return None, db') => (Return task_not_found, db')
    | (Throw _, db') => (Return (failed "Failed to delete task"), db')
    end.
Proof.
  unfold delete_by_id, try_catch, bind.
  by destruct (Task_findByIdAndDelete (params_id req) db) as [[[task|]|e] db'].
Qed.

Lemma update_run req db :
  has_body req →
  update req db
  = match Task_findByIdAndUpdate (params_id req) (requested_update req) db with
    | (Return (Some task), db') =>
        (Return {| code := 200; json := ok_true task |}, db')
    | (Return None, db') => (Return task_not_found, db')
    | (Throw _, db') => (Return (failed "Failed to update task"), db')
    end.
Proof.
  intros Hb. unfold update, try_catch, bind.
  rewrite !(body_prop_value _ _ _ Hb).
  unfold requested_update, update_props.
  by destruct (Task_findByIdAndUpdate _ _ db) as [[[task|]|e] db'].
Qed.

Lemma update_no_body req db :
  ¬ has_body req →
  update req db = (Return (failed "Failed to update task"), db).
Proof.
  intros Hb. unfold update, try_catch, bind. rewrite body_prop_run.
  by destruct (no_body_throws req "title" Hb) as (t & ->).
Qed.

Lemma create_no_body req db :
  ¬ has_body req →
  create req db = (Return (failed "Failed to create task"), db).
Proof.
  intros Hb. unfold create, try_catch, bind. rewrite body_prop_run.
  by destruct (no_body_throws req "title" Hb) as (t & ->).
Qed.

Lemma create_run req db :
  has_body req →
  create req db
  = match User_findById (body_value req "user_id") db with
    | (Throw _, db1) => (Return (failed "Failed to create task"), db1)
    | (Return found, db1) =>
        if truthy (VJson (or_null found)) then
          match Task_save (new_task req (or_null found)) db1 with
          | (Return task, db2) =>
              (Return {| code := 201; json := ok_true task |}, db2)
          | (Throw _, db2) => (Return (failed "Failed to create task"), db2)
          end
        else
          (Return {| code := 404; json := ok_false "User not found" |}, db1)
    end.
Proof.
  intros Hb. unfold create, try_catch, bind.
  rewrite !(body_prop_value _ _ _ Hb).
  destruct (User_findById _ db) as [[found|e] db1]; [|done].
  destruct (truthy (VJson (or_null found))) eqn:Htruthy; cbn [negb]; [|done].
  unfold lift_completion. rewrite !(user_prop_value _ _ Htruthy).
  unfold new_task.
  by destruct (Task_save _ db1) as [[task|e] db2].
Qed.

(** C2. Whatever the models do, every route of the tasks router answers
    with an envelope that goes with the path the request took. On the
    success path (every awaited query resolved and the lookup found
    something) it is [{ ok: true, data }] with the data the handler got and
    status 200, or 201 for POST /. On the failure paths it is
    [{ ok: false, error }] with an error string: status 500 when the body
    cannot be destructured or a query rejects, 404 when the lookup of
    POST /, PUT /:id or DELETE /:id resolves with nothing. *)
Theorem router_sends_envelope (route : Route) (req : Req) (db : Db) :
  ∃ res db',
    router route req db = (Return res, db') ∧
    match path route req db with
    | Success data =>
        is_success res data ∧ ¬ is_failure res ∧
        code res = match route with POST_root => 201 | _ => 200 end
    | NotFound =>
        is_failure res ∧ (∀ data, ¬ is_success res data) ∧ code res = 404 ∧
        route ∈ [POST_root; PUT_id; DELETE_id]
    | Failure =>
        is_failure res ∧ (∀ data, ¬ is_success res data) ∧ code res = 500
    end.
Proof.
  assert (Hfailed : ∀ text c,
    is_failure {| code := c; json := ok_false text |} ∧
    ∀ data, ¬ is_success {| code := c; json := ok_false text |} data).
  { intros text c. split; [by exists text|]. by intros data. }
  assert (Hok : ∀ data c,
    is_success {| code := c; json := ok_true data |} data ∧
    ¬ is_failure {| code := c; json := ok_true data |}).
  { intros data c. split; [done|]. by intros [msg ?]. }
  destruct route; cbn [router path]; unfold awaited.
  - rewrite get_by_id_run.
    destruct (Task_findById _ db) as [[task|e] db']; eexists _, _;
      (split; [done|]); [destruct (Hok (or_null task) 200)
                        | destruct (Hfailed "Failed to get task" 500)]; done.
  - destruct (body_missing req) eqn:Hb.
    + rewrite create_no_body by (rewrite <- body_missing_false; congruence).
      eexists _, _. split; [done|].
      by destruct (Hfailed "Failed to create task" 500).
    + apply body_missing_false in Hb. rewrite (create_run _ _ Hb).
      destruct (User_findById _ db) as [[found|e] db1].
      * destruct (truthy (VJson (or_null found))).
        -- destruct (Task_save _ db1) as [[task|e] db2]; eexists _, _;
             (split; [done|]); [destruct (Hok task 201)
                               | destruct (Hfailed "Failed to create task" 500)];
             done.
        -- eexists _, _. split; [done|].
           destruct (Hfailed "User not found" 404). repeat split; try done.
           repeat constructor.
      * eexists _, _. split; [done|].
        by destruct (Hfailed "Failed to create task" 500).
  - rewrite search_run.
    destruct (Task_find _ db) as [[tasks|e] db']; eexists _, _;
      (split; [done|]); [destruct (Hok (JArr tasks) 200)
                        | destruct (Hfailed "Failed to search tasks" 500)]; done.
  - destruct (body_missing req) eqn:Hb.
    + rewrite update_no_body by (rewrite <- body_missing_false; congruence).
      eexists _, _. split; [done|].
      by destruct (Hfailed "Failed to update task" 500).
    + apply body_missing_false in Hb. rewrite (update_run _ _ Hb).
      destruct (Task_findByIdAndUpdate _ _ db) as [[[task|]|e] db'];
        eexists _, _; (split; [done|]); simpl.
      * by destruct (Hok task 200).
      * destruct (Hfailed "Task not found" 404). repeat split; try done.
        repeat constructor.
      * by destruct (Hfailed "Failed to update task" 500).
  - rewrite delete_by_id_run.
    destruct (Task_findByIdAndDelete _ db) as [[[task|]|e] db'];
      eexists _, _; (split; [done|]); simpl.
    + by destruct (Hok task 200).
    + destruct (Hfailed "Task not found" 404). repeat split; try done.
      repeat constructor.
    + by destruct (Hfailed "Failed to delete task" 500).
Qed.

(** *** A task that is not there *)

(** C8 (amended). For an id that matches no task, the answer depends on
    how the query settles. When it resolves (with null, as for a well-formed
    id), GET /:id answers 200 with [{ ok: true, data: null }] while PUT /:id,
    on a request with a body, and DELETE /:id answer 404 with
    [{ ok: false, error: "Task not found" }]. When it rejects (as for an id
    that does not cast to an ObjectId), and for PUT /:id without a body, the
    answer is 500 with [ok: false]. *)
Theorem missing_task_read_vs_write (req : Req) (db : Db) :
  matches_no_task (params_id req) db →
  (get_by_id req db).1
  = Return (match (Task_findById (params_id req) db).1 with
            | Return _ => null_task
            | Throw _ => failed "Failed to get task"
            end) ∧
  (update req db).1
  = Return (if body_missing req then failed "Failed to update task"
            else match (Task_findByIdAndUpdate (params_id req)
                          (requested_update req) db).1 with
                 | Return _ => task_not_found
                 | Throw _ => failed "Failed to update task"
                 end) ∧
  (delete_by_id req db).1
  = Return (match (Task_findByIdAndDelete (params_id req) db).1 with
            | Return _ => task_not_found
            | Throw _ => failed "Failed to delete task"
            end).
Proof.
  intros (Hget & Hput & Hdel). split; [|split].
  - rewrite get_by_id_run.
    destruct (Task_findById _ db) as [[[task|]|e] db'] eqn:Hq; try done.
    by destruct (Hget task db').
  - destruct (body_missing req) eqn:Hb.
    + by rewrite update_no_body by (rewrite <- body_missing_false; congruence).
    + apply body_missing_false in Hb. rewrite (update_run _ _ Hb).
      destruct (Task_findByIdAndUpdate _ _ db) as [[[task|]|e] db'] eqn:Hq;
        try done.
      by destruct (Hput (requested_update req) task db').
  - rewrite delete_by_id_run.
    destruct (Task_findByIdAndDelete _ db) as [[[task|]|e] db'] eqn:Hq;
      try done.
    by destruct (Hdel task db').
Qed.

End handlers.

Lemma missing_task_read_vs_write_witness :
  matches_no_task "64b7f0c2a1d3e4f5a6b7c8d9" nothing_found ∧
  read_vs_write (req_for "64b7f0c2a1d3e4f5a6b7c8d9") nothing_found.
Proof.
  assert (matches_no_task "64b7f0c2a1d3e4f5a6b7c8d9" nothing_found) as Hno.
  { by repeat split. }
  split; [done|].
  exact (missing_task_read_vs_write (req_for "64b7f0c2a1d3e4f5a6b7c8d9")
           nothing_found Hno).
Defined.

(** C8 (as stated, refuted). The id "t9" matches no task, and GET /:id
    does not answer 200 with null data, nor do PUT /:id and DELETE /:id
    answer 404: the id does not cast to an ObjectId, the query rejects, and
    all three answer 500. *)
Lemma malformed_id_is_answered_500 :
  matches_no_task "t9" cast_failure ∧
  ¬ read_vs_write (req_for "t9") cast_failure ∧
  (get_by_id (req_for "t9") cast_failure).1
  = Return (failed "Failed to get task") ∧
  (update (req_for "t9") cast_failure).1
  = Return (failed "Failed to update task") ∧
  (delete_by_id (req_for "t9") cast_failure).1
  = Return (failed "Failed to delete task").
Proof.
  split; [by repeat split|]. split; [|done].
  by intros [Hget _].
Qed.

(** *** The schema *)

(** C5 (as stated, refuted). The [status] path of the Task schema is
    declared with an enumerated set of allowed values and with a default, so
    it is not true that no path has an enum or a default. *)
Lemma taskSchema_status_is_constrained :
  ¬ Forall (λ f, enum f = None ∧ default f = None) (fields taskSchema)
  ∧ ∃ f, f ∈ fields taskSchema ∧ field_name f = "status"
         ∧ enum f = Some ["todo"; "in_progress"; "review"; "done"]
         ∧ default f = Some (DefaultString "todo").
Proof.
  split.
  - intros Hall. rewrite Forall_forall in Hall.
    destruct (Hall {| field_name := "status"; field_type := TString;
                      enum := Some status_values;
                      default := Some (DefaultString "todo");
                      required := false |}) as [Henum _]; [|done].
    simpl. do 2 right. left.
  - eexists. split; [do 2 right; left|]. done.
Qed.

(** C5 (amended). No path the Task schema declares is required. The
    paths declared with an enumerated set of allowed values are [status]
    (todo, in_progress, review, done) and [priority] (low, medium, high);
    the paths declared with a default are these two, with "todo" and
    "medium", each one of the allowed values, and [comments], with the
    empty array. No other declared path has an enum or a default. Within a
    comment nothing is required or enumerated, and only [createdAt] has a
    default. *)
Theorem taskSchema_constraints (f : Field) :
  f ∈ fields taskSchema →
  required f = false ∧
  (∀ allowed,
     enum f = Some allowed ↔
     (field_name f = "status" ∧ allowed = status_values) ∨
     (field_name f = "priority" ∧ allowed = priority_values)) ∧
  (∀ d,
     default f = Some d ↔
     (field_name f = "status" ∧ d = DefaultString "todo") ∨
     (field_name f = "priority" ∧ d = DefaultString "medium") ∨
     (field_name f = "comments" ∧ d = DefaultEmptyArray)) ∧
  (∀ allowed d,
     enum f = Some allowed → default f = Some d →
     ∃ s, d = DefaultString s ∧ s ∈ allowed) ∧
  (field_type f = TArrayOf "commentSchema" →
   ∀ g, g ∈ fields commentSchema →
        required g = false ∧ enum g = None ∧
        (default g ≠ None ↔ field_name g = "createdAt")).
Proof.
  intros Hf. unfold taskSchema in Hf. simpl in Hf.
  repeat (apply elem_of_cons in Hf as [->|Hf]); [..|by apply elem_of_nil in Hf];
    (split; [done|]); (split; [|split; [|split]]); simpl;
    unfold status_values, priority_values;
    try (intros; split; intros; intuition congruence);
    try (intros ?? [= <-] [= <-]; eexists; split; [done|];
         repeat constructor);
    try done.
  intros _ g Hg. unfold commentSchema in Hg. simpl in Hg.
  repeat (apply elem_of_cons in Hg as [->|Hg]); [..|by apply elem_of_nil in Hg];
    simpl; intuition congruence.
Qed.

Lemma taskSchema_constraints_witness :
  ∃ status s,
    status ∈ fields taskSchema ∧ field_name status = "status" ∧
    default status = Some (DefaultString s) ∧ s ∈ status_values.
Proof.
  assert ({| field_name := "status"; field_type := TString;
             enum := Some status_values;
             default := Some (DefaultString "todo"); required := false |}
          ∈ fields taskSchema) as Hin by (do 2 right; left).
  destruct (taskSchema_constraints _ Hin) as (_ & _ & _ & Hd & _).
  destruct (Hd status_values (DefaultString "todo") eq_refl eq_refl)
    as (s & Hs & Hallowed).
  eexists _, s. split; [exact Hin|]. split; [done|]. split; [|done].
  simpl. by rewrite Hs.
Defined.

End TasksFacts.


(** ** Property reads *)

Module JsPropFacts.
Import Js.

(** A value that let one property be read lets any other be read. *)
Lemma get_prop_after_read j name name' v :
  get_prop (VJson j) name = Return v →
  ∃ v', get_prop (VJson j) name' = Return v'.
Proof. destruct j; simpl; try done; eauto. Qed.

Lemma get_prop_not_null j name :
  j ≠ JNull → ∃ v, get_prop (VJson j) name = Return v.
Proof. destruct j; simpl; try done; eauto. Qed.

Lemma get_prop_after_read_value v name name' x :
  get_prop v name = Return x → ∃ x', get_prop v name' = Return x'.
Proof.
  destruct v as [|j|e|r]; simpl; try done; eauto.
  destruct j; simpl; try done; eauto.
Qed.

(** A failed read throws a TypeError object. *)
Lemma get_prop_throws_error v name t :
  get_prop v name = Throw t → ∃ e, t = VError e.
Proof.
  destruct v as [|j|e|r]; simpl; try done.
  - intros [= <-]. unfold cannot_read, new_TypeError. eauto.
  - destruct j; try done. intros [= <-].
    unfold cannot_read, new_TypeError. eauto.
Qed.

(** *** Integers as doubles *)

Lemma nearest_double_small a : (a < 2 ^ 53)%Z → nearest_double a = Some a.
Proof.
  intros Ha. unfold nearest_double.
  by destruct (Z.ltb_spec a (2 ^ 53)); [|lia].
Qed.

Lemma nearest_double_positive a d :
  (1 ≤ a)%Z → nearest_double a = Some d → (1 ≤ d)%Z.
Proof.
  intros Ha. unfold nearest_double.
  destruct (Z.ltb_spec a (2 ^ 53)) as [Hs|Hs]; [by intros [= <-]|].
  set (e := (Z.log2 a - 52)%Z). set (q := (a / 2 ^ e)%Z).
  assert (53 ≤ Z.log2 a)%Z as Hlog.
  { rewrite <- (Z.log2_pow2 53) by lia. by apply Z.log2_le_mono. }
  assert (0 < 2 ^ e)%Z as He by (apply Z.pow_pos_nonneg; lia).
  assert (1 ≤ q)%Z as Hq.
  { apply Z.div_le_lower_bound; [done|].
    destruct (Z.log2_spec a) as [Hlo _]; [lia|].
    etrans; [|exact Hlo]. rewrite Z.mul_1_r.
    apply Z.pow_le_mono_r; lia. }
  destruct (_ || _);
    match goal with
    | |- context [(?x <? 2 ^ 1024)%Z] =>
        destruct (Z.ltb_spec x (2 ^ 1024)); [|done]
    end;
    intros [= <-]; nia.
Qed.

Lemma rounded_small z : (- 2 ^ 53 < z < 2 ^ 53)%Z → rounded z = z.
Proof.
  intros Hz. unfold rounded. rewrite nearest_double_small by lia.
  simpl. lia.
Qed.

Lemma rounded_positive z : (1 ≤ z)%Z → (1 ≤ rounded z)%Z.
Proof.
  intros Hz. unfold rounded. rewrite Z.sgn_pos, Z.abs_eq by lia.
  destruct (nearest_double z) as [d|] eqn:Hd; simpl; [|lia].
  pose proof (nearest_double_positive z d Hz Hd). lia.
Qed.

End JsPropFacts.

(** ** UserStatistics: fetching the data *)

Module UserDataFacts.
Import Js JsFacts JsPropFacts Ui UserData.

Lemma net_after_fetch req w : net (after_fetch req w) = tail (net w).
Proof. by destruct w. Qed.

(** One fetch and its [json()], in a component. *)
Lemma fetch_json_run {C A} req (k : Value → M (C * World) A) (c : C) w :
  bind (in_world (fetch req))
       (λ response, bind (lift_completion (reply_json response)) k) (c, w)
  = match json_body (head (net w)) with
    | Some j => k (VJson j) (c, after_fetch req w)
    | None => (Throw (no_json_error (head (net w))), (c, after_fetch req w))
    end.
Proof.
  unfold bind, in_world, lift_completion, reply_json, json_body,
    no_json_error. cbn [fst snd]. rewrite fetch_head.
  destruct (head (net w)) as [[e|r]|]; try done.
  by destruct (body r).
Qed.

Lemma fetchUserData_run userId c w :
  fetchUserData userId (c, w)
  = (Return tt,
     (setIsLoading false
        match loaded (net w) with
        | Some (u, t) => setTransactions t (setUser u (setIsLoading true c))
        | None => setIsLoading true c
        end,
      match caught_error (net w) with
      | Some e => log_failure e (fetched userId w)
      | None => fetched userId w
      end)).
Proof.
  unfold fetchUserData, try_finally, try_catch.
  unfold bind at 1. unfold set_state at 1, modify at 1. cbn [fst snd].
  rewrite fetch_json_run. unfold loaded, caught_error, fetched.
  destruct (json_body (head (net w))) as [j1|]; [|done].
  rewrite fetch_json_run, net_after_fetch.
  destruct (json_body (head (tail (net w)))) as [j2|]; [|done].
  unfold both_ok, flagged_ok, data_of, bind, lift_completion, ret,
    set_state, modify.
  destruct (get_prop (VJson j1) "ok") as [f1|t1] eqn:H1; [|done].
  destruct (truthy f1); [|done].
  destruct (get_prop (VJson j2) "ok") as [f2|t2] eqn:H2; [|done].
  destruct (truthy f2); [|done]. cbn [andb].
  destruct (get_prop_after_read j1 "ok" "data" f1 H1) as (d1 & ->).
  by destruct (get_prop_after_read j2 "ok" "data" f2 H2) as (d2 & ->).
Qed.

(** X1. Whatever the network does, the effect never rejects and ends
    with isLoading false. The user and the transactions are replaced
    together, by the two [data] fields, exactly when the next two replies
    both carry a JSON body whose [ok] is truthy; otherwise both stay as
    they were. The HTTP status of the replies plays no part. *)
Theorem fetchUserData_loads_both_or_nothing (userId : string)
    (c : Component) (w : World) :
  let r := fetchUserData userId (c, w) in
  r.1 = Return tt ∧
  isLoading r.2.1 = false ∧
  (user r.2.1, transactions r.2.1)
  = from_option id (user c, transactions c) (loaded (net w)).
Proof.
  rewrite fetchUserData_run. cbn zeta. split; [done|]. split; [done|].
  by destruct (loaded (net w)) as [[u t]|].
Qed.

(** X2. The effect asks for the user first and for the transactions only
    once the first reply was read as JSON; it sends each request at most
    once and consumes one outcome per request. *)
Theorem fetchUserData_requests (userId : string) (c : Component)
    (w : World) :
  let w' := (fetchUserData userId (c, w)).2.2 in
  let second := if json_body (head (net w)) is Some _ then 1 else 0 in
  sent w' = sent w ++ take (1 + second)
                           [user_request userId; transactions_request userId]
  ∧ net w' = drop (1 + second) (net w).
Proof.
  rewrite fetchUserData_run. cbn zeta. cbn [fst snd].
  assert (Hlog : ∀ e w0, sent (log_failure e w0) = sent w0
                         ∧ net (log_failure e w0) = net w0)
    by (by intros e []).
  assert (Hsent : sent (fetched userId w)
    = sent w ++ take (1 + (if json_body (head (net w)) is Some _ then 1 else 0))
                     [user_request userId; transactions_request userId]
    ∧ net (fetched userId w)
      = drop (1 + (if json_body (head (net w)) is Some _ then 1 else 0)) (net w)).
  { unfold fetched. destruct (json_body (head (net w))); destruct w as [n ?];
      simpl; [|by destruct n].
    rewrite <- app_assoc. split; [done|]. by destruct n as [|? [|? ?]]. }
  destruct (caught_error (net w)) as [e|]; [|done].
  destruct (Hlog e (fetched userId w)) as [-> ->]. done.
Qed.

(** X3. A failure is logged once, under "Failed to fetch user data", with
    the value that was thrown. But when both replies parse to JSON other
    than null nothing is thrown and nothing is logged, whatever their [ok]
    flags say: a refusal leaves no trace. *)
Theorem fetchUserData_logs (userId : string) (c : Component) (w : World) :
  console (fetchUserData userId (c, w)).2.2
  = console w ++ from_option (λ e, [("Failed to fetch user data", e)]) []
                             (caught_error (net w))
  ∧ (∀ j1 j2,
       json_body (head (net w)) = Some j1 →
       json_body (head (tail (net w))) = Some j2 →
       j1 ≠ JNull → j2 ≠ JNull →
       caught_error (net w) = None).
Proof.
  split.
  - rewrite fetchUserData_run. cbn [fst snd].
    assert (Hc : console (fetched userId w) = console w).
    { unfold fetched. by destruct (json_body _), w. }
    destruct (caught_error (net w)) as [e|]; simpl.
    + rewrite <- Hc. by destruct (fetched userId w).
    + by rewrite app_nil_r.
  - intros j1 j2 H1 H2 Hn1 Hn2. unfold caught_error. rewrite H1, H2.
    destruct (get_prop_not_null j1 "ok" Hn1) as (f1 & ->).
    destruct (get_prop_not_null j2 "ok" Hn2) as (f2 & ->).
    by destruct (truthy f1).
Qed.

Lemma fetchUserData_logs_witness :
  let refused := Reply {| status := 200;
                          body := JsonBody (JObj [("ok", JBool false)]) |} in
  caught_error [refused; refused] = None.
Proof.
  apply (proj2 (fetchUserData_logs "42" initial
           (world_with
              [Reply {| status := 200;
                        body := JsonBody (JObj [("ok", JBool false)]) |};
               Reply {| status := 200;
                        body := JsonBody (JObj [("ok", JBool false)]) |}]))
           (JObj [("ok", JBool false)]) (JObj [("ok", JBool false)]));
    done.
Defined.

End UserDataFacts.

(** ** The service file: what the service methods report *)

Module ServiceReportFacts.
Import Js JsFacts JsPropFacts Services ServicesFacts UserService.

Lemma settles_throws_error first v :
  settles first = Throw v → ∃ e, v = VError e.
Proof.
  destruct first as [[e|r]|]; simpl.
  - intros [= <-]. eauto.
  - destruct (body r) as [j|why]; [|intros [= <-]; unfold new_SyntaxError; eauto].
    destruct (ok r); [done|].
    assert (∃ e, api_error j = VError e) as (e & He).
    { unfold api_error, ToString, new_Error, cannot_convert.
      destruct (message_field j) as [m|]; [|eauto].
      destruct (truthy _); [destruct (converts m)|]; eauto. }
    destruct j; intros [= <-]; rewrite ?He;
      unfold cannot_read, new_TypeError; eauto.
  - intros [= <-]. unfold new_TypeError. eauto.
Qed.

Lemma report_failure_run e w :
  report_failure (VError e) w = (Return (Failed (VJson (JStr (message e)))), w).
Proof. done. Qed.

(** X4. register and getUserProfile never reject. On success they return
    the parsed body under [user] and [profile]; every failure of the
    underlying request comes back as [{ success: false, error }] where
    [error] is the message of the error, a string. *)
Theorem service_calls_report (userData : Value) (w : World) :
  (Services.register userData w).1
  = Return (reported "user" (head (net w))) ∧
  (getUserProfile w).1 = Return (reported "profile" (head (net w))) ∧
  (∀ key first error,
     reported key first = Failed error → ∃ msg, error = VJson (JStr msg)).
Proof.
  split; [|split].
  - unfold Services.register, try_catch, bind, reported.
    rewrite apiClient_post_run.
    destruct (settles (head (net w))) as [v|v] eqn:Hs; [done|].
    by destruct (settles_throws_error _ _ Hs) as (e & ->).
  - unfold getUserProfile, try_catch, bind, reported.
    rewrite apiClient_get_run.
    destruct (settles (head (net w))) as [v|v] eqn:Hs; [done|].
    by destruct (settles_throws_error _ _ Hs) as (e & ->).
  - intros key first error. unfold reported.
    destruct (settles first) as [v|v] eqn:Hs; [done|].
    destruct (settles_throws_error _ _ Hs) as (e & ->).
    intros [= <-]. eauto.
Qed.

Lemma service_calls_report_witness :
  ∃ msg,
    reported "profile" (Some (NetFail {| kind := TypeError;
                                         message := "Failed to fetch" |}))
    = Failed (VJson (JStr msg)).
Proof.
  destruct (service_calls_report VUndefined (world_with []))
    as (_ & _ & Hstring).
  destruct (Hstring "profile"
              (Some (NetFail {| kind := TypeError;
                                message := "Failed to fetch" |}))
              (VJson (JStr "Failed to fetch")) eq_refl) as (msg & Hmsg).
  exists msg. by rewrite <- Hmsg.
Defined.

Section login_facts.
Variable setToken : Value → M World unit.

(** [setToken] returns normally. *)
Hypothesis setToken_returns : ∀ token w, ∃ w', setToken token w = (Return tt, w').

(** X5. Provided setToken returns, login never rejects: it returns
    [{ success: true, user, isAdmin }] or [{ success: false, error }] with
    a string for [error]. *)
Theorem login_never_rejects (email password : string) (w : World) :
  ∃ w',
    (∃ user isAdmin,
       Services.login setToken email password w
       = (Return (Succeeded [("user", user); ("isAdmin", isAdmin)]), w'))
    ∨ (∃ msg,
         Services.login setToken email password w
         = (Return (Failed (VJson (JStr msg))), w')).
Proof.
  unfold Services.login, try_catch, bind. rewrite apiClient_post_run.
  destruct (settles (head (net w))) as [data|v] eqn:Hs.
  - unfold lift_completion.
    destruct (get_prop data "token") as [token|t] eqn:Ht.
    + destruct (setToken_returns token
        (leaves "API POST error:" (login_request email password) w))
        as (w2 & Hset).
      unfold login_request in Hset. rewrite Hset.
      apply settles_Return in Hs as (r & j & _ & _ & _ & ->).
      destruct (get_prop_after_read j "token" "user" token Ht) as (user & ->).
      unfold localStorage_setItem, modify, ret.
      destruct (get_prop user "isAdmin") as [isAdmin|t] eqn:Ha.
      * eexists. left. eauto.
      * destruct (get_prop_throws_error _ _ _ Ha) as (e & ->).
        rewrite report_failure_run. eexists. right. eauto.
    + destruct (get_prop_throws_error _ _ _ Ht) as (e & ->).
      rewrite report_failure_run. eexists. right. eauto.
  - destruct (settles_throws_error _ _ Hs) as (e & ->).
    rewrite report_failure_run. eexists. right. eauto.
Qed.

(** X6. login can fail after it has written: when the reply is ok and its
    JSON object has no [user], the token is handed to setToken and the text
    "undefined" is stored under "user" before [data.user.isAdmin] throws;
    the caller is told [{ success: false }]. *)
Theorem login_writes_before_failing (email password : string) (w w2 : World)
    (r : HttpReply) (fields : list (string * Json)) :
  head (net w) = Some (Reply r) → ok r = true →
  body r = JsonBody (JObj fields) →
  field_lookup fields "user" = None →
  setToken (from_option VJson VUndefined (field_lookup fields "token"))
           (after_fetch (login_request email password) w)
  = (Return tt, w2) →
  Services.login setToken email password w
  = (Return (Failed (VJson (JStr
       "Cannot read properties of undefined (reading 'isAdmin')"))),
     set_localStorage (λ m, <["user" := Raw "undefined"]> m) w2).
Proof.
  intros Hhead Hok Hbody Huser Hset.
  unfold Services.login, try_catch, bind. rewrite apiClient_post_run.
  unfold leaves. rewrite Hhead. simpl. rewrite Hbody, Hok.
  unfold lift_completion. simpl. fold (login_request email password).
  rewrite Hset, Huser. done.
Qed.

End login_facts.

Lemma login_never_rejects_witness :
  ∃ w',
    (∃ user isAdmin,
       Services.login store_token "ada@example.org" "secret"
                      (world_with [Reply login_reply])
       = (Return (Succeeded [("user", user); ("isAdmin", isAdmin)]), w'))
    ∨ (∃ msg,
         Services.login store_token "ada@example.org" "secret"
                        (world_with [Reply login_reply])
         = (Return (Failed (VJson (JStr msg))), w')).
Proof.
  apply (login_never_rejects store_token).
  intros token w. by eexists.
Defined.

Lemma login_writes_before_failing_witness :
  localStorage
    (Services.login store_token "ada@example.org" "secret"
       (world_with [Reply {| status := 200;
                             body := JsonBody (JObj [("token", JStr "abc")]) |}])).2
    !! "user"
  = Some (Raw "undefined").
Proof.
  erewrite (login_writes_before_failing store_token "ada@example.org" "secret"
              (world_with [Reply {| status := 200;
                 body := JsonBody (JObj [("token", JStr "abc")]) |}]));
    [|done..].
  by vm_compute.
Defined.

End ServiceReportFacts.

(** ** The task router: failures, missing bodies, and what is saved *)

Module TasksMoreFacts.
Import Js JsPropFacts Tasks TasksFacts.

Section handlers.
Context {Db : Type} `{Models Db}.

(** X7. A request without a body is answered 500 by POST / and by
    PUT /:id before any query is made: the database is left untouched. *)
Theorem no_body_is_answered_500 (req : Req) (db : Db) :
  ¬ has_body req →
  create req db
  = (Return {| code := 500; json := ok_false "Failed to create task" |}, db)
  ∧ update req db
    = (Return {| code := 500; json := ok_false "Failed to update task" |}, db).
Proof.
  intros Hb. by rewrite create_no_body, update_no_body.
Qed.

(** X8. POST / with a body whose user_id matches no user answers 404
    "User not found" and saves nothing: the database is as the user lookup
    left it. *)
Theorem create_unknown_user (req : Req) (db db' : Db) :
  has_body req →
  User_findById (body_value req "user_id") db = (Return None, db') →
  create req db
  = (Return {| code := 404; json := ok_false "User not found" |}, db').
Proof.
  intros Hb Hu. rewrite (create_run _ _ Hb). by rewrite Hu.
Qed.

(** X9. POST / for a user that exists hands one object literal to
    [new Task], saves it, and answers 201 with what [save] resolved with, or
    500 when [save] rejects. The literal has title, description, status,
    priority and dueDate as the body has them and createdBy made of the
    user's _id, name, email and avatar, and nothing else: two requests that
    agree on these five properties and on user_id are answered alike,
    whatever else their bodies hold (assignedTo, comments, ...). *)
Theorem create_saves_task (req : Req) (user : Json) (db db1 : Db) :
  has_body req →
  User_findById (body_value req "user_id") db = (Return (Some user), db1) →
  truthy (VJson user) = true →
  create req db
  = (match (Task_save (new_task req user) db1).1 with
     | Return saved => Return {| code := 201; json := ok_true saved |}
     | Throw _ =>
         Return {| code := 500; json := ok_false "Failed to create task" |}
     end, (Task_save (new_task req user) db1).2)
  ∧ (new_task req user).*1
    = ["title"; "description"; "status"; "priority"; "dueDate"; "createdBy"]
  ∧ ∀ req',
      has_body req' →
      (∀ name,
         name ∈ ["title"; "description"; "status"; "user_id"; "priority";
                 "dueDate"] →
         body_value req' name = body_value req name) →
      create req' db = create req db.
Proof.
  intros Hb Hu Htruthy. split; [|split; [done|]].
  - rewrite (create_run _ _ Hb), Hu. cbn [or_null from_option id].
    rewrite Htruthy. by destruct (Task_save _ db1) as [[saved|e] db2].
  - intros req' Hb' Hsame.
    rewrite (create_run _ _ Hb), (create_run _ _ Hb').
    assert (∀ found, new_task req' found = new_task req found) as Hnew.
    { intros found. unfold new_task.
      by rewrite !Hsame by (apply (bool_decide_unpack _); by vm_compute). }
    rewrite (Hsame "user_id") by (apply (bool_decide_unpack _); by vm_compute).
    destruct (User_findById _ db) as [[found|e] db2]; [|done].
    by rewrite Hnew.
Qed.

(** X10. In a state of the database in which every query rejects, every
    route answers 500 with [ok: false], whatever the request. *)
Theorem router_answers_500_when_queries_reject (route : Route) (req : Req)
    (db : Db) :
  queries_reject db →
  ∃ msg db',
    router route req db
    = (Return {| code := 500; json := ok_false msg |}, db').
Proof.
  intros (Hget & Hfind & Hupd & Hdel & Husr).
  destruct route; simpl.
  - rewrite get_by_id_run.
    destruct (Hget (params_id req)) as (e & db' & ->). by eexists _, _.
  - destruct (body_missing req) eqn:Hb.
    + rewrite create_no_body by (rewrite <- body_missing_false; congruence).
      by eexists _, _.
    + apply body_missing_false in Hb. rewrite (create_run _ _ Hb).
      destruct (Husr (body_value req "user_id")) as (e & db' & ->).
      by eexists _, _.
  - rewrite search_run.
    destruct (Hfind (req_body req)) as (e & db' & ->). by eexists _, _.
  - destruct (body_missing req) eqn:Hb.
    + rewrite update_no_body by (rewrite <- body_missing_false; congruence).
      by eexists _, _.
    + apply body_missing_false in Hb. rewrite (update_run _ _ Hb).
      destruct (Hupd (params_id req) (requested_update req))
        as (e & db' & ->).
      by eexists _, _.
  - rewrite delete_by_id_run.
    destruct (Hdel (params_id req)) as (e & db' & ->). by eexists _, _.
Qed.

(** X11. When the task is there, GET /:id, PUT /:id and DELETE /:id answer
    200 with the document the model resolved with, and POST /search answers
    200 with the array of documents found, empty or not. *)
Theorem found_task_is_returned (req : Req) (task : Json) (found : list Json)
    (db db' : Db) :
  (Task_findById (params_id req) db = (Return (Some task), db') →
   get_by_id req db
   = (Return {| code := 200; json := ok_true task |}, db')) ∧
  (has_body req →
   Task_findByIdAndUpdate (params_id req) (requested_update req) db
   = (Return (Some task), db') →
   update req db = (Return {| code := 200; json := ok_true task |}, db')) ∧
  (Task_findByIdAndDelete (params_id req) db = (Return (Some task), db') →
   delete_by_id req db
   = (Return {| code := 200; json := ok_true task |}, db')) ∧
  (Task_find (req_body req) db = (Return found, db') →
   search req db
   = (Return {| code := 200; json := ok_true (JArr found) |}, db')).
Proof.
  split; [|split; [|split]].
  - intros Hq. by rewrite get_by_id_run, Hq.
  - intros Hb Hq. by rewrite (update_run _ _ Hb), Hq.
  - intros Hq. by rewrite delete_by_id_run, Hq.
  - intros Hq. by rewrite search_run, Hq.
Qed.

End handlers.

Lemma no_body_is_answered_500_witness :
  create req_without_body nothing_found
  = (Return {| code := 500; json := ok_false "Failed to create task" |},
     nothing_found).
Proof.
  apply (no_body_is_answered_500 req_without_body nothing_found).
  by intros [? _].
Defined.

Lemma create_unknown_user_witness :
  create (req_from "64b7f0c2a1d3e4f5a6b7c8e0") nothing_found
  = (Return {| code := 404; json := ok_false "User not found" |},
     nothing_found).
Proof.
  by apply (create_unknown_user (req_from "64b7f0c2a1d3e4f5a6b7c8e0")
              nothing_found nothing_found).
Defined.

Lemma create_saves_task_witness :
  create (req_from "64b7f0c2a1d3e4f5a6b7c8e0") found_both
  = (Return {| code := 201; json := ok_true a_task |}, found_both).
Proof.
  destruct (create_saves_task (req_from "64b7f0c2a1d3e4f5a6b7c8e0") a_user
              found_both found_both) as (Hrun & _); [done..|].
  exact Hrun.
Defined.

Lemma router_answers_500_when_queries_reject_witness :
  ∃ msg db',
    router GET_id (req_for "64b7f0c2a1d3e4f5a6b7c8d9") unreachable
    = (Return {| code := 500; json := ok_false msg |}, db').
Proof.
  apply (router_answers_500_when_queries_reject GET_id
           (req_for "64b7f0c2a1d3e4f5a6b7c8d9") unreachable).
  unfold queries_reject. repeat apply conj; intros; by eexists _, _.
Defined.

Lemma found_task_is_returned_witness :
  (get_by_id (req_for "64b7f0c2a1d3e4f5a6b7c8d9") found_both).1
  = Return {| code := 200; json := ok_true a_task |}.
Proof.
  erewrite (proj1 (found_task_is_returned
                     (req_for "64b7f0c2a1d3e4f5a6b7c8d9")
                     _ [] found_both found_both)); done.
Defined.

End TasksMoreFacts.

(** ** The API wrapper and the order utilities *)

Module OrdersMoreFacts.
Import Js JsFacts JsPropFacts Orders OrdersFacts.

Section api_more.
Variable apiURL : string.

Lemma api_settles_Return strict first v :
  api_settles strict first = Return v
  ↔ ∃ r j, first = Some (Reply r) ∧ body r = JsonBody j
           ∧ (strict = true → Js.status r = 200) ∧ v = VJson j.
Proof.
  split.
  - destruct first as [[e|r]|]; simpl; try done.
    destruct (body r) as [j|why] eqn:Hb; [|done].
    destruct strict; simpl.
    + case_bool_decide as Hs; [done|]. intros [= <-].
      exists r, j. split; [done|]. split; [done|].
      split; [intros _; lia | done].
    + intros [= <-]. by exists r, j.
  - intros (r & j & -> & Hb & Hs & ->). simpl. rewrite Hb.
    destruct strict; simpl; [|done].
    by rewrite bool_decide_eq_false_2 by (rewrite Hs; auto).
Qed.

(** X12. API.post resolves only on status 200: any other status, 201
    Created included, rejects with the parsed body. API.get and API.put
    resolve with the parsed body whatever the status is, error statuses
    included. All three reject when the fetch fails or the body is not
    JSON. *)
Theorem api_post_resolves_only_on_200 (path : string) (payload v : Value)
    (w : World) :
  ((post apiURL path payload w).1 = Return v
   ↔ ∃ r j, head (net w) = Some (Reply r) ∧ body r = JsonBody j
            ∧ Js.status r = 200 ∧ v = VJson j) ∧
  ((put apiURL path payload w).1 = Return v
   ↔ ∃ r j, head (net w) = Some (Reply r) ∧ body r = JsonBody j
            ∧ v = VJson j) ∧
  ((get apiURL path w).1 = Return v
   ↔ ∃ r j, head (net w) = Some (Reply r) ∧ body r = JsonBody j
            ∧ v = VJson j) ∧
  (∀ r j, head (net w) = Some (Reply r) → body r = JsonBody j →
          Js.status r ≠ 200 →
          (post apiURL path payload w).1 = Throw (VJson j)).
Proof.
  rewrite api_post_run, api_put_run, api_get_run. cbn [fst].
  rewrite !api_settles_Return.
  split; [|split; [|split]].
  - split.
    + intros (r & j & ? & ? & Hs & ?). exists r, j. auto.
    + intros (r & j & ? & ? & Hs & ?). exists r, j. auto.
  - split.
    + intros (r & j & ? & ? & _ & ?). by exists r, j.
    + intros (r & j & ? & ? & ?). by exists r, j.
  - split.
    + intros (r & j & ? & ? & _ & ?). by exists r, j.
    + intros (r & j & ? & ? & ?). by exists r, j.
  - intros r j -> Hb Hs. simpl. rewrite Hb. simpl.
    by rewrite bool_decide_eq_true_2.
Qed.

(** X13. The token set on the API object is what getToken returns and
    what the next request carries as "JWT <token>" in its Authorization
    header; after removeToken the header is "JWT " with nothing behind. *)
Theorem api_token_is_sent (token path : string) (w : World) :
  let w1 := (setToken token w).2 in
  (getToken w1).1 = Return token ∧
  sent (get apiURL path w1).2
  = sent w ++ [{| url := apiURL +:+ path; method := "GET";
                  authorization := Some ("JWT " +:+ token);
                  payload := VUndefined |}] ∧
  sent (get apiURL path (removeToken w1).2).2
  = sent w ++ [{| url := apiURL +:+ path; method := "GET";
                  authorization := Some "JWT ";
                  payload := VUndefined |}].
Proof.
  cbn zeta. rewrite !api_get_run. by destruct w.
Qed.

(** X14. Each dashboard call issues exactly one request and consumes one
    outcome: sendReminderEmail a POST to /orders/<id>/send-reminder without
    a body, fetchOrders a POST to /orders/search with the current filters,
    markAsShipped a PUT to /orders/<id> with [{ status: "shipped" }]; each
    carries the token of the API object. *)
Theorem dashboard_calls_send_one_request (orderId : OrderId)
    (d : Dashboard) (w : World) :
  let sends (w' : World) (verb path : string) (payload : Value) :=
    sent w' = sent w ++ [{| url := apiURL +:+ path; method := verb;
                            authorization := Some ("JWT " +:+ api_token w);
                            payload := payload |}]
    ∧ net w' = tail (net w) in
  sends (sendReminderEmail apiURL orderId w).2 "POST"
        ("/orders/" +:+ id_text orderId +:+ "/send-reminder") VUndefined ∧
  sends (fetchOrders apiURL (d, w)).2.2 "POST" "/orders/search"
        (VJson (filters d)) ∧
  sends (markAsShipped apiURL orderId (d, w)).2.2 "PUT"
        ("/orders/" +:+ id_text orderId)
        (VJson (JObj [("status", JStr "shipped")])).
Proof.
  cbn zeta.
  rewrite sendReminderEmail_run, fetchOrders_run, markAsShipped_run.
  cbn zeta.
  destruct (get_prop (caught true (head (net w))) "message") as [m|];
    [destruct (to_String m)|];
    (destruct (get_prop (caught false (head (net w))) "message") as [m'|];
     [destruct (to_String m')|]);
    by destruct w.
Qed.

End api_more.

Lemma api_post_resolves_only_on_200_witness :
  (post "https://shop.example" "/orders" VUndefined
     (world_with [Reply {| Js.status := 201;
                           body := JsonBody (JObj [("id", JNum 7)]) |}])).1
  = Throw (VJson (JObj [("id", JNum 7)])).
Proof.
  destruct (api_post_resolves_only_on_200 "https://shop.example" "/orders"
              VUndefined VUndefined
              (world_with [Reply {| Js.status := 201;
                 body := JsonBody (JObj [("id", JNum 7)]) |}]))
    as (_ & _ & _ & Hreject).
  by apply (Hreject {| Js.status := 201;
                       body := JsonBody (JObj [("id", JNum 7)]) |}).
Defined.

(** *** Marking orders as shipped *)







(** *** Customers *)

Lemma Set_add_fold_prefix values s :
  s `prefix_of` fold_left Set_add values s.
Proof.
  revert s. induction values as [|x values IH]; intros s; [done|]. simpl.
  etrans; [|apply IH]. unfold Set_add. case_decide; [done|].
  by apply prefix_app_r.
Qed.

(** X17. Customer emails come out in the order of their first order: the
    list for the orders so far is a prefix of the list after more orders
    are added, so a customer already listed keeps their place. *)
Theorem getCustomerEmails_grows_at_the_end (orders more : list Order) :
  getCustomerEmails orders `prefix_of` getCustomerEmails (orders ++ more).
Proof.
  unfold getCustomerEmails, new_Set. rewrite fmap_app, fold_left_app.
  apply Set_add_fold_prefix.
Qed.

End OrdersMoreFacts.

(** ** The product search exercise *)

Module ProductSearchFacts.
Import Js JsFacts JsPropFacts Ui ProductSearchUI.

(** *** Plain objects *)

Section object_facts.
Context {A : Type}.
Implicit Types (o : list (string * A)) (k : string) (v : A).

Lemma assoc_lookup_app o k v k' :
  assoc_lookup (o ++ [(k, v)]) k'
  = match assoc_lookup o k' with
    | Some x => Some x
    | None => if decide (k = k') then Some v else None
    end.
Proof.
  induction o as [|[k0 v0] o IH]; simpl; [done|].
  by destruct (decide (k0 = k')).
Qed.

Lemma assoc_lookup_set o k v k' :
  assoc_lookup (assoc_set o k v) k'
  = if decide (k = k') then Some v else assoc_lookup o k'.
Proof.
  induction o as [|[k0 v0] o IH]; simpl.
  - repeat case_decide; congruence.
  - destruct (decide (k0 = k)) as [->|Hne]; simpl.
    + repeat case_decide; congruence.
    + rewrite IH. repeat case_decide; congruence.
Qed.

Lemma assoc_lookup_None o k : assoc_lookup o k = None ↔ k ∉ o.*1.
Proof.
  induction o as [|[k0 v0] o IH]; simpl.
  - split; [intros _ ?%elem_of_nil; done | done].
  - rewrite not_elem_of_cons. destruct (decide (k0 = k)) as [->|Hne].
    + split; [done | intros [? _]; done].
    + rewrite IH. intuition congruence.
Qed.

Lemma assoc_lookup_elem o k v :
  NoDup o.*1 → (k, v) ∈ o ↔ assoc_lookup o k = Some v.
Proof.
  induction o as [|[k0 v0] o IH]; simpl; intros Hnd.
  - split; [by intros ?%elem_of_nil | done].
  - apply NoDup_cons in Hnd as [Hk0 Hnd]. rewrite elem_of_cons.
    destruct (decide (k0 = k)) as [->|Hne].
    + split; [|intros [= ->]; by left].
      intros [[= ->]|Hin]; [done|]. exfalso. apply Hk0.
      apply list_elem_of_fmap. by exists (k, v).
    + rewrite <- IH by done. split; [|auto]. intros [[= ? ?]|?]; [done|done].
Qed.

Lemma assoc_set_keys o k v :
  k ∈ o.*1 → (assoc_set o k v).*1 = o.*1.
Proof.
  induction o as [|[k0 v0] o IH]; simpl.
  - by intros ?%elem_of_nil.
  - intros Hin. destruct (decide (k0 = k)) as [->|Hne]; csimpl; [done|].
    f_equal. apply IH. apply elem_of_cons in Hin as [?|?]; [congruence|done].
Qed.

Lemma assoc_set_keys_new o k v :
  k ∉ o.*1 → (assoc_set o k v).*1 = o.*1 ++ [k].
Proof.
  induction o as [|[k0 v0] o IH]; simpl; [done|].
  intros [Hne Hk]%not_elem_of_cons.
  rewrite decide_False by done. csimpl. f_equal. by apply IH.
Qed.

(** [Object.entries] lists every own property once. *)
Lemma Object_entries_perm o : Object_entries o ≡ₚ o.
Proof.
  unfold Object_entries. rewrite merge_sort_Permutation.
  unfold indexed_entries, named_entries.
  induction o as [|[k v] o IH]; [done|].
  rewrite filter_cons. simpl.
  destruct (UserStatistics.array_index k) as [n|] eqn:E; simpl.
  - apply perm_skip, IH.
  - rewrite <- Permutation_middle. apply perm_skip, IH.
Qed.

End object_facts.

(** *** Grouping the products *)

Lemma in_category_snoc c seen p :
  in_category c (seen ++ [p])
  = in_category c seen ++ (if decide (category p = c) then [p] else []).
Proof.
  unfold in_category. rewrite filter_app, filter_cons, filter_nil.
  by destruct (decide (category p = c)).
Qed.

Lemma group_step_safe acc seen p :
  category p ∉ UserStatistics.inherited_names → grouped acc seen →
  ∃ acc', group_step (Return acc) p = Return acc'
          ∧ grouped acc' (seen ++ [p]).
Proof.
  intros Hsafe [Hnd Hlk]. unfold group_step.
  pose proof (Hlk (category p)) as Hcur.
  destruct (assoc_lookup acc (category p)) as [group|] eqn:Hc.
  - eexists. split; [done|]. split.
    + rewrite assoc_set_keys; [done|].
      apply dec_stable. intros Hout. apply assoc_lookup_None in Hout.
      congruence.
    + intros c. rewrite assoc_lookup_set, in_category_snoc.
      destruct (decide (category p = c)) as [<-|Hne].
      * destruct (in_category (category p) seen) as [|x xs]; [done|].
        by injection Hcur as ->.
      * rewrite app_nil_r. apply Hlk.
  - rewrite decide_False by done. eexists. split; [done|]. split.
    + rewrite fmap_app. apply NoDup_app. split; [done|].
      split; [|apply NoDup_singleton].
      intros k Hk Hk'%list_elem_of_singleton. simpl in Hk'. subst k.
      by apply assoc_lookup_None in Hc.
    + intros c. rewrite assoc_lookup_app, in_category_snoc, Hlk.
      destruct (decide (category p = c)) as [<-|Hne].
      * by destruct (in_category (category p) seen).
      * rewrite app_nil_r. by destruct (in_category c seen).
Qed.

Lemma categorized_safe products acc seen :
  Forall (λ p, category p ∉ UserStatistics.inherited_names) products →
  grouped acc seen →
  ∃ acc', fold_left group_step products (Return acc) = Return acc'
          ∧ grouped acc' (seen ++ products).
Proof.
  revert acc seen. induction products as [|p products IH];
    intros acc seen Hsafe Hacc.
  - exists acc. by rewrite app_nil_r.
  - apply Forall_cons in Hsafe as [Hp Hsafe].
    destruct (group_step_safe acc seen p Hp Hacc) as (acc1 & Hstep & Hacc1).
    destruct (IH acc1 (seen ++ [p]) Hsafe Hacc1) as (acc' & Hfold & Hacc').
    exists acc'. cbn [fold_left]. rewrite Hstep, Hfold. split; [done|].
    by rewrite <- app_assoc in Hacc'.
Qed.

(** X18. When no category is a name that [Object.prototype] answers to,
    ProductList renders one section per category that occurs, each once, and
    the section of a category holds exactly the products of that category,
    in the order of the list: the sections partition the products. *)
Theorem ProductList_sections (products : list Product) :
  Forall (λ p, category p ∉ UserStatistics.inherited_names) products →
  ∃ sections,
    ProductList products = Return sections ∧
    NoDup sections.*1 ∧
    ∀ c group,
      (c, group) ∈ sections
      ↔ group = in_category c products ∧ group ≠ [].
Proof.
  intros Hsafe.
  destruct (categorized_safe products [] [] Hsafe) as (acc & Hacc & Hnd & Hlk).
  { split; [constructor | done]. }
  exists (Object_entries acc). unfold ProductList, categorizedProducts.
  rewrite Hacc. split; [done|]. split.
  - by rewrite (Object_entries_perm acc).
  - intros c group. rewrite (Object_entries_perm acc).
    rewrite (assoc_lookup_elem acc c group Hnd), Hlk. simpl.
    destruct (in_category c products) as [|x xs].
    + split; [done|]. by intros [-> ?].
    + split; [by intros [= <-] | by intros [-> _]].
Qed.

Lemma fold_group_step_thrown products v :
  fold_left group_step products (Throw v) = Throw v.
Proof. by induction products. Qed.

Lemma categorized_inherited products acc :
  Forall (λ k, k ∉ UserStatistics.inherited_names) acc.*1 →
  Exists (λ p, category p ∈ UserStatistics.inherited_names) products →
  fold_left group_step products (Return acc) = Throw push_error.
Proof.
  revert acc. induction products as [|p products IH]; intros acc Hacc Hex.
  { by apply Exists_nil in Hex. }
  cbn [fold_left]. unfold group_step at 2.
  destruct (decide (category p ∈ UserStatistics.inherited_names))
    as [Hin|Hout].
  - assert (assoc_lookup acc (category p) = None) as ->.
    { apply assoc_lookup_None. intros Hk.
      by eapply (proj1 (Forall_forall _ _) Hacc). }
    apply fold_group_step_thrown.
  - apply Exists_cons in Hex as [?|Hex]; [done|].
    destruct (assoc_lookup acc (category p)) as [group|] eqn:Hc.
    + apply IH; [|done]. rewrite assoc_set_keys; [done|].
      apply dec_stable. intros Hk. apply assoc_lookup_None in Hk. congruence.
    + apply IH; [|done]. rewrite fmap_app. apply Forall_app. split; [done|].
      by repeat constructor.
Qed.

(** X19. When some product has a category that [Object.prototype] answers
    to (constructor, toString, __proto__, ...), the grouping throws a
    TypeError: [acc[category]] is then the inherited function or object,
    which is truthy and has no [push]. *)
Theorem ProductList_throws_on_inherited_name (products : list Product) :
  Exists (λ p, category p ∈ UserStatistics.inherited_names) products →
  ProductList products = Throw push_error.
Proof.
  intros Hex. unfold ProductList, categorizedProducts.
  by rewrite (categorized_inherited products []) by (done || constructor).
Qed.

Lemma ProductList_sections_witness :
  ∃ sections,
    ProductList [shirt "clothing"; shirt "home"; shirt "clothing"]
    = Return sections ∧
    (("clothing", [shirt "clothing"; shirt "clothing"]) ∈ sections).
Proof.
  destruct (ProductList_sections
              [shirt "clothing"; shirt "home"; shirt "clothing"])
    as (sections & Hrun & _ & Hin).
  { apply (bool_decide_unpack _). by vm_compute. }
  exists sections. split; [done|]. by apply Hin.
Defined.

Lemma ProductList_throws_on_inherited_name_witness :
  ProductList [shirt "clothing"; shirt "constructor"] = Throw push_error.
Proof.
  apply ProductList_throws_on_inherited_name.
  apply Exists_cons. right. apply Exists_cons. left.
  apply (bool_decide_unpack _). by vm_compute.
Defined.

(** *** useProductSearch *)

Section fetchProducts_facts.
Variable params_toString : list (string * string) → string.
Variable statusText : HttpReply → string.

Lemma fetchProducts_run query filters page sortBy s w :
  query ≠ "" →
  fetchProducts params_toString statusText query filters page sortBy (s, w)
  = (Return tt,
     match search_error statusText (head (net w)) with
     | Some e =>
         (setLoading false
            (setError (shown_error e)
               (setError (VJson JNull) (setLoading true s))),
          log_search_error e
            (after_fetch (search_request params_toString query filters page sortBy) w))
     | None =>
         (setLoading false
            (setProducts (delivered (head (net w)))
               (setError (VJson JNull) (setLoading true s))),
          after_fetch (search_request params_toString query filters page sortBy) w)
     end).
Proof.
  intros Hq. unfold fetchProducts.
  rewrite bool_decide_eq_false_2 by done.
  unfold try_finally, try_catch, bind, set_state, modify, in_world, throw,
    lift_completion, reply_json, ret, console_error.
  cbn [fst snd]. rewrite fetch_head.
  unfold search_error, delivered.
  destruct (head (net w)) as [[e|r]|]; try done.
  destruct (ok r); [|done]. cbn [negb].
  destruct (body r) as [j|why]; [|done].
  by destruct j.
Qed.

(** X20. With an empty query fetchProducts does nothing at all: no
    request, no change of state. With any other query it sends exactly one
    GET to /api/products/search with the serialised parameters, never
    rejects, and leaves loading false. *)
Theorem fetchProducts_sends_one_request (query : string)
    (filters : list (string * Json)) (page : Z) (sortBy : string)
    (s : Search) (w : World) :
  let r := fetchProducts params_toString statusText query filters page sortBy (s, w) in
  (query = "" → r = (Return tt, (s, w))) ∧
  (query ≠ "" →
     r.1 = Return tt ∧ loading r.2.1 = false ∧
     sent r.2.2 = sent w ++ [search_request params_toString query filters page sortBy] ∧
     net r.2.2 = tail (net w)).
Proof.
  cbn zeta. split.
  - intros ->. done.
  - intros Hq. rewrite (fetchProducts_run _ _ _ _ _ _ Hq). cbn [fst snd].
    by destruct (search_error statusText (head (net w))), w.
Qed.

(** X21. What a search leaves in state. If the reply is ok with a JSON
    body other than null, the products become [data.products], or [[]] when
    that is missing or falsy, the error is null and nothing is logged. In
    every other case the products stay as they were, the caught error is
    logged once under "Search error:", and the error shown is its message,
    or "Failed to fetch products. Please try again." when the message is
    empty; for a reply that is not ok the message is
    "Server responded with <status>: <statusText>" and the body is not
    read. *)
Theorem fetchProducts_result (query : string)
    (filters : list (string * Json)) (page : Z) (sortBy : string)
    (s : Search) (w : World) :
  query ≠ "" →
  let r := fetchProducts params_toString statusText query filters page sortBy (s, w) in
  match search_error statusText (head (net w)) with
  | None =>
      products r.2.1 = delivered (head (net w)) ∧
      error r.2.1 = VJson JNull ∧
      console r.2.2 = console w
  | Some e =>
      products r.2.1 = products s ∧
      error r.2.1
      = VJson (JStr (if bool_decide (message e = "")
                     then search_failure_text else message e)) ∧
      console r.2.2 = console w ++ [("Search error:", VError e)]
  end
  ∧ (∀ reply, head (net w) = Some (Reply reply) → ok reply = false →
       search_error statusText (head (net w))
       = Some {| kind := PlainError;
                 message := responded_with statusText reply |})
  ∧ (∀ reply j, head (net w) = Some (Reply reply) → ok reply = true →
       body reply = JsonBody j → j ≠ JNull →
       search_error statusText (head (net w)) = None).
Proof.
  intros Hq. cbn zeta. rewrite (fetchProducts_run _ _ _ _ _ _ Hq).
  cbn [fst snd]. split; [|split].
  - destruct (search_error statusText (head (net w))) as [e|]; [|by destruct w].
    split; [done|]. split; [|by destruct w].
    unfold shown_error, js_or. simpl.
    repeat case_bool_decide; done.
  - intros reply -> Hok. unfold search_error. by rewrite Hok.
  - intros reply j -> Hok Hb Hj. unfold search_error.
    rewrite Hok, Hb. by destruct j.
Qed.

End fetchProducts_facts.

Lemma fetchProducts_sends_one_request_witness :
  sent (fetchProducts plain_params no_statusText "shoes" [] 1 "relevance"
          (initial_search, world_with [])).2.2
  = [search_request plain_params "shoes" [] 1 "relevance"].
Proof.
  destruct (fetchProducts_sends_one_request plain_params no_statusText
              "shoes" [] 1 "relevance" initial_search (world_with []))
    as (_ & Hsend).
  by destruct Hsend as (_ & _ & -> & _).
Defined.

Lemma fetchProducts_result_witness :
  search_error no_statusText
    (head (net (world_with [Reply {| status := 503; body := NotJson "" |}])))
  = Some {| kind := PlainError;
            message := "Server responded with 503: " |}.
Proof.
  destruct (fetchProducts_result plain_params no_statusText "shoes" [] 1
              "relevance" initial_search
              (world_with [Reply {| status := 503; body := NotJson "" |}]))
    as (_ & Hrefused & _); [done|].
  by apply (Hrefused {| status := 503; body := NotJson "" |}).
Defined.

(** X22. The search parameters are q, page and sort, in that order,
    followed by one parameter for each filter that is set; a filter whose
    value is the empty string or [false] is left out. *)
Theorem search_params_filters (query : string)
    (filters : list (string * Json)) (page : Z) (sortBy : string) :
  take 3 (search_params query filters page sortBy)
  = [("q", query); ("page", pretty page); ("sort", sortBy)] ∧
  ∀ k v,
    (k, v) ∈ drop 3 (search_params query filters page sortBy)
    ↔ ∃ j, (k, j) ∈ filters ∧ j ≠ JStr "" ∧ j ≠ JBool false
           ∧ v = json_to_string j.
Proof.
  split; [done|]. intros k v.
  assert (drop 3 (search_params query filters page sortBy)
    = omap (λ kv, if filter_is_set kv.2
                  then Some (kv.1, json_to_string kv.2) else None)
           (Object_entries filters)) as -> by done.
  rewrite list_elem_of_omap. split.
  - intros ([k' j] & Hin & Hset). rewrite (Object_entries_perm filters) in Hin.
    simpl in Hset. destruct (filter_is_set j) eqn:Hj; [|done].
    injection Hset as <- <-. exists j. split; [done|].
    split; [|split; [|done]]; intros ->; done.
  - intros (j & Hin & Hs & Hb & ->). exists (k, j).
    rewrite (Object_entries_perm filters). split; [done|]. simpl.
    assert (filter_is_set j = true) as ->; [|done].
    destruct j as [|[]| |s| |]; simpl; try done.
    apply bool_decide_eq_true_2. by intros ->.
Qed.

(** *** Pagination, filters, screen *)

(** X23. Whatever is clicked, the page never drops below 1. Below 2^53
    Previous undoes Next; at 2^53 the next page is no longer a double of its
    own and Next leaves the page where it is. *)
Theorem page_stays_positive (page : Z) (clicks : list Click) :
  (1 ≤ page)%Z →
  (1 ≤ fold_left click clicks page)%Z ∧
  ((page < 2 ^ 53)%Z → click (click page Next) Previous = page) ∧
  click 1 Previous = 1%Z ∧
  click (2 ^ 53) Next = (2 ^ 53)%Z.
Proof.
  intros Hp. split; [|split; [|split; by vm_compute]].
  - revert page Hp. induction clicks as [|c clicks IH]; intros page Hp; [done|].
    simpl. apply IH. destruct c; unfold click; [lia|].
    apply rounded_positive. lia.
  - intros Hlt. unfold click.
    assert (rounded (page + 1) = page + 1)%Z as ->.
    { destruct (decide (page + 1 < 2 ^ 53)%Z) as [Hs|Hs].
      - apply rounded_small. lia.
      - assert (page + 1 = 2 ^ 53)%Z as -> by lia. by vm_compute. }
    replace (page + 1 - 1)%Z with page by lia.
    rewrite rounded_small by lia. lia.
Qed.

Lemma page_stays_positive_witness :
  (1 ≤ fold_left click [Previous; Next; Previous; Previous] 1)%Z.
Proof. apply (page_stays_positive 1 [Previous; Next; Previous; Previous]). lia. Defined.

(** X24. A change of a filter control sets that filter, to the checked
    flag for a checkbox and to the value otherwise, leaves every other filter
    as it was, and takes the page back to 1. *)
Theorem handleFilterChange_sets_one_filter (e : Change)
    (filters : list (string * Json)) (page : Z) :
  let r := handleFilterChange e filters page in
  r.2 = 1%Z ∧
  assoc_lookup r.1 (target_name e)
  = Some (if bool_decide (target_type e = "checkbox")
          then JBool (target_checked e) else JStr (target_value e)) ∧
  (∀ k, k ≠ target_name e → assoc_lookup r.1 k = assoc_lookup filters k) ∧
  (target_name e ∈ filters.*1 → r.1.*1 = filters.*1).
Proof.
  cbn zeta. unfold handleFilterChange. cbn [fst snd].
  split; [done|]. split; [|split].
  - by rewrite assoc_lookup_set, decide_True.
  - intros k Hk. by rewrite assoc_lookup_set, decide_False.
  - apply assoc_set_keys.
Qed.

Lemma handleFilterChange_sets_one_filter_witness :
  assoc_lookup
    (handleFilterChange
       {| target_name := "inStock"; target_value := "on";
          target_type := "checkbox"; target_checked := true |}
       [("category", JStr "home"); ("inStock", JBool false)] 3).1
    "category"
  = Some (JStr "home").
Proof.
  destruct (handleFilterChange_sets_one_filter
              {| target_name := "inStock"; target_value := "on";
                 target_type := "checkbox"; target_checked := true |}
              [("category", JStr "home"); ("inStock", JBool false)] 3)
    as (_ & _ & Hothers & _).
  by rewrite Hothers.
Defined.

Section render_facts.
Variable string_exceeds_zero : string → bool.

(** X25. Pagination is rendered only together with the product list:
    wherever [products.length > 0] holds, [products.length === 0] does not.
    When the products in state are an array, it is rendered exactly when the
    list is. *)
Theorem pagination_goes_with_products (s : Search) :
  (pagination_shown string_exceeds_zero s = Return true →
   screen s = Return Products) ∧
  (∀ items, products s = VJson (JArr items) →
     ∃ shown, pagination_shown string_exceeds_zero s = Return shown ∧
              (shown = true ↔ screen s = Return Products)).
Proof.
  unfold pagination_shown, screen. split.
  - destruct (loading s), (truthy (error s)); try done.
    destruct (length_of (products s)) as [n|t]; [|done].
    destruct n as [|[| |z| | |]| |]; simpl; try done.
    intros [= Hpos%bool_decide_eq_true_1].
    by rewrite bool_decide_eq_false_2 by lia.
  - intros items ->. destruct (loading s), (truthy (error s));
      try (by exists false). simpl.
    eexists. split; [done|].
    by destruct items as [|x items].
Qed.

End render_facts.

Lemma pagination_goes_with_products_witness :
  screen {| products := VJson (JArr [JObj [("id", JNum 1)]]);
            loading := false; error := VJson JNull |}
  = Return Products.
Proof.
  apply (proj1 (pagination_goes_with_products (λ _, false)
    {| products := VJson (JArr [JObj [("id", JNum 1)]]);
       loading := false; error := VJson JNull |})).
  done.
Defined.

End ProductSearchFacts.

(** ** The search state kept in localStorage *)

Module SearchStorageFacts.
Import Js ProductSearch.

(** X26. With saveSearchState true, the cleanup after the effect leaves
    neither key in localStorage, whatever they held before, and touches no
    other key; when neither key was there before the effect ran, localStorage
    is back to what it was. With saveSearchState false the effect followed
    by the cleanup changes nothing. *)
Theorem storage_effect_then_cleanup (query : string) (filters : Json)
    (save : bool) (w : World) :
  let after := (storage_cleanup save (storage_effect query filters save w).2).2 in
  (save = true →
     localStorage after !! "lastSearchQuery" = None ∧
     localStorage after !! "lastSearchFilters" = None ∧
     (∀ k, k ≠ "lastSearchQuery" → k ≠ "lastSearchFilters" →
           localStorage after !! k = localStorage w !! k) ∧
     (localStorage w !! "lastSearchQuery" = None →
      localStorage w !! "lastSearchFilters" = None →
      localStorage after = localStorage w)) ∧
  (save = false → after = w).
Proof.
  cbn zeta. split.
  - intros ->. simpl.
    assert (Hlk : ∀ k,
      (delete "lastSearchFilters"
         (delete "lastSearchQuery"
            (<["lastSearchFilters" := Stringified filters]>
               (<["lastSearchQuery" := Raw query]> (localStorage w))))) !! k
      = if decide (k = "lastSearchQuery" ∨ k = "lastSearchFilters")
        then None else localStorage w !! k).
    { intros k. rewrite !lookup_delete, !lookup_insert.
      repeat case_decide; try done; intuition congruence. }
    split; [by rewrite Hlk, decide_True by auto|].
    split; [by rewrite Hlk, decide_True by auto|]. split.
    + intros k H1 H2. rewrite Hlk, decide_False; [done|]. by intros [?|?].
    + intros H1 H2. apply map_eq. intros k. rewrite Hlk.
      case_decide as Hk; [|done]. by destruct Hk as [->| ->].
  - intros ->. by destruct w.
Qed.

Lemma storage_effect_then_cleanup_witness :
  localStorage
    (storage_cleanup true
       (storage_effect "shoes" search_filters true (world_with [])).2).2
  = localStorage (world_with []).
Proof.
  by apply (storage_effect_then_cleanup "shoes" search_filters true
              (world_with [])).
Defined.

End SearchStorageFacts.

(** ** UserStatistics: which mode is shown *)

Module UserStatisticsMoreFacts.
Import UserStatistics UserStatisticsFacts UserStatisticsMore.

(** X28. On a non-empty list whose categories avoid the names that
    [Object.prototype] answers to, the top category shown is a mode of the
    categories: it occurs in the list and no category occurs more often. *)
Theorem topCategory_is_mode_of_safe_categories (user : option User)
    (ts : list Transaction) :
  ts ≠ [] → Forall (λ t, safe (category t)) ts →
  topCategory (stats user ts) ∈ category <$> ts ∧
  ∀ c, occurrences c (category <$> ts)
       ≤ occurrences (topCategory (stats user ts)) (category <$> ts).
Proof. intros Hne Hsafe. by apply topCategory_mode_of_safe. Qed.

Lemma topCategory_is_mode_of_safe_categories_witness :
  topCategory (stats None [ {| amount := 1%Qc; category := "rent" |};
                            {| amount := 1%Qc; category := "food" |};
                            {| amount := 1%Qc; category := "food" |} ])
  ∈ ["rent"; "food"; "food"].
Proof.
  apply (topCategory_is_mode_of_safe_categories None
    [ {| amount := 1%Qc; category := "rent" |};
      {| amount := 1%Qc; category := "food" |};
      {| amount := 1%Qc; category := "food" |} ]); [done|].
  unfold safe. apply (bool_decide_unpack _). by vm_compute.
Defined.

(** X29. When every category is a name that [Object.prototype] answers to
    (constructor, toString, valueOf, __proto__, ...), no count is ever a
    number and the top category shown stays "None", however many
    transactions there are. *)
Theorem topCategory_None_for_inherited_names (user : option User)
    (ts : list Transaction) :
  Forall (λ t, category t ∈ inherited_names) ts →
  topCategory (stats user ts) = "None" ∧
  all_text (frequencyMap_of ts).
Proof.
  intros Hts. split; [by apply topCategory_of_inherited_names|].
  apply all_text_fold; [done|]. by intros k v.
Qed.

Lemma topCategory_None_for_inherited_names_witness :
  topCategory (stats None [ {| amount := 1%Qc; category := "valueOf" |};
                            {| amount := 1%Qc; category := "__proto__" |} ])
  = "None".
Proof.
  apply (topCategory_None_for_inherited_names None
    [ {| amount := 1%Qc; category := "valueOf" |};
      {| amount := 1%Qc; category := "__proto__" |} ]).
  apply (bool_decide_unpack _). by vm_compute.
Defined.

(** *** The order of the keys *)

Lemma count_step_keys o t :
  safe (category t) →
  (count_step o t).*1 = note_first o.*1 (category t).
Proof.
  intros Hsafe. unfold count_step, js_set, note_first.
  assert (category t ≠ "__proto__") as Hc.
  { intros E. apply Hsafe. rewrite E. unfold inherited_names.
    apply elem_of_cons; auto. }
  rewrite decide_False by done.
  destruct (own_lookup o (category t)) as [v|] eqn:Hv.
  - rewrite own_replace_keys, decide_True; [done|].
    apply own_lookup_is_Some. by rewrite Hv.
  - apply own_lookup_None in Hv. rewrite decide_False by done.
    by rewrite fmap_app.
Qed.

Lemma frequencyMap_keys_fold ts o :
  Forall (λ t, safe (category t)) ts →
  (fold_left count_step ts o).*1
  = fold_left note_first (category <$> ts) o.*1.
Proof.
  revert o. induction ts as [|t ts IH]; intros o Hsafe; [done|].
  apply Forall_cons in Hsafe as [Ht Hts]. cbn [fold_left].
  rewrite IH by done. rewrite fmap_cons. cbn [fold_left].
  by rewrite count_step_keys.
Qed.

Lemma note_first_fold_elem cs seen c :
  c ∈ fold_left note_first cs seen ↔ c ∈ seen ∨ c ∈ cs.
Proof.
  revert seen. induction cs as [|c0 cs IH]; intros seen; simpl.
  - rewrite elem_of_nil. tauto.
  - rewrite IH, elem_of_cons. unfold note_first. case_decide as Hin.
    + split; [tauto|]. intros [?|[->|?]]; auto.
    + rewrite elem_of_app, list_elem_of_singleton. tauto.
Qed.

Lemma for_in_keys_named o :
  Forall (λ k, array_index k = None) o.*1 → for_in_keys o = o.*1.
Proof.
  intros Hnamed. unfold for_in_keys.
  assert (index_keys o.*1 = []) as ->.
  { unfold index_keys. induction Hnamed as [|k ks Hk _ IH]; [done|].
    simpl. by rewrite Hk. }
  unfold named_keys. simpl.
  induction Hnamed as [|k ks Hk _ IH]; [done|].
  rewrite filter_cons, decide_True by done. by f_equal.
Qed.

(** The scan keeps the first of the keys with the largest count. *)
Lemma top_scan_first o ks m0 t0 :
  let r := fold_left (top_step o) ks (m0, t0) in
  r = (m0, t0) ∨
  ∃ before after,
    ks = before ++ r.2 :: after ∧
    own_lookup o r.2 = Some (Count r.1) ∧ m0 < r.1 ∧
    ∀ k n, k ∈ before → own_lookup o k = Some (Count n) → n < r.1.
Proof.
  revert m0 t0. induction ks as [|k ks IH]; intros m0 t0; [by left|].
  cbn zeta. cbn [fold_left]. rewrite top_step_own. cbn [fst].
  assert (Hkeep :
    (∀ n, own_lookup o k = Some (Count n) → n ≤ m0) →
    let r := fold_left (top_step o) ks (m0, t0) in
    r = (m0, t0) ∨
    ∃ before after,
      k :: ks = before ++ r.2 :: after ∧
      own_lookup o r.2 = Some (Count r.1) ∧ m0 < r.1 ∧
      ∀ k' n, k' ∈ before → own_lookup o k' = Some (Count n) → n < r.1).
  { intros Hsmall. destruct (IH m0 t0) as [?|(b & a & Hks & Hlk & Hlt & Hb)];
      [by left | right].
    exists (k :: b), a. split; [simpl; f_equal; exact Hks|]. split; [done|].
    split; [done|]. intros k' n [->|Hin]%elem_of_cons Hn; [|by eapply Hb].
    apply Hsmall in Hn. lia. }
  destruct (own_lookup o k) as [[n|og ones]|] eqn:Hk; [|by apply Hkeep..].
  case_bool_decide as Hgt; [|apply Hkeep; intros n' [= <-]; lia].
  right. destruct (IH n k) as [Hr|(b & a & Hks & Hlk & Hlt & Hb)].
  - exists [], ks. rewrite Hr. simpl. split; [done|]. split; [done|].
    split; [done|]. by intros k' n' ?%elem_of_nil.
  - exists (k :: b), a. split; [simpl; f_equal; exact Hks|]. split; [done|].
    split; [lia|]. intros k' n' [->|Hin]%elem_of_cons Hn; [|by eapply Hb].
    rewrite Hk in Hn. injection Hn as <-. done.
Qed.

(** X30. Which mode is shown. When no category is a name of
    [Object.prototype] or a number-like name, the top category is, among
    the categories with the highest count, the one that appears first in
    the transactions: every category that first appears before it occurs
    strictly less often. *)
Theorem topCategory_is_first_mode (user : option User)
    (ts : list Transaction) :
  ts ≠ [] →
  Forall (λ t, safe (category t)) ts →
  Forall (λ t, array_index (category t) = None) ts →
  let cs := category <$> ts in
  let top := topCategory (stats user ts) in
  ∃ before after,
    first_seen cs = before ++ top :: after ∧
    ∀ c, c ∈ before → occurrences c cs < occurrences top cs.
Proof.
  intros Hne Hsafe Hnamed. cbn zeta.
  destruct (frequencyMap_tally ts Hsafe) as [Hnd Hlk].
  assert (Hkeys : (frequencyMap_of ts).*1 = first_seen (category <$> ts)).
  { unfold frequencyMap_of. by rewrite frequencyMap_keys_fold. }
  assert (Hall : ∀ k, k ∈ first_seen (category <$> ts) ↔ k ∈ category <$> ts).
  { intros k. unfold first_seen. rewrite note_first_fold_elem, elem_of_nil.
    tauto. }
  assert (Hfor : for_in_keys (frequencyMap_of ts)
                 = first_seen (category <$> ts)).
  { rewrite for_in_keys_named; [done|]. rewrite Hkeys.
    apply Forall_forall. intros k Hk%Hall.
    apply list_elem_of_fmap in Hk as (t & -> & Ht).
    by apply (proj1 (Forall_forall _ _) Hnamed). }
  assert (Htop : topCategory (stats user ts)
    = (fold_left (top_step (frequencyMap_of ts))
                 (for_in_keys (frequencyMap_of ts)) (0, "None")).2)
    by (destruct ts; done).
  rewrite Htop, Hfor.
  destruct (top_scan_first (frequencyMap_of ts)
              (first_seen (category <$> ts)) 0 "None")
    as [Hr|(b & a & Hks & Hr & _ & Hb)].
  - (* nothing selected: impossible, the first category has a count *)
    exfalso. destruct ts as [|t ts]; [done|].
    pose proof (top_scan (frequencyMap_of (t :: ts))
                  (first_seen (category <$> t :: ts)) 0 "None")
      as (_ & Hmax & _).
    rewrite Hr in Hmax. cbn [fst] in Hmax.
    assert (Hin : category t ∈ category <$> t :: ts)
      by (rewrite fmap_cons; apply elem_of_cons; auto).
    pose proof (proj1 (occurrences_pos _ _) Hin) as Hpos.
    specialize (Hmax (category t) (occurrences (category t) (category <$> t :: ts))).
    rewrite Hlk in Hmax.
    destruct (occurrences (category t) (category <$> t :: ts)) as [|n];
      [lia|].
    assert (S n ≤ 0); [|lia]. apply Hmax; [by apply Hall | done].
  - exists b, a. split; [done|]. intros c Hc.
    rewrite Hlk in Hr.
    destruct (occurrences _ (category <$> ts)) as [|m] eqn:Hm in Hr;
      [done|].
    simpl in Hr. injection Hr as Hr.
    assert (Hcin : c ∈ category <$> ts).
    { apply Hall. rewrite Hks. apply elem_of_app. auto. }
    apply occurrences_pos in Hcin.
    destruct (occurrences c (category <$> ts)) as [|n] eqn:Hn; [lia|].
    rewrite Hm, Hr. apply (Hb c); [done|]. by rewrite Hlk, Hn.
Qed.

Lemma topCategory_is_first_mode_witness :
  ∃ before after,
    UserStatisticsMore.first_seen ["rent"; "food"; "rent"; "food"]
    = before ++ "rent" :: after.
Proof.
  destruct (topCategory_is_first_mode None
    [ {| amount := 1%Qc; category := "rent" |};
      {| amount := 1%Qc; category := "food" |};
      {| amount := 1%Qc; category := "rent" |};
      {| amount := 1%Qc; category := "food" |} ])
    as (before & after & Hsplit & _).
  - done.
  - unfold safe. apply (bool_decide_unpack _). by vm_compute.
  - apply (bool_decide_unpack _). by vm_compute.
  - by exists before, after.
Defined.

End UserStatisticsMoreFacts.

(** ** State shared across components *)

Module SharedStateFacts.
Import Js JsFacts JsPropFacts ServicesFacts OrdersFacts.
Import Services(settles, leaves, login_request, store_token, login_reply).
Import ProductSearch(search_filters).

(** C6 (as stated, refuted). The effect of useSearchStateStorage writes
    localStorage, and API.setToken overwrites the token of the module-level
    API object. *)
Lemma storage_effect_writes_shared_state :
  let w := world_with [] in
  let w1 := (ProductSearch.storage_effect "shoes" search_filters true w).2 in
  let w2 := (Orders.setToken "abc" w).2 in
  localStorage w !! "lastSearchQuery" = None
  ∧ localStorage w1 !! "lastSearchQuery" = Some (Raw "shoes")
  ∧ localStorage w1 !! "lastSearchFilters" = Some (Stringified search_filters)
  ∧ shared w1 ≠ shared w
  ∧ api_token w2 = "abc" ∧ shared w2 ≠ shared w.
Proof.
  simpl. split; [done|]. split; [by vm_compute|]. split; [by vm_compute|].
  split; [|split; [done|]].
  - intros E. apply (f_equal (λ p, p.1 !! "lastSearchQuery")) in E.
    by vm_compute in E.
  - intros E. apply (f_equal snd) in E. by vm_compute in E.
Qed.

(** *** What leaves the shared state alone *)

Lemma after_fetch_shared req w : shared (after_fetch req w) = shared w.
Proof. by destruct w. Qed.

Lemma leaves_shared label req w : shared (leaves label req w) = shared w.
Proof.
  unfold leaves. destruct (settles (head (net w))); by destruct w.
Qed.

Lemma report_failure_world v w :
  (Services.report_failure v w).2 = w.
Proof.
  unfold Services.report_failure, bind, lift_completion, ret.
  by destruct (get_prop v "message").
Qed.

Lemma sendReminderEmail_shared apiURL orderId w :
  shared (Orders.sendReminderEmail apiURL orderId w).2 = shared w.
Proof.
  rewrite sendReminderEmail_run. cbn zeta.
  destruct (get_prop _ "message") as [m|]; [destruct (to_String m)|];
    by destruct w.
Qed.

Lemma fetchOrders_shared apiURL d w :
  shared (Orders.fetchOrders apiURL (d, w)).2.2 = shared w.
Proof.
  rewrite fetchOrders_run. cbn zeta.
  destruct (get_prop _ "message"); by destruct w.
Qed.

Lemma markAsShipped_shared apiURL orderId d w :
  shared (Orders.markAsShipped apiURL orderId (d, w)).2.2 = shared w.
Proof.
  rewrite markAsShipped_run. cbn zeta.
  destruct (get_prop _ "message") as [m|]; [destruct (to_String m)|];
    by destruct w.
Qed.

Lemma register_shared userData w :
  shared (Services.register userData w).2 = shared w.
Proof.
  unfold Services.register, try_catch, bind. rewrite apiClient_post_run.
  destruct (settles (head (net w))) as [v|v]; cbn [snd ret];
    rewrite ?report_failure_world; apply leaves_shared.
Qed.

Lemma getUserProfile_shared w :
  shared (UserService.getUserProfile w).2 = shared w.
Proof.
  unfold UserService.getUserProfile, try_catch, bind.
  rewrite apiClient_get_run.
  destruct (settles (head (net w))) as [v|v]; cbn [snd ret];
    rewrite ?report_failure_world; apply leaves_shared.
Qed.

Lemma fetchUserData_shared userId c w :
  shared (UserData.fetchUserData userId (c, w)).2.2 = shared w.
Proof.
  rewrite UserDataFacts.fetchUserData_run. cbn [snd].
  unfold UserData.fetched, UserData.log_failure.
  destruct (UserData.caught_error (net w));
    destruct (UserData.json_body (head (net w))); by destruct w.
Qed.

Lemma fetchProducts_shared params_toString statusText query filters page
    sortBy s w :
  shared (ProductSearchUI.fetchProducts params_toString statusText query
            filters page sortBy (s, w)).2.2 = shared w.
Proof.
  destruct (decide (query = "")) as [->|Hq]; [done|].
  rewrite (ProductSearchFacts.fetchProducts_run _ _ _ _ _ _ _ _ Hq).
  cbn [snd]. destruct (ProductSearchUI.search_error _ _); by destruct w.
Qed.

(** *** What writes it *)

Section auth.
Variable setToken : Value → M World unit.
Variable removeToken : M World unit.

Lemma login_storage email password w :
  localStorage (Services.login setToken email password w).2
  = match settles (head (net w)) with
    | Return data =>
        match get_prop data "token", get_prop data "user" with
        | Return token, Return user =>
            match setToken token
                    (after_fetch (login_request email password) w) with
            | (Return _, w2) =>
                <["user" := stringify_for_storage user]> (localStorage w2)
            | (Throw _, w2) => localStorage w2
            end
        | _, _ => localStorage w
        end
    | Throw _ => localStorage w
    end.
Proof.
  unfold Services.login, try_catch, bind. rewrite apiClient_post_run.
  unfold leaves. fold (login_request email password).
  destruct (settles (head (net w))) as [data|v] eqn:Hs.
  - apply settles_Return in Hs as (r & j & _ & _ & _ & ->).
    unfold lift_completion.
    destruct (get_prop (VJson j) "token") as [token|t] eqn:Htoken.
    + destruct (get_prop_after_read_value _ "token" "user" token Htoken)
        as (user & Huser).
      rewrite Huser.
      destruct (setToken token _) as [[[]|t] w2]; cbn [fst snd].
      * unfold localStorage_setItem, modify. cbn [fst snd].
        destruct (get_prop user "isAdmin") as [a|t]; [by destruct w2|].
        rewrite report_failure_world. by destruct w2.
      * by rewrite report_failure_world.
    + rewrite report_failure_world.
      destruct (get_prop (VJson j) "user"); by destruct w.
  - rewrite report_failure_world. by destruct w.
Qed.

Lemma logout_storage w :
  localStorage (Services.logout removeToken w).2
  = match removeToken w with
    | (Return _, w1) => delete "user" (localStorage w1)
    | (Throw _, w1) => localStorage w1
    end.
Proof.
  unfold Services.logout, bind.
  destruct (removeToken w) as [[[]|t] w1]; [|done].
  unfold localStorage_removeItem, modify, ret. by destruct w1.
Qed.

End auth.

Lemma updateUserProfile_storage JSON_parse profileData w :
  localStorage (UserService.updateUserProfile JSON_parse profileData w).2
  = UserService.updated_storage JSON_parse profileData w
  ∧ api_token (UserService.updateUserProfile JSON_parse profileData w).2
    = api_token w.
Proof.
  unfold UserService.updateUserProfile, UserService.updated_storage,
    try_catch, bind.
  rewrite apiClient_put_run. unfold leaves.
  destruct (settles (head (net w))) as [data|v].
  - unfold UserService.localStorage_getItem, lift_completion. cbn [fst snd].
    replace (localStorage (after_fetch _ w)) with (localStorage w)
      by (by destruct w).
    destruct (UserService.parse_stored JSON_parse (localStorage w !! "user"))
      as [currentUser|t].
    + destruct (truthy (VJson currentUser)); by destruct w.
    + rewrite report_failure_world. by destruct w.
  - rewrite report_failure_world. by destruct w.
Qed.

(** C6 (amended). The exercise code does write state shared across
    components. With saveSearchState true the effect of
    useSearchStateStorage stores lastSearchQuery and lastSearchFilters in
    localStorage and its cleanup removes them; with it false neither touches
    localStorage. API.setToken and API.removeToken overwrite the token of
    the module-level API object. authService.login stores the user under
    "user" once its request has succeeded with a body other than null and
    setToken has returned, on top of what setToken left; it writes nothing
    itself when the request fails, the body is null or setToken throws.
    authService.logout removes "user" once removeToken has returned.
    userService.updateUserProfile overwrites "user" with the stored user
    overlaid with the profile data when its request succeeds and the stored
    user parses to a truthy value, and writes nothing otherwise. The
    apiClient methods, register, getUserProfile, the API wrapper's get, post
    and put, the data-fetching effect of UserStatistics, fetchProducts and
    the three dashboard calls leave localStorage and the API token as they
    were. *)
Theorem shared_state_writes (w : World) :
  (∀ query filters save,
     localStorage (ProductSearch.storage_effect query filters save w).2
     = if save
       then <["lastSearchFilters" := Stringified filters]>
              (<["lastSearchQuery" := Raw query]> (localStorage w))
       else localStorage w) ∧
  (∀ save,
     localStorage (ProductSearch.storage_cleanup save w).2
     = if save
       then delete "lastSearchFilters"
              (delete "lastSearchQuery" (localStorage w))
       else localStorage w) ∧
  (∀ token, api_token (Orders.setToken token w).2 = token) ∧
  api_token (Orders.removeToken w).2 = "" ∧
  (∀ setToken email password,
     localStorage (Services.login setToken email password w).2
     = match settles (head (net w)) with
       | Return data =>
           match get_prop data "token", get_prop data "user" with
           | Return token, Return user =>
               match setToken token
                       (after_fetch (login_request email password) w) with
               | (Return _, w2) =>
                   <["user" := stringify_for_storage user]> (localStorage w2)
               | (Throw _, w2) => localStorage w2
               end
           | _, _ => localStorage w
           end
       | Throw _ => localStorage w
       end) ∧
  (∀ removeToken,
     localStorage (Services.logout removeToken w).2
     = match removeToken w with
       | (Return _, w1) => delete "user" (localStorage w1)
       | (Throw _, w1) => localStorage w1
       end) ∧
  (∀ JSON_parse profileData,
     localStorage (UserService.updateUserProfile JSON_parse profileData w).2
     = match settles (head (net w)),
             UserService.parse_stored JSON_parse (localStorage w !! "user") with
       | Return _, Return currentUser =>
           if truthy (VJson currentUser)
           then <["user" := Stringified (UserService.object_spread
                                           (VJson currentUser) profileData)]>
                  (localStorage w)
           else localStorage w
       | _, _ => localStorage w
       end
     ∧ api_token (UserService.updateUserProfile JSON_parse profileData w).2
       = api_token w) ∧
  (∀ endpoint payload,
     shared (Services.apiClient.get endpoint w).2 = shared w ∧
     shared (Services.apiClient.post endpoint payload w).2 = shared w ∧
     shared (Services.apiClient.put endpoint payload w).2 = shared w) ∧
  (∀ userData, shared (Services.register userData w).2 = shared w) ∧
  shared (UserService.getUserProfile w).2 = shared w ∧
  (∀ apiURL path payload,
     shared (Orders.get apiURL path w).2 = shared w ∧
     shared (Orders.post apiURL path payload w).2 = shared w ∧
     shared (Orders.put apiURL path payload w).2 = shared w) ∧
  (∀ userId c,
     shared (UserData.fetchUserData userId (c, w)).2.2 = shared w) ∧
  (∀ params_toString statusText query filters page sortBy s,
     shared (ProductSearchUI.fetchProducts params_toString statusText query
               filters page sortBy (s, w)).2.2 = shared w) ∧
  (∀ apiURL orderId d,
     shared (Orders.sendReminderEmail apiURL orderId w).2 = shared w ∧
     shared (Orders.fetchOrders apiURL (d, w)).2.2 = shared w ∧
     shared (Orders.markAsShipped apiURL orderId (d, w)).2.2 = shared w).
Proof.
  split; [by intros query filters []|]. split; [by intros []|].
  split; [done|]. split; [done|].
  split; [intros; apply login_storage|].
  split; [intros; apply logout_storage|].
  split; [intros; apply updateUserProfile_storage|].
  split.
  { intros endpoint payload.
    rewrite apiClient_get_run, apiClient_post_run, apiClient_put_run.
    cbn [snd]. by rewrite !leaves_shared. }
  split; [intros; apply register_shared|].
  split; [apply getUserProfile_shared|].
  split.
  { intros apiURL path payload.
    rewrite api_get_run, api_post_run, api_put_run. cbn [snd].
    by rewrite !after_fetch_shared. }
  split; [intros; apply fetchUserData_shared|].
  split; [intros; apply fetchProducts_shared|].
  intros apiURL orderId d. split; [apply sendReminderEmail_shared|].
  split; [apply fetchOrders_shared | apply markAsShipped_shared].
Qed.

Lemma shared_state_writes_witness :
  let profile := VJson (JObj [("name", JStr "Ada L."); ("3", JNum 1)]) in
  localStorage
    (UserService.updateUserProfile UserService.rejects_all profile
       UserService.stored_user).2 !! "user"
  = Some (Stringified (JObj [("3", JNum 1); ("name", JStr "Ada L.");
                             ("isAdmin", JBool true)])).
Proof.
  destruct (shared_state_writes UserService.stored_user)
    as (_ & _ & _ & _ & _ & _ & Hupdate & _).
  cbn zeta.
  destruct (Hupdate UserService.rejects_all
              (VJson (JObj [("name", JStr "Ada L."); ("3", JNum 1)])))
    as [-> _].
  by vm_compute.
Defined.

End SharedStateFacts.
